(** * CityPulse: the traffic image processor ([scripts/image_processor.py])

    A shallow embedding of [TrafficImageProcessor]: the dispatcher
    [process_image], the classifier [_detect_image_type], the five
    type-specific processors and the colour segmenter, together with the
    text-level helpers they rely on (Python's [str] methods and the regular
    expressions of the source, each written out as the scanner it denotes).

    Conventions.
    - A Python [str] is a [string]; a character is a code point below 256.
    - The calls into OpenCV, Tesseract, the clock and NumPy's generator are
      the fields of a [World]; the pixel-level operations the source relies
      on for its decisions ([inRange], [countNonZero]) are written out.
    - A function that may raise returns [exn + _] inside the monad [M], which
      also threads the position in the pseudo-random stream. *)

From Stdlib Require Import String Ascii List ZArith NArith Bool Arith Lia.
From Stdlib Require Import DecimalString.
Import ListNotations.
Open Scope string_scope.
Open Scope list_scope.

Set Implicit Arguments.

(* ===================================================================== *)
(** ** Python strings *)
(* ===================================================================== *)

Module PyStr.

Definition ord (c : ascii) : N := N_of_ascii c.

Definition between (lo hi : N) (c : ascii) : bool :=
  (lo <=? ord c)%N && (ord c <=? hi)%N.

(** [str.isspace] on one character, which is also the class [\s] of [re]
    for [str] patterns: TAB..CR, FS..US, SPACE, NEL and NBSP. *)
Definition isspace (c : ascii) : bool :=
  between 9 13 c || between 28 32 c || (ord c =? 133)%N || (ord c =? 160)%N.

(** The class [\d]: below code point 256 only the ASCII digits are
    decimal digits. *)
Definition isdigit (c : ascii) : bool := between 48 57 c.

(** The classes [[A-Z]] and [[a-z]] (no flag: ASCII letters only). *)
Definition is_AZ (c : ascii) : bool := between 65 90 c.
Definition is_az (c : ascii) : bool := between 97 122 c.

(** [str.lower] on one character: the ASCII capitals and the Latin-1
    capitals (all of U+00C0..U+00DE but the multiplication sign). *)
Definition lower_char (c : ascii) : ascii :=
  if between 65 90 c || between 192 214 c || between 216 222 c
  then ascii_of_N (ord c + 32) else c.

Fixpoint lower (s : string) : string :=
  match s with
  | EmptyString => EmptyString
  | String c s' => String (lower_char c) (lower s')
  end.

Definition is_empty (s : string) : bool :=
  match s with EmptyString => true | _ => false end.

(** The truth value of a [str]: non-empty. *)
Definition truthy (s : string) : bool := negb (is_empty s).

Fixpoint lstrip (s : string) : string :=
  match s with
  | EmptyString => EmptyString
  | String c s' => if isspace c then lstrip s' else s
  end.

Fixpoint rstrip (s : string) : string :=
  match s with
  | EmptyString => EmptyString
  | String c s' =>
      let r := rstrip s' in
      if isspace c && is_empty r then EmptyString else String c r
  end.

(** [s.strip()] *)
Definition strip (s : string) : string := rstrip (lstrip s).

Definition cons_head (c : ascii) (l : list string) : list string :=
  match l with
  | [] => [String c EmptyString]
  | h :: t => String c h :: t
  end.

(** [s.split(sep)] for a one-character separator: never an empty list. *)
Fixpoint split (sep : ascii) (s : string) : list string :=
  match s with
  | EmptyString => [EmptyString]
  | String c s' =>
      if Ascii.eqb c sep then EmptyString :: split sep s'
      else cons_head c (split sep s')
  end.

(** [needle in hay] *)
Fixpoint contains (needle hay : string) : bool :=
  String.prefix needle hay ||
  match hay with
  | EmptyString => false
  | String _ hay' => contains needle hay'
  end.

(** [any(keyword in text for keyword in keywords)] *)
Definition any_in (keywords : list string) (text : string) : bool :=
  existsb (fun keyword => contains keyword text) keywords.

(** The longest prefix of [s] whose characters satisfy [p], and the rest. *)
Fixpoint span (p : ascii -> bool) (s : string) : string * string :=
  match s with
  | EmptyString => (EmptyString, EmptyString)
  | String c s' =>
      if p c then let '(a, b) := span p s' in (String c a, b)
      else (EmptyString, s)
  end.

(** [pat] (lower-case ASCII) is a prefix of [s] up to letter case, the way
    [re.IGNORECASE] compares a literal. *)
Fixpoint prefix_ci (pat s : string) : bool :=
  match pat, s with
  | EmptyString, _ => true
  | String p pat', String c s' => Ascii.eqb (lower_char c) p && prefix_ci pat' s'
  | String _ _, EmptyString => false
  end.

(** [int(s)] for a string of ASCII digits. *)
Definition digit_val (c : ascii) : Z := Z.of_N (ord c) - 48.

Fixpoint int_acc (acc : Z) (s : string) : Z :=
  match s with
  | EmptyString => acc
  | String c s' => int_acc (10 * acc + digit_val c) s'
  end.

Definition int (s : string) : Z := int_acc 0 s.

(** [str(n)] for a natural number, as an f-string prints it. *)
Definition str_of_nat (n : nat) : string :=
  NilEmpty.string_of_uint (Nat.to_uint n).

End PyStr.
Import PyStr.

(* ===================================================================== *)
(** ** The regular expressions of the source

    Every pattern of the source matches non-empty text only and, read
    greedily from a start position, either matches there in one way or not
    at all (giving characters back never helps: the character after a
    shortened run is of the class just left).  A pattern is therefore
    embedded as a function from the text at the start position to the value
    [re] reports for the match and the number of characters matched. *)
(* ===================================================================== *)

Module Re.

Definition matcher (A : Type) := string -> option (A * nat).

(** [re.findall]: matches left to right, never overlapping.  [skip] is
    the number of characters still covered by the previous match. *)
Fixpoint findall_from (A : Type) (m : matcher A) (skip : nat) (s : string)
  : list A :=
  match s with
  | EmptyString => []
  | String _ s' =>
      match skip with
      | S k => findall_from m k s'
      | O =>
          match m s with
          | Some (a, len) => a :: findall_from m (len - 1) s'
          | None => findall_from m 0 s'
          end
      end
  end.

Definition findall (A : Type) (m : matcher A) (s : string) : list A :=
  findall_from m 0 s.

(** [re.search]: the leftmost match. *)
Fixpoint search (A : Type) (m : matcher A) (s : string) : option A :=
  match s with
  | EmptyString => None
  | String _ s' =>
      match m s with
      | Some (a, _) => Some a
      | None => search m s'
      end
  end.

(** [\d+] followed by the rest. *)
Definition digits1 (s : string) : option (string * string) :=
  let '(ds, rest) := span isdigit s in
  if is_empty ds then None else Some (ds, rest).

(** One of the alternatives, tried in order, ignoring case: the length of
    the first that is a prefix. *)
Fixpoint alt_ci (alts : list string) (s : string) : option nat :=
  match alts with
  | [] => None
  | a :: alts' =>
      if prefix_ci a s then Some (String.length a) else alt_ci alts' s
  end.

(** [(\d+)\s*(?:u1|u2|...)] with [re.IGNORECASE]; the value is group 1. *)
Definition int_unit (units : list string) : matcher string := fun s =>
  match digits1 s with
  | None => None
  | Some (ds, r1) =>
      let '(ws, r2) := span isspace r1 in
      match alt_ci units r2 with
      | Some n => Some (ds, String.length ds + String.length ws + n)%nat
      | None => None
      end
  end.

(** [\d+(?:\.\d+)?]: the matched text and what follows it. *)
Definition number_text (s : string) : option (string * string) :=
  match digits1 s with
  | None => None
  | Some (ds, r1) =>
      match r1 with
      | String "." r2 =>
          match digits1 r2 with
          | Some (fs, r3) => Some ((ds ++ "." ++ fs)%string, r3)
          | None => Some (ds, r1)
          end
      | _ => Some (ds, r1)
      end
  end.

(** [r'\d+(?:\.\d+)?'] *)
Definition number : matcher string := fun s =>
  match number_text s with
  | Some (tok, _) => Some (tok, String.length tok)
  | None => None
  end.

(** [(\d+(?:\.\d+)?)\s*(?:u1|u2|...)] with [re.IGNORECASE]. *)
Definition number_unit (units : list string) : matcher string := fun s =>
  match number_text s with
  | None => None
  | Some (tok, r1) =>
      let '(ws, r2) := span isspace r1 in
      match alt_ci units r2 with
      | Some n => Some (tok, String.length tok + String.length ws + n)%nat
      | None => None
      end
  end.

(** [[A-Z][a-z]+] followed by the rest. *)
Definition cap_word (s : string) : option (string * string) :=
  match s with
  | String c s' =>
      if is_AZ c then
        let '(ls, rest) := span is_az s' in
        if is_empty ls then None else Some (String c ls, rest)
      else None
  | EmptyString => None
  end.

(** The starred group of [location_pattern] (whitespace, then a
    capitalised word) after the text [acc] already matched; every
    round consumes at least three characters, so [fuel] = the length of
    the text is never exhausted. *)
Fixpoint more_words (fuel : nat) (acc rest : string) : string :=
  match fuel with
  | O => acc
  | S fuel' =>
      let '(ws, r1) := span isspace rest in
      if is_empty ws then acc
      else match cap_word r1 with
           | Some (w, r2) => more_words fuel' (acc ++ ws ++ w)%string r2
           | None => acc
           end
  end.

(** [location_pattern]: a capitalised word, then any number of further
    capitalised words, each after a run of whitespace. *)
Definition location : matcher string := fun s =>
  match cap_word s with
  | None => None
  | Some (w, rest) =>
      let m := more_words (String.length s) w rest in
      Some (m, String.length m)
  end.

(** [re.split(r'\s{2,}|\t', s)]: a run of two or more whitespace
    characters is one separator, and so is a tab alone.  The head of the
    result is the cell being read. *)
Fixpoint split_cells_from (skip : nat) (s : string) : list string :=
  match s with
  | EmptyString => [EmptyString]
  | String c s' =>
      match skip with
      | S k => split_cells_from k s'
      | O =>
          let run := String.length (fst (span isspace s)) in
          if (2 <=? run)%nat then EmptyString :: split_cells_from (run - 1) s'
          else if Ascii.eqb c "009" then EmptyString :: split_cells_from 0 s'
          else cons_head c (split_cells_from 0 s')
      end
  end.

Definition split_cells (s : string) : list string := split_cells_from 0 s.

End Re.

(* ===================================================================== *)
(** ** Exceptions, the outside world and the monad of the processors *)
(* ===================================================================== *)

(** An exception of a class derived from [Exception]; [str(e)] is
    [exn_msg]. *)
Record exn : Type := Raise { exn_class : string; exn_msg : string }.

(** A pixel is three channels: (B, G, R) as [cv2.imread] loads it,
    (H, S, V) after [cv2.COLOR_BGR2HSV]. *)
Definition pixel : Type := (Z * Z * Z)%type.
Definition Image : Type := list (list pixel).
Definition GrayImage : Type := list (list Z).

(** What the source calls and does not define. *)
Record World : Type := MkWorld {
  (** [cv2.imread]: [None] for a path that cannot be read or decoded. *)
  imread : string -> option Image;
  (** [cv2.cvtColor] with [COLOR_BGR2GRAY] and with [COLOR_BGR2HSV]. *)
  BGR2GRAY : Image -> GrayImage;
  BGR2HSV : Image -> Image;
  (** [pytesseract.image_to_string] on an array, with its [config]. *)
  tesseract : Image + GrayImage -> string -> exn + string;
  (** [cv2.morphologyEx(_, cv2.MORPH_OPEN, kernel)] with a rectangular
      kernel of the given (width, height). *)
  morph_open : GrayImage -> nat * nat -> GrayImage;
  (** [cv2.HoughCircles] with the parameters of the source. *)
  Circles : Type;
  HoughCircles : GrayImage -> option Circles;
  (** [cv2.findContours], and for a contour the number of vertices of
      [cv2.approxPolyDP(contour, 0.02 * arcLength, True)]. *)
  Contour : Type;
  findContours : GrayImage -> list Contour;
  approx_len : Contour -> nat;
  (** [datetime.now().isoformat()] *)
  now_isoformat : string;
  (** The raw draws of NumPy's global generator, by position. *)
  rand_raw : nat -> Z
}.

(** A computation that may raise and that reads the generator: from the
    position in the random stream to an outcome and the new position. *)
Definition M (A : Type) : Type := nat -> (exn + A) * nat.

Definition ret (A : Type) (a : A) : M A := fun k => (inr a, k).
Definition raise (A : Type) (e : exn) : M A := fun k => (inl e, k).
Definition bind (A B : Type) (m : M A) (f : A -> M B) : M B := fun k =>
  match m k with
  | (inl e, k') => (inl e, k')
  | (inr a, k') => f a k'
  end.
Definition lift (A : Type) (r : exn + A) : M A := fun k => (r, k).

Notation "x <- m ;; f" := (bind m (fun x => f))
  (at level 61, m at next level, right associativity).

(** [np.random.randint(low, high)]: an integer of [low, high), and one
    draw consumed. *)
Definition randint (w : World) (low high : Z) : M Z := fun k =>
  (inr (low + rand_raw w k mod (high - low))%Z, S k).

(** [cv2.cvtColor] raises on the [None] that [cv2.imread] returned. *)
Definition cvtColor (A : Type) (conv : Image -> A) (src : option Image) : M A :=
  match src with
  | Some img => ret (conv img)
  | None =>
      raise _ (Raise "cv2.error"
                 "OpenCV: error: (-215:Assertion failed) !_src.empty() in function 'cvtColor'")
  end.

(** [pytesseract.image_to_string]: anything but an array or a PIL image
    is refused. *)
Definition image_to_string (w : World) (image : option (Image + GrayImage))
    (config : string) : M string :=
  match image with
  | Some arr => lift (tesseract w arr config)
  | None => raise _ (Raise "TypeError" "Unsupported image object")
  end.

(** [cv2.inRange]: 255 where every channel lies within the inclusive
    bounds, 0 elsewhere. *)
Definition in_bounds (lo hi px : pixel) : bool :=
  let '(l0, l1, l2) := lo in
  let '(h0, h1, h2) := hi in
  let '(p0, p1, p2) := px in
  ((l0 <=? p0) && (p0 <=? h0) && (l1 <=? p1) && (p1 <=? h1)
   && (l2 <=? p2) && (p2 <=? h2))%Z.

Definition inRange (src : Image) (lo hi : pixel) : GrayImage :=
  map (map (fun px => if in_bounds lo hi px then 255%Z else 0%Z)) src.

(** [cv2.countNonZero] *)
Definition countNonZero (src : GrayImage) : nat :=
  list_sum (map (fun row => length (filter (fun v => negb (v =? 0)%Z) row)) src).

(* ===================================================================== *)
(** ** Results *)
(* ===================================================================== *)

(** [float(s)] for a numeric token: the double nearest to the literal,
    kept as the literal. *)
Record pyfloat : Type := float { float_literal : string }.

(** The [info] dictionary of [_extract_traffic_info]. *)
Record traffic_info : Type := MkInfo {
  estimated_time : option string;
  distance : option string;
  traffic_level : option string
}.

(** A Python [dict] with string keys, in insertion order. *)
Definition dict (V : Type) : Type := list (string * V).

Fixpoint dict_set (V : Type) (k : string) (v : V) (d : dict V) : dict V :=
  match d with
  | [] => [(k, v)]
  | (k', v') :: d' =>
      if String.eqb k k' then (k, v) :: d' else (k', v') :: dict_set k v d'
  end.

(** [dict(pairs)] *)
Definition dict_of (V : Type) (pairs : list (string * V)) : dict V :=
  fold_left (fun d kv => dict_set (fst kv) (snd kv) d) pairs [].

(** The value under the key ['data']. *)
Inductive payload : Type :=
| PyNone
| TrafficData (locations : list string) (speeds : list Z)
    (conditions : list string) (timestamp : string)
| ChartData (values : list pyfloat) (labels : list string)
    (chart_type : string) (timestamp : string)
| ScreenshotData (app_type : string) (info : traffic_info) (timestamp : string)
| Records (rows : list (dict (option string))).

(** The dictionary [process_image] returns: a field is [None] when the key
    is not in the dictionary. *)
Record Result : Type := MkResult {
  r_type : option string;
  r_data : option payload;
  r_extracted_count : option nat;
  r_error : option string;
  r_app_detected : option string;
  r_columns : option (list string);
  r_rows : option nat;
  r_text : option string;
  r_numbers : option (list pyfloat)
}.

(* ===================================================================== *)
(** ** pandas, as far as [_process_table] uses it *)
(* ===================================================================== *)

Record DataFrame : Type := MkDataFrame {
  df_columns : list string;
  df_values : list (list (option string))
}.

Definition pad_row (width : nat) (row : list string) : list (option string) :=
  (map Some row ++ repeat None (width - length row))%list.

(** [pd.DataFrame(data, columns=columns)] for a list of rows: short rows
    are filled with [None] up to the longest, whose length has to be the
    number of column names. *)
Definition pd_DataFrame (data : list (list string)) (columns : list string)
  : exn + DataFrame :=
  let width := list_max (map (@length string) data) in
  if (length columns =? width)%nat
  then inr (MkDataFrame columns (map (pad_row width) data))
  else inl (Raise "ValueError"
              (str_of_nat (length columns) ++ " columns passed, passed data had "
               ++ str_of_nat width ++ " columns")%string).

(** [df.to_dict('records')]: one [dict(zip(columns, row))] per row. *)
Definition to_dict_records (df : DataFrame) : list (dict (option string)) :=
  map (fun row => dict_of (combine (df_columns df) row)) (df_values df).

(* ===================================================================== *)
(** ** [class TrafficImageProcessor] *)
(* ===================================================================== *)

Section TrafficImageProcessor.

Variable w : World.

(** [_detect_table_structure] *)
Definition _detect_table_structure (gray_image : GrayImage) : bool :=
  let horizontal_lines := morph_open w gray_image (40, 1)%nat in
  let vertical_lines := morph_open w gray_image (1, 40)%nat in
  let h_lines := countNonZero horizontal_lines in
  let v_lines := countNonZero vertical_lines in
  (100 <? h_lines)%nat && (100 <? v_lines)%nat.

(** [_detect_image_type] *)
Definition _detect_image_type (image_path : string) : M string :=
  let image := imread w image_path in
  gray <- cvtColor (BGR2GRAY w) image ;;
  ocr <- image_to_string w (Some (inr gray)) "" ;;
  let text := lower ocr in
  (* what follows the keyword tests when none of them returns *)
  let structure :=
    if _detect_table_structure gray then ret "table" else ret "chart" in
  if any_in ["speed"; "km/h"; "mph"; "traffic"; "congestion"] text then
    if any_in ["map"; "route"; "navigation"; "street"] text
    then ret "traffic_map"
    else if any_in ["chart"; "graph"; "data"; "time"] text
    then ret "chart"
    else if any_in ["camera"; "live"; "current"] text
    then ret "screenshot"
    else structure
  else structure.

(** [_detect_traffic_colors] *)
Definition dominant_condition (green_pixels yellow_pixels red_pixels : nat)
  : list string :=
  if (green_pixels <? red_pixels)%nat && (yellow_pixels <? red_pixels)%nat
  then ["Congested"]
  else if (green_pixels <? yellow_pixels)%nat then ["Moderate"]
  else ["Good"].

Definition hsv_conditions (hsv : Image) : list string :=
  let green_mask := inRange hsv (40, 50, 50)%Z (80, 255, 255)%Z in
  let yellow_mask := inRange hsv (20, 50, 50)%Z (40, 255, 255)%Z in
  let red_mask := inRange hsv (0, 50, 50)%Z (10, 255, 255)%Z in
  let green_pixels := countNonZero green_mask in
  let yellow_pixels := countNonZero yellow_mask in
  let red_pixels := countNonZero red_mask in
  let conditions := dominant_condition green_pixels yellow_pixels red_pixels in
  concat (repeat conditions 5).

Definition _detect_traffic_colors (image : option Image) : M (list string) :=
  hsv <- cvtColor (BGR2HSV w) image ;;
  ret (hsv_conditions hsv).

(** The loop of [_process_traffic_map] over [enumerate(locations[:5])]:
    [acc] is the three lists of [traffic_data] filled so far. *)
Fixpoint combine_extracted (speeds traffic_conditions : list string)
    (i : nat) (locations : list string)
    (acc : list string * list Z * list string)
  : M (list string * list Z * list string) :=
  match locations with
  | [] => ret acc
  | location :: rest =>
      speed <- (if (i <? length speeds)%nat
                then ret (int (nth i speeds ""))
                else randint w 20 60) ;;
      let condition := if (i <? length traffic_conditions)%nat
                       then nth i traffic_conditions ""
                       else "Moderate" in
      let '(ls, ss, cs) := acc in
      combine_extracted speeds traffic_conditions (S i) rest
        (ls ++ [location], ss ++ [speed], cs ++ [condition])
  end.

(** [_process_traffic_map] *)
Definition _process_traffic_map (image_path : string) : M Result :=
  let image := imread w image_path in
  gray <- cvtColor (BGR2GRAY w) image ;;
  text <- image_to_string w (option_map inl image) "--psm 6" ;;
  let timestamp := now_isoformat w in
  let speeds := Re.findall (Re.int_unit ["km/h"; "mph"; "kph"]) text in
  let locations := Re.findall Re.location text in
  traffic_conditions <- _detect_traffic_colors image ;;
  filled <- combine_extracted speeds traffic_conditions 0
              (firstn 5 locations) ([], [], []) ;;
  let '(ls, ss, cs) := filled in
  ret {| r_type := Some "traffic_map";
         r_data := Some (TrafficData ls ss cs timestamp);
         r_extracted_count := Some (length ls);
         r_error := None; r_app_detected := None; r_columns := None;
         r_rows := None; r_text := None; r_numbers := None |}.

(** [_detect_chart_type] *)
Definition _detect_chart_type (image : option Image) : M string :=
  gray <- cvtColor (BGR2GRAY w) image ;;
  match HoughCircles w gray with
  | Some _ => ret "pie_chart"
  | None =>
      let contours := findContours w gray in
      let rectangles :=
        length (filter (fun contour => (approx_len w contour =? 4)%nat) contours) in
      if (5 <? rectangles)%nat then ret "bar_chart" else ret "line_chart"
  end.

(** [_process_chart].  The list [times] of the source is computed and
    never read; [re.findall] cannot raise, so it is left out. *)
Definition _process_chart (image_path : string) : M Result :=
  let image := imread w image_path in
  gray <- cvtColor (BGR2GRAY w) image ;;
  text <- image_to_string w (option_map inl image) "--psm 6" ;;
  let numbers := map float (Re.findall Re.number text) in
  let values := firstn 24 numbers in
  let labels :=
    map (fun i => ("Hour " ++ str_of_nat i)%string)
        (seq 0 (length (firstn 24 numbers))) in
  chart_type <- _detect_chart_type image ;;
  let timestamp := now_isoformat w in
  ret {| r_type := Some "chart";
         r_data := Some (ChartData values labels chart_type timestamp);
         r_extracted_count := Some (length values);
         r_error := None; r_app_detected := None; r_columns := None;
         r_rows := None; r_text := None; r_numbers := None |}.

(** [_extract_traffic_info] *)
Definition _extract_traffic_info (text : string) : traffic_info :=
  let time_match := Re.search (Re.int_unit ["min"; "minutes"; "hrs"; "hours"]) text in
  let distance_match := Re.search (Re.number_unit ["km"; "miles"; "mi"]) text in
  let level :=
    if any_in ["heavy"; "congested"; "slow"] (lower text) then Some "Heavy"
    else if any_in ["moderate"; "medium"] (lower text) then Some "Moderate"
    else if any_in ["light"; "clear"; "good"] (lower text) then Some "Light"
    else None in
  {| estimated_time := time_match;
     distance := distance_match;
     traffic_level := level |}.

(** The chain of tests on [text.lower()] in [_process_screenshot]. *)
Definition detect_app (text : string) : string :=
  if contains "google maps" (lower text) || contains "maps" (lower text)
  then "google_maps"
  else if contains "waze" (lower text) then "waze"
  else if contains "apple maps" (lower text) then "apple_maps"
  else "unknown".

(** [_process_screenshot] *)
Definition _process_screenshot (image_path : string) : M Result :=
  let image := imread w image_path in
  text <- image_to_string w (option_map inl image) "--psm 6" ;;
  let app_type := detect_app text in
  let screenshot_data :=
    ScreenshotData app_type (_extract_traffic_info text) (now_isoformat w) in
  ret {| r_type := Some "screenshot";
         r_data := Some screenshot_data;
         r_extracted_count := None;
         r_error := None; r_app_detected := Some app_type; r_columns := None;
         r_rows := None; r_text := None; r_numbers := None |}.

(** The loop of [_process_table] over the lines of the text. *)
Definition parse_table (text : string) : list (list string) :=
  let lines := split "010" (strip text) in
  flat_map (fun line =>
    if truthy (strip line) then
      let cells := Re.split_cells (strip line) in
      if (1 <? length cells)%nat then [cells] else []
    else []) lines.

(** What [_process_table] does with the recognised text. *)
Definition table_result (text : string) : M Result :=
  let table_data := parse_table text in
  if (1 <? length table_data)%nat then
    df <- lift (pd_DataFrame (skipn 1 table_data) (nth 0 table_data [])) ;;
    ret {| r_type := Some "table";
           r_data := Some (Records (to_dict_records df));
           r_extracted_count := None;
           r_error := None; r_app_detected := None;
           r_columns := Some (df_columns df);
           r_rows := Some (length (df_values df));
           r_text := None; r_numbers := None |}
  else
    ret {| r_type := Some "table";
           r_data := Some (Records []);
           r_extracted_count := None;
           r_error := Some "No valid table structure detected";
           r_app_detected := None; r_columns := None;
           r_rows := None; r_text := None; r_numbers := None |}.

(** [_process_table] *)
Definition _process_table (image_path : string) : M Result :=
  let image := imread w image_path in
  gray <- cvtColor (BGR2GRAY w) image ;;
  text <- image_to_string w (Some (inr gray)) "--psm 6" ;;
  table_result text.

(** [_generic_ocr_processing] *)
Definition _generic_ocr_processing (image_path : string) : M Result :=
  let image := imread w image_path in
  text <- image_to_string w (option_map inl image) "" ;;
  let numbers := Re.findall Re.number text in
  ret {| r_type := Some "generic";
         r_data := None;
         r_extracted_count := Some (length numbers);
         r_error := None; r_app_detected := None; r_columns := None;
         r_rows := None;
         r_text := Some text;
         r_numbers := Some (map float numbers) |}.

(** The [try] block of [process_image]. *)
Definition process_image_body (image_path image_type : string) : M Result :=
  image_type <- (if String.eqb image_type "auto"
                 then _detect_image_type image_path
                 else ret image_type) ;;
  if String.eqb image_type "traffic_map" then _process_traffic_map image_path
  else if String.eqb image_type "chart" then _process_chart image_path
  else if String.eqb image_type "screenshot" then _process_screenshot image_path
  else if String.eqb image_type "table" then _process_table image_path
  else _generic_ocr_processing image_path.

(** The dictionary built by the [except Exception as e] clause. *)
Definition error_result (e : exn) : Result :=
  {| r_type := None;
     r_data := Some PyNone;
     r_extracted_count := None;
     r_error := Some ("Processing failed: " ++ exn_msg e)%string;
     r_app_detected := None; r_columns := None;
     r_rows := None; r_text := None; r_numbers := None |}.

(** [process_image]: the result, and the position reached in the random
    stream. *)
Definition process_image (image_path image_type : string) (k : nat)
  : Result * nat :=
  match process_image_body image_path image_type k with
  | (inr result, k') => (result, k')
  | (inl e, k') => (error_result e, k')
  end.

End TrafficImageProcessor.

(* ===================================================================== *)
(** ** A sample world, and the wording of the specification *)
(* ===================================================================== *)

(** A world in which every path but [missing.png] holds the raster [img],
    recognition always yields [txt], colour conversion to HSV keeps the
    channels and no line, circle or contour is ever found. *)
Definition sample_world (txt : string) (img : Image) : World :=
  {| imread := fun p => if String.eqb p "missing.png" then None else Some img;
     BGR2GRAY := fun i => map (map (fun px => snd px)) i;
     BGR2HSV := fun i => i;
     tesseract := fun _ _ => inr txt;
     morph_open := fun g _ => [];
     Circles := unit;
     HoughCircles := fun _ => None;
     Contour := unit;
     findContours := fun _ => [];
     approx_len := fun _ => 0%nat;
     now_isoformat := "2024-05-01T12:00:00";
     rand_raw := fun k => Z.of_nat (41 * k + 7) |}.

(** [lines] joined by newlines. *)
Definition unlines (lines : list string) : string :=
  String.concat (String "010" EmptyString) lines.

Definition traffic_keywords := ["speed"; "km/h"; "mph"; "traffic"; "congestion"].
Definition map_keywords := ["map"; "route"; "navigation"; "street"].
Definition chart_keywords := ["chart"; "graph"; "data"; "time"].
Definition live_keywords := ["camera"; "live"; "current"].

(** The classifier as the specification words it (first match wins), on
    the lower-cased text and the table-structure signal. *)
Definition classify_spec (text : string) (table_structure : bool) : string :=
  let traffic := any_in traffic_keywords text in
  if traffic && any_in map_keywords text then "traffic_map"
  else if traffic && any_in chart_keywords text then "chart"
  else if traffic && any_in live_keywords text then "screenshot"
  else if table_structure then "table"
  else "chart".

(** The number of pixels of [hsv] inside the inclusive box [lo]..[hi]. *)
Definition band_count (lo hi : pixel) (hsv : Image) : nat :=
  length (filter (in_bounds lo hi) (concat hsv)).

Definition green_count := band_count (40, 50, 50)%Z (80, 255, 255)%Z.
Definition yellow_count := band_count (20, 50, 50)%Z (40, 255, 255)%Z.
Definition red_count := band_count (0, 50, 50)%Z (10, 255, 255)%Z.

(** The pixel's hue lies in [lo]..[hi], its saturation and its value in
    50..255. *)
Definition hue_within (lo hi : Z) (px : pixel) : bool :=
  let '(hue, sat, val) := px in
  ((lo <=? hue) && (hue <=? hi) && (50 <=? sat) && (sat <=? 255)
   && (50 <=? val) && (val <=? 255))%Z.

(** The number of such pixels in a raster. *)
Definition hue_count (lo hi : Z) (hsv : Image) : nat :=
  length (filter (hue_within lo hi) (concat hsv)).

(** Every pixel of the raster is [px]. *)
Definition uniform (px : pixel) (img : Image) : Prop :=
  Forall (Forall (fun q => q = px)) img.

(** The number of pixels of a raster. *)
Definition pixels (img : Image) : nat := length (concat img).

(** A tie for the dominant band: the largest count is reached by two
    bands at least. *)
Definition tied_for_dominant (green yellow red : nat) : bool :=
  let top := Nat.max green (Nat.max yellow red) in
  (2 <=? length (filter (Nat.eqb top) [green; yellow; red]))%nat.

(** A cell holds no separator of the table pattern: no tab and no two
    whitespace characters in a row. *)
Definition starts_with_space (s : string) : bool :=
  match s with String c _ => isspace c | EmptyString => false end.

Fixpoint separator_free (s : string) : bool :=
  match s with
  | EmptyString => true
  | String c s' =>
      negb (Ascii.eqb c "009") && negb (isspace c && starts_with_space s')
      && separator_free s'
  end.

(** The result expected of the table processor for a header and rows of
    cells: one record per row, the header's names as keys. *)
Definition table_of (header : list string) (rows : list (list string)) : Result :=
  {| r_type := Some "table";
     r_data := Some (Records (map (fun row => combine header (map Some row)) rows));
     r_extracted_count := None;
     r_error := None; r_app_detected := None;
     r_columns := Some header;
     r_rows := Some (length rows);
     r_text := None; r_numbers := None |}.

(** The result the table processor builds from a data frame. *)
Definition frame_result (df : DataFrame) : Result :=
  {| r_type := Some "table";
     r_data := Some (Records (to_dict_records df));
     r_extracted_count := None;
     r_error := None; r_app_detected := None;
     r_columns := Some (df_columns df);
     r_rows := Some (length (df_values df));
     r_text := None; r_numbers := None |}.

(** The empty table record with its note. *)
Definition no_table : Result :=
  {| r_type := Some "table";
     r_data := Some (Records []);
     r_extracted_count := None;
     r_error := Some "No valid table structure detected";
     r_app_detected := None; r_columns := None;
     r_rows := None; r_text := None; r_numbers := None |}.

(** Outcome classes of a result: the error field set with no payload, or
    the error field unset with the payload of the kind. *)
Definition no_payload (r : Result) : bool :=
  match r_data r with
  | None | Some PyNone | Some (Records []) => true
  | _ => false
  end.

Definition is_error (r : Result) : bool :=
  match r_error r with Some _ => no_payload r | None => false end.

Definition payload_of_kind (r : Result) : bool :=
  match r_type r, r_data r with
  | Some kind, Some (TrafficData _ _ _ _) => String.eqb kind "traffic_map"
  | Some kind, Some (ChartData _ _ _ _) => String.eqb kind "chart"
  | Some kind, Some (ScreenshotData _ _ _) => String.eqb kind "screenshot"
  | Some kind, Some (Records (_ :: _)) => String.eqb kind "table"
  | Some kind, None =>
      String.eqb kind "generic"
      && match r_text r, r_numbers r with Some _, Some _ => true | _, _ => false end
  | _, _ => false
  end.

Definition is_success (r : Result) : bool :=
  match r_error r with None => payload_of_kind r | Some _ => false end.

(** The number of primary items of the payload: locations, values, rows,
    or the numbers of a generic result. *)
Definition primary_items (r : Result) : option nat :=
  match r_data r with
  | Some (TrafficData ls _ _ _) => Some (length ls)
  | Some (ChartData vs _ _ _) => Some (length vs)
  | Some (Records rows) => Some (length rows)
  | Some (ScreenshotData _ _ _) => None
  | Some PyNone => None
  | None => option_map (@length pyfloat) (r_numbers r)
  end.

(* ===================================================================== *)
(** ** Saving and drawing a result ([save_extracted_data],
       [create_visualization_from_extracted_data], [process_uploaded_image]) *)
(* ===================================================================== *)

(** [s.replace(old, new)] for a non-empty [old]: the occurrences of [old],
    left to right and never overlapping, become [new]. *)
Fixpoint replace_from (old new : string) (skip : nat) (s : string) : string :=
  match s with
  | EmptyString => EmptyString
  | String c s' =>
      match skip with
      | S k => replace_from old new k s'
      | O =>
          if String.prefix old s
          then (new ++ replace_from old new (String.length old - 1) s')%string
          else String c (replace_from old new 0 s')
      end
  end.

Definition replace (old new s : string) : string := replace_from old new 0 s.

(** Every character of [s] satisfies [p]. *)
Fixpoint all_chars (p : ascii -> bool) (s : string) : bool :=
  match s with
  | EmptyString => true
  | String c s' => p c && all_chars p s'
  end.

(** The last character of [s] satisfies [p] ([false] for the empty string). *)
Fixpoint last_char (p : ascii -> bool) (s : string) : bool :=
  match s with
  | EmptyString => false
  | String c EmptyString => p c
  | String _ s' => last_char p s'
  end.

(** A decimal literal: digits, or digits, a point and digits. *)
Definition decimal_literal (s : string) : Prop :=
  exists a b,
    a <> EmptyString /\ all_chars isdigit a = true /\ all_chars isdigit b = true /\
    (s = a \/ (b <> EmptyString /\ s = (a ++ "." ++ b)%string)).

(** A place name as [location_pattern] finds it: a capital first, letters
    and whitespace only, a small letter last. *)
Definition letter_or_space (c : ascii) : bool := is_AZ c || is_az c || isspace c.

Definition location_shape (s : string) : Prop :=
  (exists c rest, s = String c rest /\ is_AZ c = true) /\
  all_chars letter_or_space s = true /\
  last_char is_az s = true.

(** The character of [s] at position [i] exists and is no whitespace. *)
Fixpoint nonspace_at (i : nat) (s : string) : bool :=
  match s with
  | EmptyString => false
  | String c s' =>
      match i with
      | O => negb (isspace c)
      | S j => nonspace_at j s'
      end
  end.

(** A value in a cell of a data frame or of a figure. *)
Inductive pyval : Type :=
| VNone
| VStr (s : string)
| VInt (z : Z)
| VFloat (f : pyfloat).

(** A [pandas.DataFrame] without its index: the column names and the rows. *)
Record Frame : Type := MkFrame {
  fr_columns : list string;
  fr_rows : list (list pyval)
}.

(** A value of the dictionary given to [pd.DataFrame]: a list or a scalar. *)
Inductive column : Type :=
| ListCol (cells : list pyval)
| ScalarCol (cell : pyval).

Definition list_lengths (d : list (string * column)) : list nat :=
  flat_map (fun kc => match snd kc with
                      | ListCol cells => [length cells]
                      | ScalarCol _ => []
                      end) d.

Definition column_cell (i : nat) (c : column) : pyval :=
  match c with
  | ListCol cells => nth i cells VNone
  | ScalarCol v => v
  end.

(** [pd.DataFrame(d)] for a dictionary of lists and scalars: the lists
    have to be equally long, a scalar is repeated on every row. *)
Definition frame_of_columns (d : list (string * column)) : exn + Frame :=
  match list_lengths d with
  | [] => inl (Raise "ValueError"
                 "If using all scalar values, you must pass an index")
  | n :: others =>
      if forallb (Nat.eqb n) others
      then inr (MkFrame (map fst d)
                  (map (fun i => map (fun kc => column_cell i (snd kc)) d) (seq 0 n)))
      else inl (Raise "ValueError" "All arrays must be of the same length")
  end.

(** [d.get(k)] *)
Fixpoint dict_get (V : Type) (k : string) (d : dict V) : option V :=
  match d with
  | [] => None
  | (k', v) :: d' => if String.eqb k k' then Some v else dict_get k d'
  end.

(** The keys of the records, each once, in the order of first appearance. *)
Definition record_keys (V : Type) (records : list (dict V)) : list string :=
  fold_left (fun seen k => if existsb (String.eqb k) seen then seen
                           else (seen ++ [k])%list)
            (flat_map (fun r => map fst r) records) [].

(** [pd.DataFrame(records)] for a list of dictionaries: a key a record
    lacks gives NaN. *)
Definition frame_of_records (records : list (dict pyval)) : Frame :=
  let columns := record_keys records in
  MkFrame columns
    (map (fun r => map (fun k => match dict_get k r with
                                 | Some v => v
                                 | None => VFloat (float "nan")
                                 end) columns) records).

Definition cell_of (v : option string) : pyval :=
  match v with Some s => VStr s | None => VNone end.

(** A [go.Scatter] trace with the arguments the source gives it. *)
Record Scatter : Type := MkScatter {
  sc_x : list pyval;
  sc_y : list pyval;
  sc_mode : string;
  sc_text : option string;
  sc_textposition : option string;
  sc_marker : option (Z * string);
  sc_name : string
}.

(** A figure: the traces added and the layout set, or the call of
    [px.bar] with its arguments. *)
Inductive Figure : Type :=
| ScatterFigure (traces : list Scatter) (title xaxis_title yaxis_title : string)
    (showlegend : option bool)
| BarFigure (df : Frame) (x y title : string).

(** What is written outside the process, once the file system has
    accepted it. *)
Inductive effect : Type :=
| MakeDirs (path : string)
| WriteCsv (path : string) (df : Frame)
| WriteJson (path : string) (doc : Result)
| WriteHtml (path : string) (fig : Figure).

(** What the saving and drawing code calls and does not define. *)
Record Host : Type := MkHost {
  (** [datetime.now().strftime("%Y%m%d_%H%M%S")] *)
  strftime_now : string;
  (** [str.title] *)
  str_title : string -> string;
  (** [pd.DataFrame] on a payload no processor stores under the types
      that are saved as CSV: [None] and the screenshot dictionary. *)
  pd_DataFrame_other : payload -> exn + Frame;
  (** The file system: the exception [os.makedirs(path, exist_ok=True)]
      raises, and the one opening [path] for writing raises ([to_csv],
      [open], [write_html]); [None] when the call goes through. *)
  makedirs_error : string -> option exn;
  write_error : string -> option exn
}.

Definition KeyError (key : string) : exn :=
  Raise "KeyError" ("'" ++ key ++ "'")%string.

(** [data[key]] when [data] is not a dictionary. *)
Definition not_a_dict (data : payload) : exn :=
  match data with
  | PyNone => Raise "TypeError" "'NoneType' object is not subscriptable"
  | _ => Raise "TypeError" "list indices must be integers or slices, not str"
  end.

(** [lst[i]] *)
Definition list_index (A : Type) (l : list A) (i : nat) : exn + A :=
  match nth_error l i with
  | Some a => inr a
  | None => inl (Raise "IndexError" "list index out of range")
  end.

Section Saving.

Variable h : Host.

(** [pd.DataFrame(processed_data['data'])] *)
Definition data_frame (data : payload) : exn + Frame :=
  match data with
  | TrafficData ls ss cs ts =>
      frame_of_columns [("locations", ListCol (map VStr ls));
                        ("speeds", ListCol (map VInt ss));
                        ("conditions", ListCol (map VStr cs));
                        ("timestamp", ScalarCol (VStr ts))]
  | ChartData vs labels chart_type ts =>
      frame_of_columns [("values", ListCol (map VFloat vs));
                        ("labels", ListCol (map VStr labels));
                        ("chart_type", ScalarCol (VStr chart_type));
                        ("timestamp", ScalarCol (VStr ts))]
  | Records rows =>
      inr (frame_of_records (map (map (fun kv => (fst kv, cell_of (snd kv)))) rows))
  | other => pd_DataFrame_other h other
  end.

(** Writing a file: the exception of the file system, or the write done. *)
Definition write_file (path : string) (done : effect) : exn + effect :=
  match write_error h path with
  | Some e => inl e
  | None => inr done
  end.

(** The body shared by the three CSV branches of [save_extracted_data]. *)
Definition save_csv (processed_data : Result) (output_path : string)
  : exn + effect :=
  match r_data processed_data with
  | None => inl (KeyError "data")
  | Some data =>
      match data_frame data with
      | inl e => inl e
      | inr df => write_file output_path (WriteCsv output_path df)
      end
  end.

(** [save_extracted_data]: what it writes, or the exception it raises. *)
Definition save_extracted_data (processed_data : Result) (output_path : string)
  : exn + effect :=
  match r_type processed_data with
  | None => inl (KeyError "type")
  | Some type =>
      if String.eqb type "traffic_map" then save_csv processed_data output_path
      else if String.eqb type "chart" then save_csv processed_data output_path
      else if String.eqb type "table" then save_csv processed_data output_path
      else write_file (replace ".csv" ".json" output_path)
             (WriteJson (replace ".csv" ".json" output_path) processed_data)
  end.

(** The loop of [_create_traffic_map_viz] over [enumerate(locations)]. *)
Fixpoint traffic_traces (speeds : list Z) (conditions : list string)
    (i : nat) (locations : list string) : exn + list Scatter :=
  match locations with
  | [] => inr []
  | location :: rest =>
      match list_index speeds i with
      | inl e => inl e
      | inr speed =>
          match list_index conditions i with
          | inl e => inl e
          | inr condition =>
              let color :=
                match dict_get condition
                        [("Good", "green"); ("Moderate", "orange"); ("Congested", "red")] with
                | Some c => c
                | None => "blue"
                end in
              let trace :=
                {| sc_x := [VInt (Z.of_nat i)];
                   sc_y := [VInt speed];
                   sc_mode := "markers+text";
                   sc_text := Some location;
                   sc_textposition := Some "top center";
                   sc_marker := Some (15%Z, color);
                   sc_name := (location ++ " (" ++ condition ++ ")")%string |} in
              match traffic_traces speeds conditions (S i) rest with
              | inl e => inl e
              | inr traces => inr (trace :: traces)
              end
          end
      end
  end.

(** [_create_traffic_map_viz] *)
Definition _create_traffic_map_viz (data : payload) : exn + Figure :=
  match data with
  | TrafficData locations speeds conditions _ =>
      match traffic_traces speeds conditions 0 locations with
      | inl e => inl e
      | inr traces =>
          inr (ScatterFigure traces "Extracted Traffic Data" "Location Index"
                 "Speed (km/h)" (Some true))
      end
  | ChartData _ _ _ _ | ScreenshotData _ _ _ => inl (KeyError "locations")
  | other => inl (not_a_dict other)
  end.

(** [_create_chart_viz] *)
Definition _create_chart_viz (data : payload) : exn + Figure :=
  match data with
  | ChartData values labels chart_type _ =>
      let trace :=
        {| sc_x := map VStr labels;
           sc_y := map VFloat values;
           sc_mode := "lines+markers";
           sc_text := None; sc_textposition := None; sc_marker := None;
           sc_name := "Extracted Data" |} in
      inr (ScatterFigure [trace]
             ("Extracted " ++ str_title h (replace "_" " " chart_type) ++ " Data")%string
             "Time/Category" "Values" None)
  | TrafficData _ _ _ _ | ScreenshotData _ _ _ => inl (KeyError "labels")
  | other => inl (not_a_dict other)
  end.

Definition is_number (v : pyval) : bool :=
  match v with VInt _ | VFloat _ => true | _ => false end.

Definition is_missing (v : pyval) : bool :=
  match v with VNone => true | _ => false end.

(** The names of the columns of a numeric dtype: some number in the
    column and nothing but numbers and missing values. *)
Definition numeric_columns (df : Frame) : list string :=
  flat_map (fun jc =>
    let cells := map (fun row => nth (fst jc) row VNone) (fr_rows df) in
    if existsb is_number cells
       && forallb (fun v => is_number v || is_missing v) cells
    then [snd jc] else [])
    (combine (seq 0 (length (fr_columns df))) (fr_columns df)).

(** [not data] *)
Definition falsy (data : payload) : bool :=
  match data with
  | PyNone | Records [] => true
  | _ => false
  end.

(** [_create_table_viz] *)
Definition _create_table_viz (data : payload) : exn + option Figure :=
  if falsy data then inr None
  else match data_frame data with
       | inl e => inl e
       | inr df =>
           match numeric_columns df with
           | y :: _ =>
               match list_index (fr_columns df) 0 with
               | inl e => inl e
               | inr x => inr (Some (BarFigure df x y "Extracted Table Data"))
               end
           | [] => inr None
           end
       end.

Definition some_figure (r : exn + Figure) : exn + option Figure :=
  match r with inl e => inl e | inr fig => inr (Some fig) end.

(** [create_visualization_from_extracted_data] *)
Definition create_visualization_from_extracted_data (processed_data : Result)
  : exn + option Figure :=
  match r_type processed_data with
  | None => inl (KeyError "type")
  | Some type =>
      let with_data (f : payload -> exn + option Figure) :=
        match r_data processed_data with
        | None => inl (KeyError "data")
        | Some data => f data
        end in
      if String.eqb type "traffic_map"
      then with_data (fun data => some_figure (_create_traffic_map_viz data))
      else if String.eqb type "chart"
      then with_data (fun data => some_figure (_create_chart_viz data))
      else if String.eqb type "table"
      then with_data _create_table_viz
      else inr None
  end.

(** The dictionary [process_uploaded_image] returns: the result of
    [process_image] and the two keys it may add. *)
Record Uploaded : Type := MkUploaded {
  u_result : Result;
  u_visualization : option string;
  u_output_file : option string
}.

(** [process_uploaded_image]: the dictionary returned or the exception
    raised, what was written up to then, and the position reached in the
    random stream. *)
Definition process_uploaded_image (w : World) (image_path output_dir : string)
    (k : nat) : (exn + Uploaded) * list effect * nat :=
  let '(result, k') := process_image w image_path "auto" k in
  match r_error result with
  | Some _ => (inr (MkUploaded result None None), [], k')
  | None =>
      match makedirs_error h output_dir with
      | Some e => (inl e, [], k')
      | None =>
          let timestamp := strftime_now h in
          let output_file :=
            (output_dir ++ "extracted_data_" ++ timestamp ++ ".csv")%string in
          match save_extracted_data result output_file with
          | inl e => (inl e, [MakeDirs output_dir], k')
          | inr saved =>
              match create_visualization_from_extracted_data result with
              | inl e => (inl e, [MakeDirs output_dir; saved], k')
              | inr (Some fig) =>
                  let viz_file :=
                    (output_dir ++ "extracted_viz_" ++ timestamp ++ ".html")%string in
                  match write_file viz_file (WriteHtml viz_file fig) with
                  | inl e => (inl e, [MakeDirs output_dir; saved], k')
                  | inr drawn =>
                      (inr (MkUploaded result (Some viz_file) (Some output_file)),
                       [MakeDirs output_dir; saved; drawn], k')
                  end
              | inr None =>
                  (inr (MkUploaded result None (Some output_file)),
                   [MakeDirs output_dir; saved], k')
              end
          end
      end
  end.

End Saving.

(* ===================================================================== *)
(** ** The upload filter of [web_app.py] *)
(* ===================================================================== *)

Definition ALLOWED_EXTENSIONS : list string :=
  ["png"; "jpg"; "jpeg"; "gif"; "bmp"; "tiff"; "pdf"].

(** [s.rsplit(sep, 1)]: [s] cut at its last [sep], or [s] alone. *)
Fixpoint rsplit1 (sep : ascii) (s : string) : list string :=
  match s with
  | EmptyString => [EmptyString]
  | String c s' =>
      match rsplit1 sep s' with
      | [before; after] => [String c before; after]
      | _ => if Ascii.eqb c sep then [EmptyString; s'] else [s]
      end
  end.

(** [allowed_file] *)
Definition allowed_file (filename : string) : exn + bool :=
  if contains "." filename then
    match list_index (rsplit1 "." filename) 1 with
    | inl e => inl e
    | inr extension =>
        inr (existsb (String.eqb (lower extension)) ALLOWED_EXTENSIONS)
    end
  else inr false.

(** A host whose clock reads 2024-05-01 12:00:00 and whose file system
    refuses the empty path only. *)
Definition sample_host : Host :=
  {| strftime_now := "20240501_120000";
     str_title := fun s => s;
     pd_DataFrame_other := fun _ => inr (MkFrame [] []);
     makedirs_error := fun path =>
       if is_empty path
       then Some (Raise "FileNotFoundError" "[Errno 2] No such file or directory: ''")
       else None;
     write_error := fun path =>
       if is_empty path
       then Some (Raise "FileNotFoundError" "[Errno 2] No such file or directory: ''")
       else None |}.

(** Unfolding of the monad in goals about one call. *)
Ltac red_monad :=
  cbv beta iota zeta delta [option_map] in *.

Ltac step_monad :=
  unfold image_to_string, cvtColor, randint, bind, ret, raise, lift in *;
  red_monad.

(* ===================================================================== *)
(** ** Strings: substrings *)
(* ===================================================================== *)

Lemma prefix_app (a h : string) :
  String.prefix a h = true <-> exists post, h = (a ++ post)%string.
Proof.
  revert h. induction a as [|c a IH]; intros h.
  - split; [intros _; now exists h | intros _; now destruct h].
  - destruct h as [|d h]; simpl.
    + split; [discriminate | intros [post E]; discriminate].
    + destruct (Ascii.ascii_dec c d) as [->|N].
      * rewrite IH. split; intros [post E]; exists post.
        -- now rewrite E.
        -- now inversion E.
      * split; [discriminate | intros [post E]; inversion E; congruence].
Qed.

Lemma contains_app (n h : string) :
  contains n h = true <-> exists pre post, h = (pre ++ n ++ post)%string.
Proof.
  induction h as [|c h IH].
  - cbn [contains]. rewrite orb_false_r, prefix_app. split.
    + intros [post E]. now exists EmptyString, post.
    + intros [pre [post E]]. destruct pre; simpl in E; [now exists post | discriminate].
  - cbn [contains]. rewrite orb_true_iff, prefix_app, IH. split.
    + intros [[post E] | [pre [post E]]].
      * now exists EmptyString, post.
      * exists (String c pre), post. simpl. now rewrite E.
    + intros [pre [post E]]. destruct pre as [|d pre]; simpl in E.
      * left. now exists post.
      * right. inversion E. now exists pre, post.
Qed.

Lemma string_app_assoc (a b c : string) : ((a ++ b) ++ c = a ++ b ++ c)%string.
Proof. induction a; simpl; congruence. Qed.

Lemma contains_tail (a b h : string) :
  contains (a ++ b) h = true -> contains b h = true.
Proof.
  rewrite !contains_app. intros [pre [post E]].
  exists (pre ++ a)%string, post.
  now rewrite E, !string_app_assoc.
Qed.

Lemma apple_maps_has_maps (text : string) :
  contains "apple maps" text = true -> contains "maps" text = true.
Proof. apply (contains_tail "apple " "maps"). Qed.

(* ===================================================================== *)
(** ** The scanners on sample texts, and the fuel of [more_words] *)
(* ===================================================================== *)

Example findall_speeds :
  Re.findall (Re.int_unit ["km/h"; "mph"; "kph"]) "45 km/h, 30MPH, 12 k, 7kph"
  = ["45"; "30"; "7"].
Proof. reflexivity. Qed.

Example findall_numbers :
  Re.findall Re.number "a 12.5 3. 4.x 007 1.2.3" = ["12.5"; "3"; "4"; "007"; "1.2"; "3"].
Proof. reflexivity. Qed.

Example findall_locations :
  Re.findall Re.location "Main Street is near  New York city, Downtown A Bc"
  = ["Main Street"; "New York"; "Downtown"; "Bc"].
Proof. reflexivity. Qed.

Example split_cells_sample :
  Re.split_cells (String "N" (String "009" "x y   z"))
  = ["N"; "x y"; "z"].
Proof. reflexivity. Qed.

Example distance_reads_minutes :
  Re.search (Re.number_unit ["km"; "miles"; "mi"]) "12 min" = Some "12".
Proof. reflexivity. Qed.

Lemma span_length (p : ascii -> bool) (s : string) :
  (String.length (fst (span p s)) + String.length (snd (span p s))
   = String.length s)%nat.
Proof.
  induction s as [|c s IH]; [reflexivity|].
  cbn [span]. destruct (p c); [|reflexivity].
  destruct (span p s) as [a b]. cbn in *. lia.
Qed.

Lemma cap_word_shorter (s w rest : string) :
  Re.cap_word s = Some (w, rest) -> (String.length rest < String.length s)%nat.
Proof.
  destruct s as [|c s]; [discriminate|]. cbn [Re.cap_word].
  destruct (is_AZ c); [|discriminate].
  pose proof (span_length is_az s) as L.
  destruct (span is_az s) as [ls r]. destruct (is_empty ls); [discriminate|].
  intros E. inversion E; subst. cbn in *. lia.
Qed.

(** Fuel beyond the length of the text left changes nothing: the fuel
    [location] gives is never used up. *)
Lemma more_words_fuel (fuel1 fuel2 : nat) :
  forall acc rest,
    (String.length rest <= fuel1)%nat -> (String.length rest <= fuel2)%nat ->
    Re.more_words fuel1 acc rest = Re.more_words fuel2 acc rest.
Proof.
  revert fuel2. induction fuel1 as [|fuel1 IH]; intros fuel2 acc rest L1 L2.
  - destruct rest; [|cbn in L1; lia]. now destruct fuel2.
  - destruct fuel2 as [|fuel2].
    + destruct rest; [reflexivity | cbn in L2; lia].
    + cbn [Re.more_words].
      pose proof (span_length isspace rest) as L.
      destruct (span isspace rest) as [ws r1]. cbn [fst snd] in L.
      destruct (is_empty ws) eqn:W; [reflexivity|].
      destruct (Re.cap_word r1) as [[w' r2]|] eqn:C; [|reflexivity].
      apply cap_word_shorter in C. apply IH; lia.
Qed.

(* ===================================================================== *)
(** ** The screenshot processor *)
(* ===================================================================== *)

Lemma bind_inr (A B : Type) (m : M A) (f : A -> M B) (k k' : nat) (a : A) :
  m k = (inr a, k') -> bind m f k = f a k'.
Proof. unfold bind. now intros ->. Qed.

Lemma bind_inl (A B : Type) (m : M A) (f : A -> M B) (k k' : nat) (e : exn) :
  m k = (inl e, k') -> bind m f k = (inl e, k').
Proof. unfold bind. now intros ->. Qed.

Lemma cvtColor_some (A : Type) (conv : Image -> A) (img : Image) (k : nat) :
  cvtColor conv (Some img) k = (inr (conv img), k).
Proof. reflexivity. Qed.

Lemma image_to_string_some (w : World) (arr : Image + GrayImage)
    (config text : string) (k : nat) :
  tesseract w arr config = inr text ->
  image_to_string w (Some arr) config k = (inr text, k).
Proof. unfold image_to_string, lift. now intros ->. Qed.


Lemma detect_app_range (text : string) :
  detect_app text = "google_maps" \/ detect_app text = "waze"
  \/ detect_app text = "unknown".
Proof.
  unfold detect_app.
  destruct (contains "google maps" (lower text) || contains "maps" (lower text)) eqn:G;
    [now left|].
  destruct (contains "waze" (lower text)); [now right; left|].
  destruct (contains "apple maps" (lower text)) eqn:A; [|now right; right].
  apply apple_maps_has_maps in A.
  apply orb_false_elim in G. destruct G as [_ G]. congruence.
Qed.

Lemma screenshot_returns (w : World) (image_path : string) (k k' : nat) (r : Result) :
  _process_screenshot w image_path k = (inr r, k') ->
  exists img text,
    imread w image_path = Some img /\
    tesseract w (inl img) "--psm 6" = inr text /\
    k' = k /\
    r = {| r_type := Some "screenshot";
           r_data := Some (ScreenshotData (detect_app text)
                             (_extract_traffic_info text) (now_isoformat w));
           r_extracted_count := None;
           r_error := None; r_app_detected := Some (detect_app text);
           r_columns := None; r_rows := None; r_text := None;
           r_numbers := None |}.
Proof.
  unfold _process_screenshot.
  destruct (imread w image_path) as [img|]; step_monad;
    [|intros E; discriminate E].
  destruct (tesseract w (inl img) "--psm 6") as [e|text] eqn:T; red_monad;
    [intros E; discriminate E|].
  intros E. inversion E; subst. now exists img, text.
Qed.

(** C10: whatever the recognised text, the screenshot processor never
    reports the application [apple_maps]: a text with "apple maps" in it has
    "maps" in it, which the first test of the chain accepts as
    [google_maps]; the application is one of [google_maps], [waze] and
    [unknown]. *)
Theorem screenshot_never_apple_maps
    (w : World) (image_path : string) (k k' : nat) (r : Result) :
  _process_screenshot w image_path k = (inr r, k') ->
  exists text app info ts,
    r_data r = Some (ScreenshotData app info ts) /\
    r_app_detected r = Some app /\
    app = detect_app text /\
    app <> "apple_maps" /\
    (app = "google_maps" \/ app = "waze" \/ app = "unknown") /\
    (contains "apple maps" (lower text) = true ->
     contains "maps" (lower text) = true /\ app = "google_maps").
Proof.
  intros H. apply screenshot_returns in H.
  destruct H as [img [text [_ [_ [_ ->]]]]].
  exists text, (detect_app text), (_extract_traffic_info text), (now_isoformat w).
  cbn [r_data r_app_detected].
  repeat split.
  - destruct (detect_app_range text) as [E|[E|E]]; rewrite E; discriminate.
  - apply detect_app_range.
  - now apply apple_maps_has_maps.
  - unfold detect_app. apply apple_maps_has_maps in H. rewrite H.
    now rewrite orb_true_r.
Qed.

Lemma screenshot_never_apple_maps_witness :
  exists r,
    _process_screenshot (sample_world "Apple Maps 12 min" []) "shot.png" 0
    = (inr r, 0%nat)
    /\ r_app_detected r <> Some "apple_maps".
Proof.
  eexists. split; [reflexivity|].
  destruct (@screenshot_never_apple_maps
              (sample_world "Apple Maps 12 min" []) "shot.png" 0 0 _ eq_refl)
    as [text [app [info [ts [_ [A [_ [N _]]]]]]]].
  rewrite A. congruence.
Defined.

(* ===================================================================== *)
(** ** The classifier *)
(* ===================================================================== *)

Lemma detect_image_type_returns
    (w : World) (image_path : string) (img : Image) (ocr : string) (k : nat) :
  imread w image_path = Some img ->
  tesseract w (inr (BGR2GRAY w img)) "" = inr ocr ->
  _detect_image_type w image_path k
  = (inr (classify_spec (lower ocr) (_detect_table_structure w (BGR2GRAY w img))), k).
Proof.
  intros I T. unfold _detect_image_type. rewrite I. step_monad. rewrite T. red_monad.
  unfold classify_spec.
  change ["speed"; "km/h"; "mph"; "traffic"; "congestion"] with traffic_keywords.
  change ["map"; "route"; "navigation"; "street"] with map_keywords.
  change ["chart"; "graph"; "data"; "time"] with chart_keywords.
  change ["camera"; "live"; "current"] with live_keywords.
  destruct (any_in traffic_keywords (lower ocr)); cbn [andb].
  - destruct (any_in map_keywords (lower ocr)); [reflexivity|].
    destruct (any_in chart_keywords (lower ocr)); [reflexivity|].
    destruct (any_in live_keywords (lower ocr)); [reflexivity|].
    now destruct (_detect_table_structure w (BGR2GRAY w img)).
  - now destruct (_detect_table_structure w (BGR2GRAY w img)).
Qed.

(** C3: with the hint [auto] the kind is a function of the lower-cased
    recognised text and of the table-structure signal alone, decided first
    match first: a traffic keyword with a map keyword gives [traffic_map],
    else with a chart keyword [chart], else with a live or camera keyword
    [screenshot]; [table] is returned exactly when none of these branches
    fired and a table structure is detected; otherwise the kind is [chart].
    The text "speed 45 km/h traffic map downtown" is a [traffic_map]. *)
Theorem detect_image_type_first_match
    (w : World) (image_path : string) (img : Image) (ocr : string) (k : nat) :
  imread w image_path = Some img ->
  tesseract w (inr (BGR2GRAY w img)) "" = inr ocr ->
  let text := lower ocr in
  let table := _detect_table_structure w (BGR2GRAY w img) in
  let traffic := any_in traffic_keywords text in
  let on_map := any_in map_keywords text in
  let on_chart := any_in chart_keywords text in
  let live := any_in live_keywords text in
  exists kind,
    _detect_image_type w image_path k = (inr kind, k) /\
    kind = classify_spec text table /\
    (traffic = true -> on_map = true -> kind = "traffic_map") /\
    (traffic = true -> on_map = false -> on_chart = true -> kind = "chart") /\
    (traffic = true -> on_map = false -> on_chart = false -> live = true ->
     kind = "screenshot") /\
    (kind = "table" <->
     table = true /\ (traffic && (on_map || on_chart || live)) = false) /\
    (table = false -> (traffic && (on_map || on_chart || live)) = false ->
     kind = "chart") /\
    (text = "speed 45 km/h traffic map downtown" -> kind = "traffic_map").
Proof.
  intros I T text table traffic on_map on_chart live.
  exists (classify_spec text table).
  split; [now apply detect_image_type_returns|].
  split; [reflexivity|].
  unfold classify_spec.
  fold traffic on_map on_chart live.
  split; [intros -> ->; reflexivity|].
  split; [intros -> -> ->; reflexivity|].
  split; [intros -> -> -> ->; reflexivity|].
  split; [|split].
  - split.
    + destruct traffic, on_map, on_chart, live, table; cbn;
        intros E; try discriminate E; now split.
    + intros [-> E].
      destruct traffic, on_map, on_chart, live; cbn in *; congruence.
  - intros -> E.
    destruct traffic, on_map, on_chart, live; cbn in *; congruence.
  - intros E. subst traffic on_map. rewrite E. reflexivity.
Qed.

Lemma detect_image_type_first_match_witness :
  _detect_image_type
    (sample_world "Speed 45 km/h Traffic Map Downtown" [[(0, 0, 255)%Z]])
    "photo.png" 0
  = (inr "traffic_map", 0%nat).
Proof.
  destruct (@detect_image_type_first_match
              (sample_world "Speed 45 km/h Traffic Map Downtown" [[(0, 0, 255)%Z]])
              "photo.png" [[(0, 0, 255)%Z]] "Speed 45 km/h Traffic Map Downtown" 0
              eq_refl eq_refl)
    as [kind [R [_ [_ [_ [_ [_ [_ E]]]]]]]].
  rewrite R, (E eq_refl). reflexivity.
Defined.

(* ===================================================================== *)
(** ** The colour segmenter *)
(* ===================================================================== *)

Lemma countNonZero_inRange (lo hi : pixel) (hsv : Image) :
  countNonZero (inRange hsv lo hi) = band_count lo hi hsv.
Proof.
  unfold countNonZero, inRange, band_count.
  induction hsv as [|row hsv IH]; [reflexivity|].
  cbn [map list_sum concat fold_right]. rewrite filter_app, length_app.
  change (fold_right Nat.add 0%nat ?l) with (list_sum l). rewrite IH. f_equal.
  clear. induction row as [|px row IH]; [reflexivity|].
  cbn [map filter]. destruct (in_bounds lo hi px); cbn; now rewrite IH.
Qed.

Lemma band_count_uniform (lo hi px : pixel) (hsv : Image) :
  uniform px hsv ->
  band_count lo hi hsv = if in_bounds lo hi px then pixels hsv else 0%nat.
Proof.
  unfold uniform, band_count, pixels. intros U.
  induction U as [|row hsv R _ IH]; [now destruct (in_bounds lo hi px)|].
  cbn [concat]. rewrite filter_app, !length_app, IH.
  assert (length (filter (in_bounds lo hi) row)
          = if in_bounds lo hi px then length row else 0%nat) as ->.
  { clear -R. induction R as [|q row -> _ IH]; [now destruct (in_bounds lo hi px)|].
    cbn [filter length]. destruct (in_bounds lo hi px); cbn; now rewrite IH. }
  now destruct (in_bounds lo hi px).
Qed.

Lemma detect_traffic_colors_returns (w : World) (image : Image) (k : nat) :
  _detect_traffic_colors w (Some image) k
  = (inr (concat (repeat
       (dominant_condition (green_count (BGR2HSV w image))
          (yellow_count (BGR2HSV w image)) (red_count (BGR2HSV w image))) 5)), k).
Proof.
  unfold _detect_traffic_colors, hsv_conditions. step_monad.
  now rewrite !countNonZero_inRange.
Qed.

Lemma dominant_condition_single (g y r : nat) :
  exists label,
    dominant_condition g y r = [label] /\
    ((g < r)%nat -> (y < r)%nat -> label = "Congested") /\
    (~ ((g < r)%nat /\ (y < r)%nat) -> (g < y)%nat -> label = "Moderate") /\
    (~ ((g < r)%nat /\ (y < r)%nat) -> ~ (g < y)%nat -> label = "Good").
Proof.
  unfold dominant_condition.
  destruct (g <? r)%nat eqn:GR; destruct (y <? r)%nat eqn:YR;
    destruct (g <? y)%nat eqn:GY; cbn [andb];
    rewrite ?Nat.ltb_lt, ?Nat.ltb_ge in *;
    eexists; (split; [reflexivity|]); repeat split; intros; try reflexivity; lia.
Qed.

(** C5 (as amended): the segmenter returns one label five times over:
    [Congested] when the red band holds more pixels than the green and than
    the yellow band, else [Moderate] when the yellow band holds more than
    the green, else [Good].  A tie in which the green band takes part in
    the largest count gives [Good].  A raster of saturated pure red (hue 0)
    gives [Congested], of pure green (hue 60) [Good], of pure yellow
    (hue 30) [Moderate]. *)
Theorem detect_traffic_colors_dominant (w : World) (image : Image) (k : nat) :
  let hsv := BGR2HSV w image in
  let green := green_count hsv in
  let yellow := yellow_count hsv in
  let red := red_count hsv in
  exists label,
    _detect_traffic_colors w (Some image) k = (inr (repeat label 5), k) /\
    length (repeat label 5) = 5%nat /\
    ((green < red)%nat -> (yellow < red)%nat -> label = "Congested") /\
    (~ ((green < red)%nat /\ (yellow < red)%nat) -> (green < yellow)%nat ->
     label = "Moderate") /\
    (~ ((green < red)%nat /\ (yellow < red)%nat) -> ~ (green < yellow)%nat ->
     label = "Good") /\
    ((red <= green)%nat -> (yellow <= green)%nat -> label = "Good") /\
    ((0 < pixels hsv)%nat -> uniform (0, 255, 255)%Z hsv -> label = "Congested") /\
    (uniform (60, 255, 255)%Z hsv -> label = "Good") /\
    ((0 < pixels hsv)%nat -> uniform (30, 255, 255)%Z hsv -> label = "Moderate").
Proof.
  intros hsv green yellow red.
  destruct (dominant_condition_single green yellow red) as [label [D [C [Mo G]]]].
  exists label.
  split.
  { rewrite detect_traffic_colors_returns. fold hsv green yellow red.
    rewrite D. reflexivity. }
  split; [reflexivity|].
  split; [exact C|]. split; [exact Mo|]. split; [exact G|].
  split; [intros; apply G; lia|].
  split; [|split].
  - intros P U. apply C; subst green yellow red;
      unfold green_count, yellow_count, red_count;
      rewrite !(band_count_uniform _ _ U); cbn; exact P.
  - intros U. apply G; subst green yellow red;
      unfold green_count, yellow_count, red_count;
      rewrite !(band_count_uniform _ _ U); cbn; lia.
  - intros P U. apply Mo; subst green yellow red;
      unfold green_count, yellow_count, red_count;
      rewrite !(band_count_uniform _ _ U); cbn; lia.
Qed.

Lemma detect_traffic_colors_dominant_witness :
  _detect_traffic_colors (sample_world "" []) (Some [[(30, 255, 255)%Z]]) 0
  = (inr ["Moderate"; "Moderate"; "Moderate"; "Moderate"; "Moderate"], 0%nat).
Proof.
  destruct (@detect_traffic_colors_dominant (sample_world "" []) [[(30, 255, 255)%Z]] 0)
    as [label [R [_ [_ [_ [_ [_ [_ [_ Y]]]]]]]]].
  rewrite Y in R.
  - exact R.
  - cbn. lia.
  - repeat constructor.
Defined.

(** C5, the claim as it stands: were every tie for the dominant band
    settled in favour of [Good], a raster of one red and one yellow pixel
    would be [Good]; the segmenter labels it [Moderate]. *)
Lemma red_yellow_tie_is_moderate :
  ~ (forall (w : World) (image : Image) (k : nat),
       let hsv := BGR2HSV w image in
       tied_for_dominant (green_count hsv) (yellow_count hsv) (red_count hsv) = true ->
       _detect_traffic_colors w (Some image) k = (inr (repeat "Good" 5), k)).
Proof.
  intros H.
  specialize (H (sample_world "" []) [[(0, 255, 255)%Z; (30, 255, 255)%Z]] 0%nat eq_refl).
  vm_compute in H. discriminate H.
Qed.

(* ===================================================================== *)
(** ** The chart processor *)
(* ===================================================================== *)

Lemma detect_chart_type_returns (w : World) (img : Image) (k : nat) :
  exists chart_type, _detect_chart_type w (Some img) k = (inr chart_type, k).
Proof.
  unfold _detect_chart_type. step_monad.
  destruct (HoughCircles w (BGR2GRAY w img)); [now eexists|].
  match goal with |- context [if ?b then _ else _] => destruct b end; now eexists.
Qed.

Lemma hour_labels (n i : nat) :
  (i < n)%nat ->
  nth i (map (fun i => ("Hour " ++ str_of_nat i)%string) (seq 0 n)) ""
  = ("Hour " ++ str_of_nat i)%string.
Proof.
  intros L.
  rewrite (nth_indep _ "" (("Hour " ++ str_of_nat 0)%string))
    by now rewrite length_map, length_seq.
  rewrite (map_nth (fun i => ("Hour " ++ str_of_nat i)%string)).
  now rewrite seq_nth.
Qed.

(** C8: the chart processor keeps the first 24 numeric tokens of the text
    when there are more than 24 and all of them, in order, when there are
    24 or fewer; its labels "Hour 0", "Hour 1", ... are as many as its
    values. *)
Theorem chart_series_truncated
    (w : World) (image_path : string) (img : Image) (text : string) (k : nat) :
  imread w image_path = Some img ->
  tesseract w (inl img) "--psm 6" = inr text ->
  let tokens := Re.findall Re.number text in
  exists r values labels chart_type ts,
    _process_chart w image_path k = (inr r, k) /\
    r_data r = Some (ChartData values labels chart_type ts) /\
    values = map float (firstn 24 tokens) /\
    ((24 < length tokens)%nat -> length values = 24%nat) /\
    ((length tokens <= 24)%nat -> values = map float tokens) /\
    length labels = length values /\
    (forall i, (i < length values)%nat ->
               nth i labels "" = ("Hour " ++ str_of_nat i)%string).
Proof.
  intros I T tokens.
  destruct (detect_chart_type_returns w img k) as [chart_type C].
  unfold _process_chart. rewrite I. cbn [option_map].
  erewrite bind_inr by apply cvtColor_some.
  erewrite bind_inr by (apply image_to_string_some; exact T).
  cbv zeta. erewrite bind_inr by exact C. unfold ret. fold tokens.
  do 5 eexists.
  split; [reflexivity|]. cbn [r_data].
  split; [reflexivity|].
  split; [now rewrite firstn_map|].
  split; [intros L; rewrite length_firstn, length_map; lia|].
  split; [intros L; rewrite firstn_all2; [reflexivity | now rewrite length_map]|].
  split; [now rewrite length_map, length_seq|].
  intros i L. now apply hour_labels.
Qed.

Lemma chart_series_truncated_witness :
  exists r,
    _process_chart (sample_world "7 8.5 9" []) "chart.png" 0 = (inr r, 0%nat)
    /\ r_data r = Some (ChartData [float "7"; float "8.5"; float "9"]
                          ["Hour 0"; "Hour 1"; "Hour 2"] "line_chart"
                          "2024-05-01T12:00:00").
Proof.
  destruct (@chart_series_truncated (sample_world "7 8.5 9" []) "chart.png" []
              "7 8.5 9" 0 eq_refl eq_refl)
    as [r [values [labels [chart_type [ts [R _]]]]]].
  exists r. split; [exact R|].
  vm_compute in R. inversion R. reflexivity.
Defined.

(* ===================================================================== *)
(** ** The traffic-map processor *)
(* ===================================================================== *)

Lemma randint_range (w : World) (low high : Z) (k : nat) :
  (low < high)%Z ->
  exists v, randint w low high k = (inr v, S k) /\ (low <= v < high)%Z.
Proof.
  intros L. unfold randint. eexists. split; [reflexivity|].
  pose proof (Z.mod_pos_bound (rand_raw w k) (high - low)). lia.
Qed.

(** What one run of the loop appends to the three lists. *)
Lemma combine_extracted_spec (w : World) (speeds conds : list string) :
  forall (locations : list string) (i : nat)
         (ls : list string) (ss : list Z) (cs : list string) (k : nat),
  exists (ss' : list Z) (cs' : list string) (k' : nat),
    combine_extracted w speeds conds i locations (ls, ss, cs) k
    = (inr (ls ++ locations, ss ++ ss', cs ++ cs'), k') /\
    length ss' = length locations /\
    length cs' = length locations /\
    forall j, (j < length locations)%nat ->
      ((i + j < length speeds)%nat ->
       nth j ss' 0%Z = int (nth (i + j) speeds "")) /\
      ((length speeds <= i + j)%nat -> (20 <= nth j ss' 0 < 60)%Z) /\
      ((i + j < length conds)%nat -> nth j cs' "" = nth (i + j) conds "") /\
      ((length conds <= i + j)%nat -> nth j cs' "" = "Moderate").
Proof.
  induction locations as [|location rest IH]; intros i ls ss cs k.
  - exists [], [], k. cbn. rewrite !app_nil_r.
    repeat split; intros; lia.
  - cbn [combine_extracted].
    set (condition := if (i <? length conds)%nat then nth i conds "" else "Moderate").
    assert (exists speed k1,
      (if (i <? length speeds)%nat then ret (int (nth i speeds ""))
       else randint w 20 60) k = (inr speed, k1) /\
      ((i < length speeds)%nat -> speed = int (nth i speeds "")) /\
      ((length speeds <= i)%nat -> (20 <= speed < 60)%Z)) as [speed [k1 [S1 [S2 S3]]]].
    { destruct (i <? length speeds)%nat eqn:E.
      - apply Nat.ltb_lt in E. exists (int (nth i speeds "")), k.
        split; [reflexivity|]. split; intros; [reflexivity | lia].
      - apply Nat.ltb_ge in E.
        destruct (@randint_range w 20 60 k) as [v [R B]]; [lia|].
        exists v, (S k). split; [exact R|]. split; intros; lia. }
    erewrite bind_inr by exact S1.
    destruct (IH (S i) (ls ++ [location]) (ss ++ [speed]) (cs ++ [condition]) k1)
      as [ss' [cs' [k' [R [Ls [Lc P]]]]]].
    exists (speed :: ss'), (condition :: cs'), k'.
    split.
    { rewrite R. now rewrite <- !app_assoc. }
    split; [cbn; now rewrite Ls|].
    split; [cbn; now rewrite Lc|].
    intros [|j] Lj.
    + rewrite Nat.add_0_r. cbn [nth]. subst condition.
      split; [exact S2|]. split; [exact S3|].
      split; intros Hc.
      * apply Nat.ltb_lt in Hc. now rewrite Hc.
      * apply Nat.ltb_ge in Hc. now rewrite Hc.
    + cbn [nth]. cbn [length] in Lj.
      replace (i + S j)%nat with (S i + j)%nat by lia.
      apply P. lia.
Qed.

Lemma firstn_nth (A : Type) (n i : nat) (l : list A) (d : A) :
  (i < n)%nat -> nth i (firstn n l) d = nth i l d.
Proof.
  revert i l. induction n as [|n IH]; intros i l L; [lia|].
  destruct l as [|x l]; [reflexivity|].
  destruct i as [|i]; [reflexivity|]. cbn. apply IH. lia.
Qed.

(** C6: for every index below the smaller of 5 and the number of
    locations found, the traffic-map processor pairs the location with the
    speed of the same index when one was found and with a draw of [20, 60)
    otherwise, and with the condition of the same index when the segmenter
    gave one and with "Moderate" otherwise.  The three sequences are
    equally long and [extracted_count] is that length, 5 at most. *)
Theorem traffic_map_pairs
    (w : World) (image_path : string) (img : Image) (text : string) (k : nat) :
  imread w image_path = Some img ->
  tesseract w (inl img) "--psm 6" = inr text ->
  let locations := Re.findall Re.location text in
  let speeds := Re.findall (Re.int_unit ["km/h"; "mph"; "kph"]) text in
  let conditions := hsv_conditions (BGR2HSV w img) in
  let n := Nat.min 5 (length locations) in
  exists r k' ls ss cs ts,
    _process_traffic_map w image_path k = (inr r, k') /\
    r_type r = Some "traffic_map" /\
    r_data r = Some (TrafficData ls ss cs ts) /\
    length ls = n /\ length ss = n /\ length cs = n /\
    r_extracted_count r = Some n /\ (n <= 5)%nat /\
    forall i, (i < n)%nat ->
      nth i ls "" = nth i locations "" /\
      ((i < length speeds)%nat -> nth i ss 0%Z = int (nth i speeds "")) /\
      ((length speeds <= i)%nat -> (20 <= nth i ss 0 < 60)%Z) /\
      ((i < length conditions)%nat -> nth i cs "" = nth i conditions "") /\
      ((length conditions <= i)%nat -> nth i cs "" = "Moderate").
Proof.
  intros I T locations speeds conditions n.
  destruct (combine_extracted_spec w speeds conditions (firstn 5 locations)
              0 [] [] [] k) as [ss [cs [k' [R [Ls [Lc P]]]]]].
  assert (length (firstn 5 locations) = n) as Ln by apply length_firstn.
  unfold _process_traffic_map. rewrite I. cbn [option_map].
  erewrite bind_inr by apply cvtColor_some.
  erewrite bind_inr by (apply image_to_string_some; exact T).
  cbv zeta.
  erewrite bind_inr by (unfold _detect_traffic_colors;
                        erewrite bind_inr by apply cvtColor_some; reflexivity).
  fold locations speeds conditions.
  erewrite bind_inr by exact R. unfold ret. cbn [app].
  exists {| r_type := Some "traffic_map";
            r_data := Some (TrafficData (firstn 5 locations) ss cs (now_isoformat w));
            r_extracted_count := Some (length (firstn 5 locations));
            r_error := None; r_app_detected := None; r_columns := None;
            r_rows := None; r_text := None; r_numbers := None |},
    k', (firstn 5 locations), ss, cs, (now_isoformat w).
  cbn [r_type r_data r_extracted_count].
  split; [reflexivity|]. split; [reflexivity|]. split; [reflexivity|].
  split; [exact Ln|]. split; [congruence|]. split; [congruence|].
  split; [now rewrite Ln|]. split; [lia|].
  intros i Li.
  split; [apply firstn_nth; lia|].
  apply (P i). lia.
Qed.

Lemma traffic_map_pairs_witness :
  exists r k',
    _process_traffic_map
      (sample_world "Main Street 45 km/h, Oak Road, Elm Lane 30mph" [[(0, 255, 255)%Z]])
      "map.png" 0 = (inr r, k')
    /\ r_extracted_count r = Some 3%nat.
Proof.
  destruct (@traffic_map_pairs
              (sample_world "Main Street 45 km/h, Oak Road, Elm Lane 30mph"
                 [[(0, 255, 255)%Z]])
              "map.png" [[(0, 255, 255)%Z]]
              "Main Street 45 km/h, Oak Road, Elm Lane 30mph" 0 eq_refl eq_refl)
    as [r [k' [ls [ss [cs [ts [R [_ [_ [_ [_ [_ [C _]]]]]]]]]]]]].
  exists r, k'. split; [exact R | exact C].
Defined.

(* ===================================================================== *)
(** ** The table processor *)
(* ===================================================================== *)

Lemma parse_table_filter (text : string) :
  parse_table text
  = filter (fun cells => (1 <? length cells)%nat)
      (map (fun line => Re.split_cells (strip line))
         (filter (fun line => truthy (strip line)) (split "010" (strip text)))).
Proof.
  unfold parse_table.
  induction (split "010" (strip text)) as [|line lines IH]; [reflexivity|].
  cbn [flat_map filter].
  destruct (truthy (strip line)); cbn [map filter app].
  - destruct (1 <? length (Re.split_cells (strip line)))%nat; cbn [app]; now rewrite IH.
  - exact IH.
Qed.

Lemma split_cells_head (c : ascii) (s : string) :
  exists h t, Re.split_cells_from 0 (String c s) = h :: t
              /\ (h = EmptyString \/ exists h', h = String c h').
Proof.
  cbn [Re.split_cells_from].
  destruct (2 <=? _)%nat; [eexists _, _; split; [reflexivity | now left]|].
  destruct (Ascii.eqb c "009"); [eexists _, _; split; [reflexivity | now left]|].
  destruct (Re.split_cells_from 0 s) as [|h t]; cbn [cons_head];
    eexists _, _; (split; [reflexivity | right; now eexists]).
Qed.

Lemma span_run_one (c : ascii) (s : string) :
  (2 <=? String.length (fst (span isspace (String c s))))%nat = false ->
  isspace c = true -> starts_with_space s = false.
Proof.
  intros R SP. cbn [span] in R. rewrite SP in R.
  destruct s as [|d s]; [reflexivity|]. cbn [starts_with_space].
  destruct (isspace d) eqn:D; [|reflexivity].
  cbn [span] in R. rewrite D in R.
  destruct (span isspace s). cbn in R. discriminate R.
Qed.

Lemma split_cells_separator_free (s : string) :
  forall skip,
    Forall (fun cell => separator_free cell = true) (Re.split_cells_from skip s).
Proof.
  induction s as [|c s IH]; intros skip.
  - cbn. now constructor.
  - destruct skip as [|skip]; [|apply IH].
    cbn [Re.split_cells_from].
    destruct (2 <=? _)%nat eqn:R; [constructor; [reflexivity | apply IH]|].
    destruct (Ascii.eqb c "009") eqn:TAB; [constructor; [reflexivity | apply IH]|].
    specialize (IH 0%nat).
    destruct s as [|d s].
    + cbn. constructor; [|constructor]. cbn. rewrite TAB.
      now rewrite andb_false_r.
    + destruct (split_cells_head d s) as [h [t [E Hh]]].
      rewrite E in *. cbn [cons_head]. inversion IH as [|? ? Hc Ht]; subst.
      constructor; [|exact Ht].
      cbn [separator_free]. rewrite TAB, Hc. cbn [negb andb].
      rewrite andb_true_r. apply negb_true_iff.
      destruct (isspace c) eqn:SP; [|reflexivity]. cbn [andb].
      pose proof (span_run_one _ _ R SP) as N. cbn [starts_with_space] in N.
      destruct Hh as [->|[h' ->]]; [reflexivity | exact N].
Qed.

Lemma dict_set_fresh (V : Type) (k : string) (v : V) (d : dict V) :
  ~ In k (map fst d) -> dict_set k v d = (d ++ [(k, v)])%list.
Proof.
  induction d as [|[k' v'] d IH]; intros N; [reflexivity|].
  cbn [dict_set]. destruct (String.eqb_spec k k') as [->|_].
  - exfalso. apply N. now left.
  - cbn. rewrite IH; [reflexivity|]. intros H. apply N. now right.
Qed.

Lemma dict_of_distinct (V : Type) (pairs : list (string * V)) :
  NoDup (map fst pairs) -> dict_of pairs = pairs.
Proof.
  unfold dict_of.
  assert (forall d, NoDup (map fst (d ++ pairs)) ->
            fold_left (fun d kv => dict_set (fst kv) (snd kv) d) pairs d
            = (d ++ pairs)%list) as G.
  { induction pairs as [|[k v] pairs IH]; intros d N; cbn [fold_left].
    - now rewrite app_nil_r.
    - cbn [fst snd]. rewrite dict_set_fresh.
      + rewrite IH; rewrite <- app_assoc; [reflexivity | exact N].
      + rewrite map_app in N. cbn in N. apply NoDup_remove_2 in N.
        intros H. apply N. apply in_or_app. now left. }
  intros N. now apply (G []).
Qed.

Lemma combine_keys (A B : Type) (ks : list A) (vs : list B) :
  length vs = length ks -> map fst (combine ks vs) = ks.
Proof.
  revert vs. induction ks as [|k ks IH]; intros [|v vs] L; try discriminate L;
    [reflexivity|].
  cbn. f_equal. apply IH. now inversion L.
Qed.

Lemma list_max_all (n : nat) (l : list nat) :
  l <> [] -> Forall (fun m => m = n) l -> list_max l = n.
Proof.
  intros NE F. destruct l as [|m l]; [congruence|].
  inversion F as [|? ? E F']; subst. clear NE F.
  cbn. induction F' as [|m' l' E _ IH]; cbn in *; lia.
Qed.

Lemma table_result_regular (text : string) (k : nat)
    (header : list string) (rows : list (list string)) :
  parse_table text = header :: rows ->
  rows <> [] ->
  Forall (fun row => length row = length header) rows ->
  NoDup header ->
  table_result text k = (inr (table_of header rows), k).
Proof.
  intros P NE F N. unfold table_result. rewrite P.
  destruct rows as [|row rows']; [congruence|]. clear NE.
  cbn [length Nat.ltb Nat.leb skipn nth]. cbv zeta.
  set (rows := row :: rows') in *.
  assert (pd_DataFrame rows header
          = inr (MkDataFrame header (map (map Some) rows))) as D.
  { unfold pd_DataFrame.
    rewrite (@list_max_all (length header)).
    - rewrite Nat.eqb_refl. do 2 f_equal.
      apply map_ext_in. intros r Hr. unfold pad_row.
      rewrite Forall_forall in F. rewrite (F r Hr), Nat.sub_diag.
      apply app_nil_r.
    - subst rows. discriminate.
    - apply Forall_map. exact F. }
  erewrite bind_inr by (unfold lift; rewrite D; reflexivity).
  unfold ret, table_of, to_dict_records. cbn [df_columns df_values].
  rewrite !length_map, map_map.
  rewrite (map_ext_in (fun x => dict_of (combine header (map Some x)))
             (fun row => combine header (map Some row))); [reflexivity|].
  intros r Hr. apply dict_of_distinct.
  rewrite combine_keys; [exact N|].
  rewrite Forall_forall in F. now rewrite length_map, (F r Hr).
Qed.

Lemma table_result_short (text : string) (k : nat) :
  (length (parse_table text) < 2)%nat ->
  table_result text k = (inr no_table, k).
Proof.
  intros L. unfold table_result.
  destruct (1 <? length (parse_table text))%nat eqn:E; [|reflexivity].
  apply Nat.ltb_lt in E. lia.
Qed.

Lemma span_app (p : ascii -> bool) (a rest : string) :
  all_chars p a = true ->
  (forall c r, rest = String c r -> p c = false) ->
  span p (a ++ rest) = (a, rest).
Proof.
  intros A R. induction a as [|c a IH]; cbn [append].
  - destruct rest as [|c r]; [reflexivity|]. cbn [span].
    now rewrite (R c r eq_refl).
  - cbn [all_chars] in A. apply andb_true_iff in A. destruct A as [Pc A].
    cbn [span]. now rewrite Pc, (IH A).
Qed.

Lemma lstrip_spaces (lead s : string) :
  all_chars isspace lead = true -> lstrip (lead ++ s) = lstrip s.
Proof.
  induction lead as [|c lead IH]; [reflexivity|].
  cbn [all_chars append lstrip]. intros A. apply andb_true_iff in A.
  destruct A as [-> A]. now apply IH.
Qed.

Lemma lstrip_stays (s : string) : nonspace_at 0 s = true -> lstrip s = s.
Proof.
  destruct s as [|c s]; [reflexivity|]. cbn [nonspace_at lstrip].
  intros A. apply negb_true_iff in A. now rewrite A.
Qed.

Lemma lstrip_blank (s : string) : all_chars isspace s = true -> lstrip s = EmptyString.
Proof.
  induction s as [|c s IH]; [reflexivity|].
  cbn [all_chars lstrip]. intros A. apply andb_true_iff in A.
  destruct A as [-> A]. now apply IH.
Qed.

Lemma rstrip_blank (s : string) : all_chars isspace s = true -> rstrip s = EmptyString.
Proof.
  induction s as [|c s IH]; [reflexivity|].
  cbn [all_chars rstrip]. intros A. apply andb_true_iff in A.
  destruct A as [-> A]. now rewrite (IH A).
Qed.

Lemma rstrip_core (core trail : string) :
  last_char (fun x => negb (isspace x)) core = true ->
  all_chars isspace trail = true ->
  rstrip (core ++ trail) = core.
Proof.
  intros L A. induction core as [|c core IH]; [discriminate L|].
  cbn [append rstrip]. destruct core as [|d core].
  - cbn [append]. rewrite (rstrip_blank _ A). cbn [is_empty].
    cbn in L. apply negb_true_iff in L. now rewrite L.
  - rewrite (IH L). cbn [is_empty]. now rewrite andb_false_r.
Qed.

Lemma strip_core (lead core trail : string) :
  all_chars isspace lead = true ->
  all_chars isspace trail = true ->
  core = EmptyString \/
  (nonspace_at 0 core = true /\ last_char (fun x => negb (isspace x)) core = true) ->
  strip (lead ++ core ++ trail) = core.
Proof.
  intros Al At C. unfold strip. rewrite (lstrip_spaces _ _ Al).
  destruct C as [->|[H L]].
  - cbn [append]. now rewrite (lstrip_blank _ At).
  - rewrite lstrip_stays; [now apply rstrip_core|].
    destruct core; [discriminate H | exact H].
Qed.

Lemma truthy_strip (line : string) :
  truthy (strip line) = negb (all_chars isspace line).
Proof.
  unfold strip, truthy. induction line as [|c line IH]; [reflexivity|].
  cbn [lstrip all_chars]. destruct (isspace c) eqn:SP; [exact IH|].
  cbn [rstrip andb negb]. now rewrite SP.
Qed.

Lemma split_line (l : string) :
  all_chars (fun c => negb (Ascii.eqb c "010")) l = true -> split "010" l = [l].
Proof.
  induction l as [|c l IH]; [reflexivity|].
  cbn [all_chars split]. intros A. apply andb_true_iff in A. destruct A as [N A].
  apply negb_true_iff in N. now rewrite N, (IH A).
Qed.

Lemma split_line_app (l rest : string) :
  all_chars (fun c => negb (Ascii.eqb c "010")) l = true ->
  split "010" (l ++ String "010" rest) = l :: split "010" rest.
Proof.
  induction l as [|c l IH]; [reflexivity|].
  cbn [all_chars append split]. intros A. apply andb_true_iff in A.
  destruct A as [N A]. apply negb_true_iff in N. now rewrite N, (IH A).
Qed.

Lemma split_unlines (lines : list string) :
  lines <> [] ->
  Forall (fun l => all_chars (fun c => negb (Ascii.eqb c "010")) l = true) lines ->
  split "010" (unlines lines) = lines.
Proof.
  intros NE F. induction F as [|l lines A F IH]; [congruence|].
  destruct lines as [|l' lines].
  - cbn. now apply split_line.
  - change (unlines (l :: l' :: lines))
      with (l ++ String "010" (unlines (l' :: lines)))%string.
    rewrite (split_line_app _ _ A). f_equal. apply IH. discriminate.
Qed.

Lemma split_cells_whole (s : string) :
  separator_free s = true -> Re.split_cells s = [s].
Proof.
  unfold Re.split_cells. induction s as [|c s IH]; [reflexivity|].
  cbn [separator_free]. rewrite !andb_true_iff, !negb_true_iff.
  intros [[TAB SP] F]. cbn [Re.split_cells_from].
  assert ((2 <=? String.length (fst (span isspace (String c s))))%nat = false) as ->.
  { cbn [span]. destruct (isspace c); [|reflexivity].
    cbn [andb] in SP. destruct s as [|d s]; [reflexivity|].
    cbn [starts_with_space] in SP. cbn [span]. now rewrite SP. }
  now rewrite TAB, (IH F).
Qed.

Lemma split_cells_skip (x b : string) :
  Re.split_cells_from (String.length x) (x ++ b) = Re.split_cells_from 0 b.
Proof.
  induction x as [|c x IH]; [reflexivity|].
  cbn [String.length append Re.split_cells_from]. exact IH.
Qed.

Lemma split_cells_cut (a ws b : string) :
  separator_free a = true ->
  a = EmptyString \/ last_char (fun x => negb (isspace x)) a = true ->
  all_chars isspace ws = true ->
  (2 <= String.length ws)%nat \/ ws = String "009" EmptyString ->
  b = EmptyString \/ nonspace_at 0 b = true ->
  Re.split_cells (a ++ ws ++ b) = a :: Re.split_cells b.
Proof.
  intros F L W S B. unfold Re.split_cells.
  assert (span isspace (ws ++ b) = (ws, b)) as SPAN.
  { apply span_app; [exact W|]. intros c r E.
    destruct B as [->|B]; [discriminate E|]. subst b.
    cbn in B. now apply negb_true_iff in B. }
  induction a as [|c a IH].
  - cbn [append]. destruct ws as [|c ws'].
    { destruct S as [S|S]; [cbn in S; lia | discriminate S]. }
    cbn [append Re.split_cells_from].
    change (String c (ws' ++ b)) with (String c ws' ++ b)%string.
    rewrite SPAN. cbn [fst String.length].
    destruct ws' as [|d ws''].
    + destruct S as [S|S]; [cbn in S; lia|]. inversion S; subst.
      reflexivity.
    + cbn [String.length Nat.leb Nat.sub]. rewrite ?Nat.sub_0_r.
      f_equal. exact (split_cells_skip (String d ws'') b).
  - cbn [separator_free] in F. rewrite !andb_true_iff, !negb_true_iff in F.
    destruct F as [[TAB SP] F].
    assert (a = EmptyString \/ last_char (fun x => negb (isspace x)) a = true) as L'.
    { destruct L as [L|L]; [discriminate L|].
      destruct a; [now left | right; exact L]. }
    cbn [append Re.split_cells_from].
    assert ((2 <=? String.length
                     (fst (span isspace (String c (a ++ ws ++ b)))))%nat = false) as ->.
    { cbn [span]. destruct (isspace c) eqn:C; [|reflexivity].
      cbn [andb] in SP. destruct a as [|d a].
      - destruct L as [L|L]; [discriminate L|]. cbn in L. rewrite C in L.
        discriminate L.
      - cbn [starts_with_space] in SP. cbn [append span]. now rewrite SP. }
    now rewrite TAB, (IH F L').
Qed.

(** C7: the table processor cuts the recognised text into its non-blank
    lines, each line into cells at every run of two or more whitespace
    characters and at every tab, and drops the lines of one cell or less.
    With two such lines or more it takes the first as header and the others
    as rows; "Name  Speed\nA  45\nB  30" gives the two rows
    (Name: A, Speed: 45) and (Name: B, Speed: 30).  With fewer it returns
    the empty table record with its note, and raises nothing.

    The cut is pinned by its laws: the text is cut at newlines; a line
    counts when it holds a character that is no whitespace, and stripping
    it removes the whitespace before and after its core; a text without
    tab and without two whitespace characters in a row is one cell; a run
    of two or more whitespace characters, or a tab, between two texts
    ends a cell. *)
Theorem process_table_rows
    (w : World) (image_path : string) (img : Image) (text : string) (k : nat) :
  imread w image_path = Some img ->
  tesseract w (inr (BGR2GRAY w img)) "--psm 6" = inr text ->
  let valid := parse_table text in
  valid = filter (fun cells => (1 <? length cells)%nat)
            (map (fun line => Re.split_cells (strip line))
               (filter (fun line => truthy (strip line))
                  (split "010" (strip text)))) /\
  Forall (fun cells => (2 <= length cells)%nat /\
                       Forall (fun cell => separator_free cell = true) cells)
         valid /\
  ((length valid < 2)%nat ->
   _process_table w image_path k = (inr no_table, k)) /\
  (forall header rows,
     valid = header :: rows -> rows <> [] ->
     _process_table w image_path k
     = match pd_DataFrame rows header with
       | inr df => (inr (frame_result df), k)
       | inl e => (inl e, k)
       end) /\
  (forall header rows,
     valid = header :: rows -> rows <> [] ->
     Forall (fun row => length row = length header) rows ->
     NoDup header ->
     _process_table w image_path k = (inr (table_of header rows), k)) /\
  (text = unlines ["Name  Speed"; "A  45"; "B  30"] ->
   exists r,
     _process_table w image_path k = (inr r, k) /\
     r_error r = None /\
     r_data r = Some (Records [[("Name", Some "A"); ("Speed", Some "45")];
                               [("Name", Some "B"); ("Speed", Some "30")]])) /\
  (forall lines,
     lines <> [] ->
     Forall (fun l => all_chars (fun c => negb (Ascii.eqb c "010")) l = true) lines ->
     split "010" (unlines lines) = lines) /\
  (forall line, truthy (strip line) = negb (all_chars isspace line)) /\
  (forall lead core trail,
     all_chars isspace lead = true ->
     all_chars isspace trail = true ->
     core = EmptyString \/
     (nonspace_at 0 core = true /\
      last_char (fun x => negb (isspace x)) core = true) ->
     strip (lead ++ core ++ trail) = core) /\
  (forall cell, separator_free cell = true -> Re.split_cells cell = [cell]) /\
  (forall cell blanks rest,
     separator_free cell = true ->
     cell = EmptyString \/ last_char (fun x => negb (isspace x)) cell = true ->
     all_chars isspace blanks = true ->
     (2 <= String.length blanks)%nat \/ blanks = String "009" EmptyString ->
     rest = EmptyString \/ nonspace_at 0 rest = true ->
     Re.split_cells (cell ++ blanks ++ rest) = cell :: Re.split_cells rest) /\
  (text = unlines [String "009" "Zone" ++ String "009" "Avg Speed"; "   ";
                   " Main Street  45 "; "note"; "";
                   "Oak Road " ++ String "009" "30"]%string ->
   _process_table w image_path k
   = (inr (table_of ["Zone"; "Avg Speed"]
             [["Main Street"; "45"]; ["Oak Road"; "30"]]), k)).
Proof.
  intros I T valid.
  assert (_process_table w image_path k = table_result text k) as PT.
  { unfold _process_table. rewrite I.
    erewrite bind_inr by apply cvtColor_some.
    erewrite bind_inr by (apply image_to_string_some; exact T).
    reflexivity. }
  split; [apply parse_table_filter|].
  split.
  { subst valid. rewrite parse_table_filter.
    apply Forall_forall. intros cells Hc.
    apply filter_In in Hc. destruct Hc as [Hin Hlen].
    apply Nat.ltb_lt in Hlen. split; [lia|].
    apply in_map_iff in Hin. destruct Hin as [line [<- _]].
    apply split_cells_separator_free. }
  split; [intros L; rewrite PT; now apply table_result_short|].
  split.
  { intros header rows P NE. rewrite PT. unfold table_result.
    subst valid. rewrite P.
    destruct rows as [|row rows]; [congruence|].
    cbn [length Nat.ltb Nat.leb skipn nth]. unfold bind, lift, ret.
    now destruct (pd_DataFrame (row :: rows) header). }
  split; [intros header rows P NE F N; rewrite PT;
          now apply table_result_regular|].
  split.
  { intros ->. rewrite PT. eexists. split; [|split].
    - unfold table_result. vm_compute. reflexivity.
    - reflexivity.
    - reflexivity. }
  split; [exact split_unlines|].
  split; [exact truthy_strip|].
  split; [exact strip_core|].
  split; [exact split_cells_whole|].
  split; [exact split_cells_cut|].
  intros ->. rewrite PT. vm_compute. reflexivity.
Qed.

Lemma process_table_rows_witness :
  _process_table (sample_world (unlines ["Name  Speed"; "A  45"; "B  30"]) [])
    "table.png" 0
  = (inr (table_of ["Name"; "Speed"] [["A"; "45"]; ["B"; "30"]]), 0%nat).
Proof.
  destruct (@process_table_rows
              (sample_world (unlines ["Name  Speed"; "A  45"; "B  30"]) [])
              "table.png" [] (unlines ["Name  Speed"; "A  45"; "B  30"]) 0
              eq_refl eq_refl)
    as [_ [_ [_ [_ [R _]]]]].
  apply R.
  - reflexivity.
  - discriminate.
  - repeat constructor.
  - repeat constructor; cbn; intuition discriminate.
Defined.

(* ===================================================================== *)
(** ** What each processor returns *)
(* ===================================================================== *)

Lemma traffic_map_shape (w : World) (image_path : string) (k k' : nat) (r : Result) :
  _process_traffic_map w image_path k = (inr r, k') ->
  exists ls ss cs ts,
    r = {| r_type := Some "traffic_map";
           r_data := Some (TrafficData ls ss cs ts);
           r_extracted_count := Some (length ls);
           r_error := None; r_app_detected := None; r_columns := None;
           r_rows := None; r_text := None; r_numbers := None |}.
Proof.
  unfold _process_traffic_map.
  destruct (imread w image_path) as [img|];
    [|intros E; unfold bind, cvtColor, raise in E; discriminate E].
  erewrite bind_inr by apply cvtColor_some. cbn [option_map].
  destruct (tesseract w (inl img) "--psm 6") as [e|text] eqn:T.
  { erewrite bind_inl by (unfold image_to_string, lift; rewrite T; reflexivity).
    intros E; discriminate E. }
  erewrite bind_inr by (apply image_to_string_some; exact T).
  cbv zeta.
  erewrite bind_inr by (unfold _detect_traffic_colors;
                        erewrite bind_inr by apply cvtColor_some; reflexivity).
  match goal with
  | |- context [combine_extracted w ?sp ?cd 0 ?locs ([], [], [])] =>
      destruct (combine_extracted_spec w sp cd locs 0 [] [] [] k)
        as [ss [cs [k1 [R _]]]]
  end.
  erewrite bind_inr by exact R. unfold ret. cbn [app].
  intros E. inversion E; subst. now eexists _, _, _, _.
Qed.

Lemma chart_shape (w : World) (image_path : string) (k k' : nat) (r : Result) :
  _process_chart w image_path k = (inr r, k') ->
  exists vs labels chart_type ts,
    r = {| r_type := Some "chart";
           r_data := Some (ChartData vs labels chart_type ts);
           r_extracted_count := Some (length vs);
           r_error := None; r_app_detected := None; r_columns := None;
           r_rows := None; r_text := None; r_numbers := None |}.
Proof.
  unfold _process_chart.
  destruct (imread w image_path) as [img|];
    [|intros E; unfold bind, cvtColor, raise in E; discriminate E].
  erewrite bind_inr by apply cvtColor_some. cbn [option_map].
  destruct (tesseract w (inl img) "--psm 6") as [e|text] eqn:T.
  { erewrite bind_inl by (unfold image_to_string, lift; rewrite T; reflexivity).
    intros E; discriminate E. }
  erewrite bind_inr by (apply image_to_string_some; exact T).
  cbv zeta.
  destruct (detect_chart_type_returns w img k) as [chart_type C].
  erewrite bind_inr by exact C. unfold ret.
  intros E. inversion E; subst. now eexists _, _, _, _.
Qed.

Lemma table_shape (w : World) (image_path : string) (k k' : nat) (r : Result) :
  _process_table w image_path k = (inr r, k') ->
  r = no_table \/
  exists row rows columns n,
    r = {| r_type := Some "table";
           r_data := Some (Records (row :: rows));
           r_extracted_count := None;
           r_error := None; r_app_detected := None;
           r_columns := Some columns;
           r_rows := Some n;
           r_text := None; r_numbers := None |}
    /\ n = length (row :: rows).
Proof.
  unfold _process_table.
  destruct (imread w image_path) as [img|];
    [|intros E; unfold bind, cvtColor, raise in E; discriminate E].
  erewrite bind_inr by apply cvtColor_some.
  destruct (tesseract w (inr (BGR2GRAY w img)) "--psm 6") as [e|text] eqn:T.
  { erewrite bind_inl by (unfold image_to_string, lift; rewrite T; reflexivity).
    intros E; discriminate E. }
  erewrite bind_inr by (apply image_to_string_some; exact T).
  unfold table_result.
  destruct (1 <? length (parse_table text))%nat eqn:L.
  - destruct (parse_table text) as [|header [|row rows]]; try discriminate L.
    cbn [skipn nth]. unfold pd_DataFrame.
    destruct (length header =? _)%nat.
    + erewrite bind_inr by reflexivity. unfold ret.
      intros E. inversion E; subst. right.
      unfold to_dict_records. cbn [df_columns df_values map length].
      eexists _, _, _, _. split; [reflexivity|].
      cbn [length]. now rewrite !length_map.
    + erewrite bind_inl by reflexivity. intros E; discriminate E.
  - unfold ret. intros E. inversion E; subst. now left.
Qed.

Lemma generic_shape (w : World) (image_path : string) (k k' : nat) (r : Result) :
  _generic_ocr_processing w image_path k = (inr r, k') ->
  exists text numbers,
    r = {| r_type := Some "generic";
           r_data := None;
           r_extracted_count := Some (length numbers);
           r_error := None; r_app_detected := None; r_columns := None;
           r_rows := None; r_text := Some text;
           r_numbers := Some numbers |}.
Proof.
  unfold _generic_ocr_processing.
  destruct (imread w image_path) as [img|]; cbn [option_map];
    [|intros E; unfold bind, image_to_string, raise in E; discriminate E].
  destruct (tesseract w (inl img) "") as [e|text] eqn:T.
  { erewrite bind_inl by (unfold image_to_string, lift; rewrite T; reflexivity).
    intros E; discriminate E. }
  erewrite bind_inr by (apply image_to_string_some; exact T).
  unfold ret. intros E. inversion E; subst.
  eexists _, _. now rewrite length_map.
Qed.

Lemma detect_image_type_kinds (w : World) (image_path : string) (k k' : nat)
    (kind : string) :
  _detect_image_type w image_path k = (inr kind, k') ->
  k' = k /\ In kind ["traffic_map"; "chart"; "screenshot"; "table"].
Proof.
  unfold _detect_image_type.
  destruct (imread w image_path) as [img|];
    [|intros E; unfold bind, cvtColor, raise in E; discriminate E].
  erewrite bind_inr by apply cvtColor_some.
  destruct (tesseract w (inr (BGR2GRAY w img)) "") as [e|text] eqn:T.
  { erewrite bind_inl by (unfold image_to_string, lift; rewrite T; reflexivity).
    intros E; discriminate E. }
  erewrite bind_inr by (apply image_to_string_some; exact T).
  cbv zeta. unfold ret.
  repeat match goal with
         | |- context [if ?b then _ else _] => destruct b
         end;
    intros E; inversion E; subst; (split; [reflexivity | cbn; tauto]).
Qed.

(** The dispatch of [process_image]: the processor behind a result. *)
Lemma process_image_body_cases
    (w : World) (image_path hint : string) (k k' : nat) (r : Result) :
  process_image_body w image_path hint k = (inr r, k') ->
  exists kind k0,
    ((hint = "auto" /\ _detect_image_type w image_path k = (inr kind, k0))
     \/ (hint <> "auto" /\ kind = hint /\ k0 = k)) /\
    ((kind = "traffic_map" /\ _process_traffic_map w image_path k0 = (inr r, k'))
     \/ (kind = "chart" /\ _process_chart w image_path k0 = (inr r, k'))
     \/ (kind = "screenshot" /\ _process_screenshot w image_path k0 = (inr r, k'))
     \/ (kind = "table" /\ _process_table w image_path k0 = (inr r, k'))
     \/ (~ In kind ["traffic_map"; "chart"; "screenshot"; "table"]
         /\ _generic_ocr_processing w image_path k0 = (inr r, k'))).
Proof.
  unfold process_image_body.
  assert (forall kind k0,
    (if String.eqb kind "traffic_map" then _process_traffic_map w image_path
     else if String.eqb kind "chart" then _process_chart w image_path
     else if String.eqb kind "screenshot" then _process_screenshot w image_path
     else if String.eqb kind "table" then _process_table w image_path
     else _generic_ocr_processing w image_path) k0 = (inr r, k') ->
    (kind = "traffic_map" /\ _process_traffic_map w image_path k0 = (inr r, k'))
    \/ (kind = "chart" /\ _process_chart w image_path k0 = (inr r, k'))
    \/ (kind = "screenshot" /\ _process_screenshot w image_path k0 = (inr r, k'))
    \/ (kind = "table" /\ _process_table w image_path k0 = (inr r, k'))
    \/ (~ In kind ["traffic_map"; "chart"; "screenshot"; "table"]
        /\ _generic_ocr_processing w image_path k0 = (inr r, k'))) as D.
  { intros kind k0.
    destruct (String.eqb_spec kind "traffic_map") as [->|N1]; [tauto|].
    destruct (String.eqb_spec kind "chart") as [->|N2]; [tauto|].
    destruct (String.eqb_spec kind "screenshot") as [->|N3]; [tauto|].
    destruct (String.eqb_spec kind "table") as [->|N4]; [tauto|].
    intros E. do 4 right. split; [|exact E].
    cbn. intuition congruence. }
  destruct (String.eqb_spec hint "auto") as [->|N].
  - destruct (_detect_image_type w image_path k) as [[e|kind] k0] eqn:DT.
    + erewrite bind_inl by exact DT. intros E; discriminate E.
    + erewrite bind_inr by exact DT. intros E.
      exists kind, k0. split; [now left | now apply D].
  - erewrite bind_inr by reflexivity. intros E.
    exists hint, k. split; [now right | now apply D].
Qed.

(* ===================================================================== *)
(** ** [process_image] *)
(* ===================================================================== *)

Lemma process_image_inr (w : World) (image_path hint : string) (k k' : nat)
    (r : Result) :
  process_image_body w image_path hint k = (inr r, k') ->
  process_image w image_path hint k = (r, k').
Proof. unfold process_image. now intros ->. Qed.

Lemma process_image_inl (w : World) (image_path hint : string) (k k' : nat)
    (e : exn) :
  process_image_body w image_path hint k = (inl e, k') ->
  process_image w image_path hint k = (error_result e, k').
Proof. unfold process_image. now intros ->. Qed.

(** A result of [process_image] is the error dictionary of the handler or
    the result of one of the five processors. *)
Lemma process_image_cases (w : World) (image_path hint : string) (k : nat) :
  let r := fst (process_image w image_path hint k) in
  (exists e, r = error_result e)
  \/ (exists k0 k', _process_traffic_map w image_path k0 = (inr r, k'))
  \/ (exists k0 k', _process_chart w image_path k0 = (inr r, k'))
  \/ (exists k0 k', _process_screenshot w image_path k0 = (inr r, k'))
  \/ (exists k0 k', _process_table w image_path k0 = (inr r, k'))
  \/ (exists k0 k', _generic_ocr_processing w image_path k0 = (inr r, k')).
Proof.
  destruct (process_image_body w image_path hint k) as [[e|r] k'] eqn:B.
  - rewrite (process_image_inl _ _ _ _ B). left. now exists e.
  - rewrite (process_image_inr _ _ _ _ B). cbn [fst].
    apply process_image_body_cases in B.
    destruct B as [kind [k0 [_ [[_ P]|[[_ P]|[[_ P]|[[_ P]|[_ P]]]]]]]]; eauto 10.
Qed.

(** C1: every result of [process_image] is an error (the error field set,
    the data empty or absent) or a success (the error field unset, the
    payload of its kind in place), never both; whenever the error field is
    set the data field holds nothing. *)
Theorem result_error_xor_success
    (w : World) (image_path hint : string) (k : nat) :
  let r := fst (process_image w image_path hint k) in
  xorb (is_error r) (is_success r) = true /\
  (is_error r = true <-> r_error r <> None) /\
  (is_success r = true <-> r_error r = None) /\
  (r_error r <> None -> no_payload r = true).
Proof.
  intros r.
  assert ((is_error r = true /\ is_success r = false /\ r_error r <> None
           /\ no_payload r = true)
          \/ (is_error r = false /\ is_success r = true /\ r_error r = None)) as H.
  { destruct (process_image_cases w image_path hint k)
      as [[e E]|[[k0 [k' P]]|[[k0 [k' P]]|[[k0 [k' P]]|[[k0 [k' P]]|[k0 [k' P]]]]]]];
      fold r in E || fold r in P.
    - rewrite E. left. repeat split; discriminate.
    - apply traffic_map_shape in P. destruct P as [ls [ss [cs [ts ->]]]].
      right. now repeat split.
    - apply chart_shape in P. destruct P as [vs [ls [ct [ts ->]]]].
      right. now repeat split.
    - apply screenshot_returns in P. destruct P as [img [text [_ [_ [_ ->]]]]].
      right. now repeat split.
    - apply table_shape in P.
      destruct P as [->|[row [rows [cols [n [-> _]]]]]].
      + left. repeat split; discriminate.
      + right. now repeat split.
    - apply generic_shape in P. destruct P as [text [ns ->]].
      right. now repeat split. }
  destruct H as [[E [S [N P]]]|[E [S N]]]; rewrite E, S.
  - repeat split; congruence.
  - repeat split; congruence.
Qed.

Lemma result_error_xor_success_witness :
  is_error (fst (process_image (sample_world "" []) "missing.png" "table" 0)) = true
  /\ is_success (fst (process_image (sample_world "7 8.5 9" []) "c.png" "chart" 0))
     = true.
Proof.
  split.
  - apply (proj1 (proj2 (@result_error_xor_success
                           (sample_world "" []) "missing.png" "table" 0))).
    discriminate.
  - apply (proj1 (proj2 (proj2 (@result_error_xor_success
                                  (sample_world "7 8.5 9" []) "c.png" "chart" 0)))).
    reflexivity.
Defined.

(** C2 (as amended): a result of [process_image] without the error field
    comes from one of the five processors.  For [traffic_map], [chart] and
    [generic] it has [extracted_count], equal to the number of primary items
    (locations, values, numbers).  A table result has no [extracted_count]:
    its number of rows, one at least, is under [rows].  A screenshot result
    has no count at all. *)
Theorem extracted_count_by_kind
    (w : World) (image_path hint : string) (k : nat) :
  let r := fst (process_image w image_path hint k) in
  r_error r = None ->
  exists kind,
    r_type r = Some kind /\
    ((In kind ["traffic_map"; "chart"; "generic"] /\
      exists n, r_extracted_count r = Some n /\ primary_items r = Some n)
     \/ (kind = "table" /\ r_extracted_count r = None /\
         exists n, r_rows r = Some n /\ primary_items r = Some n /\ (0 < n)%nat)
     \/ (kind = "screenshot" /\ r_extracted_count r = None /\
         primary_items r = None)).
Proof.
  intros r.
  destruct (process_image_cases w image_path hint k)
    as [[e E]|[[k0 [k' P]]|[[k0 [k' P]]|[[k0 [k' P]]|[[k0 [k' P]]|[k0 [k' P]]]]]]];
    fold r in E || fold r in P.
  - rewrite E. discriminate.
  - apply traffic_map_shape in P. destruct P as [ls [ss [cs [ts ->]]]].
    intros _. exists "traffic_map". split; [reflexivity|]. left.
    split; [cbn; tauto|]. now exists (length ls).
  - apply chart_shape in P. destruct P as [vs [ls [ct [ts ->]]]].
    intros _. exists "chart". split; [reflexivity|]. left.
    split; [cbn; tauto|]. now exists (length vs).
  - apply screenshot_returns in P. destruct P as [img [text [_ [_ [_ ->]]]]].
    intros _. exists "screenshot". split; [reflexivity|]. right. right.
    now repeat split.
  - apply table_shape in P.
    destruct P as [->|[row [rows [cols [n [-> L]]]]]]; [discriminate|].
    intros _. exists "table". split; [reflexivity|]. right. left.
    split; [reflexivity|]. split; [reflexivity|].
    exists n. cbn [r_rows primary_items r_data]. rewrite L.
    repeat split. cbn. lia.
  - apply generic_shape in P. destruct P as [text [ns ->]].
    intros _. exists "generic". split; [reflexivity|]. left.
    split; [cbn; tauto|]. now exists (length ns).
Qed.

Lemma extracted_count_by_kind_witness :
  r_extracted_count
    (fst (process_image (sample_world "1 2 3.5" []) "notes.png" "memo" 0))
  = Some 3%nat.
Proof.
  destruct (@extracted_count_by_kind (sample_world "1 2 3.5" []) "notes.png" "memo" 0
              eq_refl)
    as [kind [K [[_ [n [C P]]]|[[E _]|[E _]]]]].
  - rewrite C. rewrite <- P. reflexivity.
  - rewrite E in K. discriminate K.
  - rewrite E in K. discriminate K.
Defined.

(** C2, the claim as it stands: a successful screenshot result has no
    [extracted_count]. *)
Lemma screenshot_has_no_extracted_count :
  ~ (forall (w : World) (image_path hint : string) (k : nat),
       let r := fst (process_image w image_path hint k) in
       r_error r = None ->
       exists n, r_extracted_count r = Some n /\ primary_items r = Some n).
Proof.
  intros H.
  destruct (H (sample_world "Waze 12 min" []) "shot.png" "screenshot" 0%nat eq_refl)
    as [n [C _]].
  discriminate C.
Qed.

(** C4: with a hint among [traffic_map], [chart], [screenshot] and
    [table], a result that is not the outcome of an internal failure has
    the hint as its type; with a hint outside the closed set (these four
    and [auto]) [process_image] runs the generic fallback, whose result is
    of type [generic]. *)
Theorem hint_selects_processor
    (w : World) (image_path hint : string) (k : nat) :
  (~ In hint ["auto"; "traffic_map"; "chart"; "screenshot"; "table"] ->
   process_image_body w image_path hint k
   = _generic_ocr_processing w image_path k) /\
  (forall r k',
     process_image_body w image_path hint k = (inr r, k') ->
     process_image w image_path hint k = (r, k') /\
     (In hint ["traffic_map"; "chart"; "screenshot"; "table"] ->
      r_type r = Some hint) /\
     (~ In hint ["auto"; "traffic_map"; "chart"; "screenshot"; "table"] ->
      r_type r = Some "generic")).
Proof.
  assert (~ In hint ["auto"; "traffic_map"; "chart"; "screenshot"; "table"] ->
          process_image_body w image_path hint k
          = _generic_ocr_processing w image_path k) as G.
  { intros H. unfold process_image_body.
    destruct (String.eqb_spec hint "auto") as [->|_]; [exfalso; apply H; now left|].
    erewrite bind_inr by reflexivity.
    destruct (String.eqb_spec hint "traffic_map") as [->|_];
      [exfalso; apply H; cbn; tauto|].
    destruct (String.eqb_spec hint "chart") as [->|_];
      [exfalso; apply H; cbn; tauto|].
    destruct (String.eqb_spec hint "screenshot") as [->|_];
      [exfalso; apply H; cbn; tauto|].
    destruct (String.eqb_spec hint "table") as [->|_];
      [exfalso; apply H; cbn; tauto|].
    reflexivity. }
  split; [exact G|].
  intros r k' B. split; [now apply process_image_inr|].
  split.
  - intros H.
    pose proof (process_image_body_cases _ _ _ _ B) as C.
    destruct C as [kind [k0 [[[-> _]|[N [-> ->]]] P]]].
    + cbn in H. destruct H as [H|[H|[H|[H|[]]]]]; discriminate H.
    + destruct P as [[-> P]|[[-> P]|[[-> P]|[[-> P]|[NI P]]]]].
      * apply traffic_map_shape in P. now destruct P as [? [? [? [? ->]]]].
      * apply chart_shape in P. now destruct P as [? [? [? [? ->]]]].
      * apply screenshot_returns in P. now destruct P as [? [? [_ [_ [_ ->]]]]].
      * apply table_shape in P.
        now destruct P as [->|[? [? [? [? [-> _]]]]]].
      * contradiction.
  - intros H. rewrite (G H) in B.
    apply generic_shape in B. now destruct B as [? [? ->]].
Qed.

Lemma hint_selects_processor_witness :
  r_type (fst (process_image (sample_world "1 2 3.5" []) "notes.png" "memo" 0))
  = Some "generic".
Proof.
  destruct (@hint_selects_processor (sample_world "1 2 3.5" []) "notes.png" "memo" 0)
    as [_ H].
  destruct (H _ _ eq_refl) as [R [_ G]].
  rewrite R. cbn [fst]. apply G.
  cbn. intuition discriminate.
Defined.

Lemma unreadable_raises (w : World) (image_path hint : string) (k : nat) :
  imread w image_path = None ->
  exists e, process_image_body w image_path hint k = (inl e, k).
Proof.
  intros I. unfold process_image_body.
  assert (forall kind, exists e,
    (if String.eqb kind "traffic_map" then _process_traffic_map w image_path
     else if String.eqb kind "chart" then _process_chart w image_path
     else if String.eqb kind "screenshot" then _process_screenshot w image_path
     else if String.eqb kind "table" then _process_table w image_path
     else _generic_ocr_processing w image_path) k = (inl e, k)) as D.
  { intros kind.
    unfold _process_traffic_map, _process_chart, _process_screenshot,
      _process_table, _generic_ocr_processing.
    rewrite I.
    repeat match goal with
           | |- context [if ?b then _ else _] => destruct b
           end; eexists; reflexivity. }
  destruct (String.eqb hint "auto").
  - unfold _detect_image_type. rewrite I. eexists. reflexivity.
  - erewrite bind_inr by reflexivity. apply D.
Qed.

(** C9: an exception raised inside [process_image] is caught by its
    handler and turned into the error dictionary, whose error field is the
    text "Processing failed: " followed by the message and whose data field
    is [None]; [process_image] itself returns a result in every case.  For
    a path that cannot be read the result is such a dictionary: a non-empty
    error text, no data. *)
Theorem exceptions_become_error_results
    (w : World) (image_path hint : string) (k : nat) :
  (exists r k', process_image w image_path hint k = (r, k') /\
     (process_image_body w image_path hint k = (inr r, k') \/
      exists e, process_image_body w image_path hint k = (inl e, k') /\
                r = error_result e)) /\
  (forall e k',
     process_image_body w image_path hint k = (inl e, k') ->
     exists r,
       process_image w image_path hint k = (r, k') /\
       r_error r = Some ("Processing failed: " ++ exn_msg e)%string /\
       r_data r = Some PyNone /\ r_type r = None) /\
  (imread w image_path = None ->
   exists r msg,
     process_image w image_path hint k = (r, k) /\
     r_error r = Some msg /\ msg <> EmptyString /\
     r_data r = Some PyNone /\ is_error r = true).
Proof.
  split; [|split].
  - destruct (process_image_body w image_path hint k) as [[e|r] k'] eqn:B.
    + exists (error_result e), k'. split; [now apply process_image_inl|].
      right. now exists e.
    + exists r, k'. split; [now apply process_image_inr | now left].
  - intros e k' B. exists (error_result e).
    split; [now apply process_image_inl|]. now repeat split.
  - intros I. destruct (unreadable_raises w image_path hint k I) as [e B].
    exists (error_result e), ("Processing failed: " ++ exn_msg e)%string.
    split; [now apply process_image_inl|].
    repeat split. discriminate.
Qed.

Lemma exceptions_become_error_results_witness :
  exists msg,
    r_error (fst (process_image (sample_world "" []) "missing.png" "auto" 0))
    = Some msg /\ msg <> EmptyString.
Proof.
  destruct (@exceptions_become_error_results (sample_world "" []) "missing.png"
              "auto" 0) as [_ [_ U]].
  destruct (U eq_refl) as [r [msg [R [E [N _]]]]].
  exists msg. rewrite R. cbn [fst]. split; [exact E | exact N].
Defined.

(* ===================================================================== *)
(** ** The upload filter *)
(* ===================================================================== *)

Lemma prefix_single (a c : ascii) (s : string) :
  String.prefix (String a EmptyString) (String c s) = true <-> a = c.
Proof.
  rewrite prefix_app. split.
  - intros [post E]. now inversion E.
  - intros ->. now exists s.
Qed.

Lemma last_separator (sep : ascii) (s : string) :
  contains (String sep EmptyString) s = true ->
  exists stem ext,
    s = (stem ++ String sep ext)%string /\
    contains (String sep EmptyString) ext = false.
Proof.
  induction s as [|c s IH]; [discriminate|].
  cbn [contains].
  destruct (contains (String sep EmptyString) s) eqn:C.
  - intros _. destruct (IH eq_refl) as [stem [ext [-> N]]].
    now exists (String c stem), ext.
  - rewrite orb_false_r, prefix_single. intros ->.
    now exists EmptyString, s.
Qed.

Lemma rsplit1_none (sep : ascii) (s : string) :
  contains (String sep EmptyString) s = false -> rsplit1 sep s = [s].
Proof.
  induction s as [|c s IH]; [reflexivity|].
  cbn [contains]. intros H. apply orb_false_elim in H. destruct H as [P C].
  cbn [rsplit1]. rewrite (IH C).
  destruct (Ascii.eqb_spec c sep) as [->|N]; [|reflexivity].
  assert (String.prefix (String sep EmptyString) (String sep s) = true) as T
    by now apply prefix_single.
  congruence.
Qed.

Lemma rsplit1_last (sep : ascii) (stem ext : string) :
  contains (String sep EmptyString) ext = false ->
  rsplit1 sep (stem ++ String sep ext) = [stem; ext].
Proof.
  intros N. induction stem as [|c stem IH].
  - cbn [append rsplit1]. rewrite (@rsplit1_none _ _ N).
    now rewrite Ascii.eqb_refl.
  - cbn [append rsplit1]. now rewrite IH.
Qed.

Lemma existsb_eqb_In (x : string) (l : list string) :
  existsb (String.eqb x) l = true <-> In x l.
Proof.
  rewrite existsb_exists. split.
  - intros [y [I E]]. apply String.eqb_eq in E. now subst.
  - intros I. exists x. split; [exact I | apply String.eqb_refl].
Qed.

(** X1: [allowed_file] never raises, and accepts a name exactly when the text
    after its last dot, lower-cased, is one of the allowed extensions; a
    name without a dot is refused. *)
Theorem allowed_file_by_extension (filename : string) :
  (exists b, allowed_file filename = inr b) /\
  (allowed_file filename = inr true <->
   exists stem ext,
     filename = (stem ++ "." ++ ext)%string /\
     contains "." ext = false /\
     In (lower ext) ALLOWED_EXTENSIONS) /\
  (contains "." filename = false -> allowed_file filename = inr false).
Proof.
  unfold allowed_file.
  destruct (contains "." filename) eqn:C.
  - destruct (last_separator _ _ C) as [stem [ext [-> N]]].
    rewrite (@rsplit1_last _ _ _ N). cbn [list_index nth_error].
    split; [now eexists|]. split; [|discriminate].
    split.
    + intros E. exists stem, ext. split; [reflexivity|]. split; [exact N|].
      apply existsb_eqb_In. now inversion E.
    + intros [stem' [ext' [E [N' I]]]].
      change (stem' ++ "." ++ ext')%string with (stem' ++ String "." ext')%string in E.
      assert (rsplit1 "." (stem ++ String "." ext) = [stem'; ext']) as R
        by (rewrite E; now apply rsplit1_last).
      rewrite (@rsplit1_last _ _ _ N) in R. inversion R; subst.
      f_equal. now apply existsb_eqb_In.
  - split; [now eexists|]. split; [|reflexivity].
    split; [discriminate|].
    intros [stem [ext [-> _]]].
    assert (contains "." (stem ++ "." ++ ext) = true) as T
      by (apply contains_app; now exists stem, ext).
    congruence.
Qed.

Lemma allowed_file_by_extension_witness :
  allowed_file "report.final.PNG" = inr true.
Proof.
  apply (proj1 (proj2 (allowed_file_by_extension "report.final.PNG"))).
  exists "report.final", "PNG". repeat split. cbn. tauto.
Defined.

(* ===================================================================== *)
(** ** What the scanners return *)
(* ===================================================================== *)

Lemma span_all (p : ascii -> bool) (s : string) :
  all_chars p (fst (span p s)) = true.
Proof.
  induction s as [|c s IH]; [reflexivity|].
  cbn [span]. destruct (p c) eqn:P; [|reflexivity].
  destruct (span p s) as [a b]. cbn in *. now rewrite P.
Qed.

Lemma digits1_digits (s ds rest : string) :
  Re.digits1 s = Some (ds, rest) ->
  ds <> EmptyString /\ all_chars isdigit ds = true.
Proof.
  unfold Re.digits1. pose proof (span_all isdigit s) as A.
  destruct (span isdigit s) as [a b]. cbn [fst] in A.
  destruct a as [|c a]; [discriminate|]. cbn [is_empty].
  intros E. inversion E; subst. split; [discriminate | exact A].
Qed.

Lemma int_unit_digits (units : list string) (s a : string) (n : nat) :
  Re.int_unit units s = Some (a, n) ->
  a <> EmptyString /\ all_chars isdigit a = true.
Proof.
  unfold Re.int_unit. destruct (Re.digits1 s) as [[ds r1]|] eqn:D; [|discriminate].
  destruct (span isspace r1) as [ws r2].
  destruct (Re.alt_ci units r2); [|discriminate].
  intros E. inversion E; subst. eapply digits1_digits; eassumption.
Qed.

Lemma number_text_literal (s tok rest : string) :
  Re.number_text s = Some (tok, rest) -> decimal_literal tok.
Proof.
  unfold Re.number_text.
  destruct (Re.digits1 s) as [[ds r1]|] eqn:D; [|discriminate].
  destruct (digits1_digits _ D) as [NE A].
  assert (decimal_literal ds) as L0.
  { exists ds, EmptyString. repeat split; auto. }
  destruct r1 as [|c r2]; [intros E; inversion E; now subst|].
  destruct (Ascii.eqb_spec c ".") as [->|N].
  - destruct (Re.digits1 r2) as [[fs r3]|] eqn:F.
    + destruct (digits1_digits _ F) as [NF AF].
      intros E. inversion E; subst.
      exists ds, fs. repeat split; auto.
    + intros E. inversion E; now subst.
  - assert (Some (ds, String c r2) = Some (tok, rest) -> decimal_literal tok) as G
      by (intros E; inversion E; now subst).
    destruct c as [[] [] [] [] [] [] [] []]; try exact G.
    now contradiction N.
Qed.

Lemma number_literal (s tok : string) (n : nat) :
  Re.number s = Some (tok, n) -> decimal_literal tok.
Proof.
  unfold Re.number. destruct (Re.number_text s) as [[t r]|] eqn:T; [|discriminate].
  intros E. inversion E; subst. eapply number_text_literal; eassumption.
Qed.

Lemma number_unit_literal (units : list string) (s tok : string) (n : nat) :
  Re.number_unit units s = Some (tok, n) -> decimal_literal tok.
Proof.
  unfold Re.number_unit.
  destruct (Re.number_text s) as [[t r1]|] eqn:T; [|discriminate].
  destruct (span isspace r1) as [ws r2].
  destruct (Re.alt_ci units r2); [|discriminate].
  intros E. inversion E; subst. eapply number_text_literal; eassumption.
Qed.

Lemma findall_Forall (A : Type) (m : Re.matcher A) (P : A -> Prop) :
  (forall s a n, m s = Some (a, n) -> P a) ->
  forall skip s, Forall P (Re.findall_from m skip s).
Proof.
  intros H skip s. revert skip.
  induction s as [|c s IH]; intros skip; [constructor|].
  cbn [Re.findall_from]. destruct skip as [|k]; [|apply IH].
  destruct (m (String c s)) as [[a len]|] eqn:M; [|apply IH].
  constructor; [eapply H; eassumption | apply IH].
Qed.

Lemma search_found (A : Type) (m : Re.matcher A) (s : string) (a : A) :
  Re.search m s = Some a -> exists s' n, m s' = Some (a, n).
Proof.
  induction s as [|c s IH]; [discriminate|].
  cbn [Re.search]. destruct (m (String c s)) as [[b n]|] eqn:M; [|exact IH].
  intros E. inversion E; subst. now exists (String c s), n.
Qed.

Lemma search_suffix (A : Type) (m : Re.matcher A) (pre s : string) :
  s <> EmptyString -> m s <> None -> Re.search m (pre ++ s) <> None.
Proof.
  intros NE M. induction pre as [|c pre IH].
  - destruct s as [|c s]; [congruence|]. cbn [append Re.search].
    destruct (m (String c s)) as [[a n]|]; [discriminate | congruence].
  - cbn [append Re.search].
    destruct (m (String c (pre ++ s))) as [[a n]|]; [discriminate | exact IH].
Qed.

(** X2: the time estimate of [_extract_traffic_info], when there is one, is a
    non-empty run of characters of the class [\d], and its distance, when
    there is one, a decimal literal over that class (digits, then
    optionally a point and digits): [int] and [float] accept them.  The
    class [\d] is the one of the strings modelled here, of code points
    below 256, where it holds the digits 0 to 9 and nothing else. *)
Theorem traffic_info_fields_well_formed (text : string) :
  (forall t, estimated_time (_extract_traffic_info text) = Some t ->
             t <> EmptyString /\ all_chars isdigit t = true) /\
  (forall d, distance (_extract_traffic_info text) = Some d -> decimal_literal d).
Proof.
  unfold _extract_traffic_info. cbn [estimated_time distance]. split.
  - intros t E. apply search_found in E. destruct E as [s' [n M]].
    eapply int_unit_digits; eassumption.
  - intros d E. apply search_found in E. destruct E as [s' [n M]].
    eapply number_unit_literal; eassumption.
Qed.

Lemma traffic_info_fields_well_formed_witness :
  estimated_time (_extract_traffic_info "ETA 25 minutes, 7.5 km") = Some "25"
  /\ all_chars isdigit "25" = true.
Proof.
  split; [reflexivity|].
  apply (proj1 (traffic_info_fields_well_formed "ETA 25 minutes, 7.5 km") "25").
  reflexivity.
Defined.

Lemma space_not_digit (c : ascii) : isspace c = true -> isdigit c = false.
Proof. destruct c as [[] [] [] [] [] [] [] []]; try reflexivity; discriminate. Qed.

Lemma number_text_plain (s ds r1 : string) :
  Re.digits1 s = Some (ds, r1) ->
  (forall r2, r1 <> String "." r2) ->
  Re.number_text s = Some (ds, r1).
Proof.
  intros D N. unfold Re.number_text. rewrite D.
  destruct r1 as [|c r]; [reflexivity|].
  destruct c as [[] [] [] [] [] [] [] []]; try reflexivity.
  now contradiction (N r).
Qed.

(** X3: a text with digits, optional whitespace and "min" in it gets a time
    estimate - and a distance as well: the unit "mi" of the distance
    pattern matches the first two letters of "min". *)
Theorem minutes_read_as_distance (pre n ws post : string) :
  n <> EmptyString ->
  all_chars isdigit n = true ->
  all_chars isspace ws = true ->
  let text := (pre ++ n ++ ws ++ "min" ++ post)%string in
  estimated_time (_extract_traffic_info text) <> None /\
  distance (_extract_traffic_info text) <> None.
Proof.
  intros NE D W text.
  set (tail := (ws ++ "min" ++ post)%string).
  assert (forall c r, tail = String c r -> isdigit c = false) as T1.
  { subst tail. destruct ws as [|c0 ws']; cbn [append]; intros c r E;
      inversion E; subst; [reflexivity|].
    cbn [all_chars] in W. apply andb_true_iff in W.
    now apply space_not_digit. }
  assert (Re.digits1 (n ++ tail) = Some (n, tail)) as D1.
  { unfold Re.digits1. rewrite (span_app _ _ D T1).
    destruct n; [congruence | reflexivity]. }
  assert (span isspace tail = (ws, ("min" ++ post)%string)) as S1.
  { subst tail. apply span_app; [exact W|].
    intros c r E. cbn in E. inversion E. reflexivity. }
  assert (n ++ tail <> EmptyString)%string as NE2
    by (destruct n; [congruence | discriminate]).
  unfold _extract_traffic_info. cbn [estimated_time distance]. subst text.
  fold tail. split; apply search_suffix; try exact NE2.
  - unfold Re.int_unit. rewrite D1, S1. cbn. discriminate.
  - unfold Re.number_unit. rewrite (number_text_plain _ D1).
    + rewrite S1. cbn. discriminate.
    + subst tail. destruct ws as [|c0 ws']; cbn [append]; intros r2 E;
        inversion E; subst.
      cbn in W. discriminate W.
Qed.

Lemma minutes_read_as_distance_witness :
  distance (_extract_traffic_info "Arrive in 12 min via Main St") <> None.
Proof.
  apply (@minutes_read_as_distance "Arrive in " "12" " " " via Main St");
    [discriminate | reflexivity | reflexivity].
Defined.

(* ===================================================================== *)
(** ** The traffic-map processor: what its lists hold *)
(* ===================================================================== *)

Lemma traffic_map_inv (w : World) (image_path : string) (k k' : nat) (r : Result) :
  _process_traffic_map w image_path k = (inr r, k') ->
  exists img text ss cs,
    imread w image_path = Some img /\
    tesseract w (inl img) "--psm 6" = inr text /\
    combine_extracted w (Re.findall (Re.int_unit ["km/h"; "mph"; "kph"]) text)
      (hsv_conditions (BGR2HSV w img)) 0
      (firstn 5 (Re.findall Re.location text)) ([], [], []) k
    = (inr (firstn 5 (Re.findall Re.location text), ss, cs), k') /\
    r = {| r_type := Some "traffic_map";
           r_data := Some (TrafficData (firstn 5 (Re.findall Re.location text))
                             ss cs (now_isoformat w));
           r_extracted_count :=
             Some (length (firstn 5 (Re.findall Re.location text)));
           r_error := None; r_app_detected := None; r_columns := None;
           r_rows := None; r_text := None; r_numbers := None |}.
Proof.
  unfold _process_traffic_map.
  destruct (imread w image_path) as [img|];
    [|intros E; unfold bind, cvtColor, raise in E; discriminate E].
  erewrite bind_inr by apply cvtColor_some. cbn [option_map].
  destruct (tesseract w (inl img) "--psm 6") as [e|text] eqn:T.
  { erewrite bind_inl by (unfold image_to_string, lift; rewrite T; reflexivity).
    intros E; discriminate E. }
  erewrite bind_inr by (apply image_to_string_some; exact T).
  cbv zeta.
  erewrite bind_inr by (unfold _detect_traffic_colors;
                        erewrite bind_inr by apply cvtColor_some; reflexivity).
  match goal with
  | |- context [combine_extracted w ?sp ?cd 0 ?locs ([], [], [])] =>
      destruct (combine_extracted_spec w sp cd locs 0 [] [] [] k)
        as [ss [cs [k1 [R _]]]]
  end.
  erewrite bind_inr by exact R. unfold ret. cbn [app] in *.
  intros E. inversion E; subst. now exists img, text, ss, cs.
Qed.

Lemma digit_string_nonneg (s : string) :
  all_chars isdigit s = true -> (0 <= int s)%Z.
Proof.
  unfold int.
  assert (forall acc, (0 <= acc)%Z -> all_chars isdigit s = true ->
                      (0 <= int_acc acc s)%Z) as G.
  { induction s as [|c s IH]; intros acc A D; [exact A|].
    cbn [all_chars] in D. apply andb_true_iff in D. destruct D as [Dc D].
    cbn [int_acc]. apply IH; [|exact D].
    unfold isdigit, between in Dc. apply andb_true_iff in Dc.
    destruct Dc as [Lo _]. apply N.leb_le in Lo. unfold digit_val. lia. }
  apply G. lia.
Qed.

Lemma nth_Forall (A : Type) (P : A -> Prop) (l : list A) (d : A) :
  (forall i, (i < length l)%nat -> P (nth i l d)) -> Forall P l.
Proof.
  intros H. apply Forall_forall. intros x I.
  destruct (In_nth l x d I) as [i [L <-]]. now apply H.
Qed.

(** X4: every speed of a traffic-map result is a whole number that is not
    negative: the ones read from the text are runs of digits, the others
    are drawn from [20, 60). *)
Theorem traffic_map_speeds_nonnegative
    (w : World) (image_path : string) (k k' : nat) (r : Result)
    (ls : list string) (ss : list Z) (cs : list string) (ts : string) :
  _process_traffic_map w image_path k = (inr r, k') ->
  r_data r = Some (TrafficData ls ss cs ts) ->
  Forall (fun speed => (0 <= speed)%Z) ss.
Proof.
  intros P D. apply traffic_map_inv in P.
  destruct P as [img [text [ss0 [cs0 [_ [_ [C ->]]]]]]].
  cbn [r_data] in D. inversion D; subst. clear D.
  match type of C with
  | combine_extracted w ?sp ?cd 0 ?locs _ k = _ =>
      destruct (combine_extracted_spec w sp cd locs 0 [] [] [] k)
        as [ss' [cs' [k1 [R [Ls [_ Q]]]]]];
      set (speeds := sp) in *
  end.
  rewrite R in C. cbn [app] in C. inversion C; subst. clear C.
  apply nth_Forall with (d := 0%Z). intros i Li. rewrite Ls in Li.
  destruct (Q i Li) as [Q1 [Q2 _]]. cbn [Nat.add] in Q1, Q2.
  destruct (Nat.lt_ge_cases i (length speeds)) as [Lt|Ge].
  - rewrite (Q1 Lt). apply digit_string_nonneg.
    assert (Forall (fun a => a <> EmptyString /\ all_chars isdigit a = true) speeds) as F
      by (apply findall_Forall; intros s a n M; eapply int_unit_digits; exact M).
    rewrite Forall_forall in F. apply F. now apply nth_In.
  - specialize (Q2 Ge). lia.
Qed.

Lemma traffic_map_speeds_nonnegative_witness :
  Forall (fun speed => (0 <= speed)%Z) [45%Z; 27%Z].
Proof.
  apply (@traffic_map_speeds_nonnegative
           (sample_world "Main Street 45 km/h, Oak Road" [[(0, 255, 255)%Z]])
           "map.png" 0 1 _ ["Main Street"; "Oak Road"] [45%Z; 27%Z]
           ["Congested"; "Congested"] "2024-05-01T12:00:00" eq_refl eq_refl).
Defined.

Lemma all_chars_app (p : ascii -> bool) (a b : string) :
  all_chars p (a ++ b) = all_chars p a && all_chars p b.
Proof.
  induction a as [|c a IH]; [reflexivity|].
  cbn [append all_chars]. now rewrite IH, andb_assoc.
Qed.

Lemma all_chars_impl (p q : ascii -> bool) (s : string) :
  (forall c, p c = true -> q c = true) ->
  all_chars p s = true -> all_chars q s = true.
Proof.
  intros H. induction s as [|c s IH]; [reflexivity|].
  cbn [all_chars]. rewrite !andb_true_iff. intros [Pc A].
  split; [now apply H | now apply IH].
Qed.

Lemma last_char_app (p : ascii -> bool) (a b : string) :
  b <> EmptyString -> last_char p (a ++ b) = last_char p b.
Proof.
  intros NE. induction a as [|c a IH]; [reflexivity|].
  cbn [append last_char].
  destruct (a ++ b)%string eqn:E; [|exact IH].
  destruct a; [cbn in E; congruence | discriminate E].
Qed.

Lemma last_char_all (p : ascii -> bool) (s : string) :
  s <> EmptyString -> all_chars p s = true -> last_char p s = true.
Proof.
  induction s as [|c s IH]; [congruence|].
  intros _. cbn [all_chars]. rewrite andb_true_iff. intros [Pc A].
  destruct s as [|d s]; [exact Pc|].
  cbn [last_char]. apply IH; [discriminate | exact A].
Qed.

Lemma cap_word_shape (s word rest : string) :
  Re.cap_word s = Some (word, rest) ->
  exists c ls, word = String c ls /\ is_AZ c = true /\
               ls <> EmptyString /\ all_chars is_az ls = true.
Proof.
  destruct s as [|c s]; [discriminate|]. cbn [Re.cap_word].
  destruct (is_AZ c) eqn:U; [|discriminate].
  pose proof (span_all is_az s) as A.
  destruct (span is_az s) as [ls r]. cbn [fst] in A.
  destruct ls as [|l ls]; [discriminate|]. cbn [is_empty].
  intros E. inversion E; subst. exists c, (String l ls).
  repeat split; [exact U | discriminate | exact A].
Qed.

Lemma cap_word_location (s word rest : string) :
  Re.cap_word s = Some (word, rest) -> location_shape word.
Proof.
  intros C. destruct (cap_word_shape _ C) as [c [ls [-> [U [NE A]]]]].
  split; [now exists c, ls|]. split.
  - cbn [all_chars]. unfold letter_or_space at 1. rewrite U. cbn [orb andb].
    apply (all_chars_impl is_az); [|exact A].
    intros x X. unfold letter_or_space. rewrite X. now rewrite orb_true_r.
  - change (String c ls) with (String c EmptyString ++ ls)%string.
    rewrite last_char_app by exact NE.
    now apply last_char_all.
Qed.

Lemma more_words_location (fuel : nat) :
  forall acc rest, location_shape acc -> location_shape (Re.more_words fuel acc rest).
Proof.
  induction fuel as [|fuel IH]; intros acc rest S; [exact S|].
  cbn [Re.more_words].
  pose proof (span_all isspace rest) as W.
  destruct (span isspace rest) as [ws r1]. cbn [fst] in W.
  destruct (is_empty ws); [exact S|].
  destruct (Re.cap_word r1) as [[word r2]|] eqn:C; [|exact S].
  apply IH.
  destruct (cap_word_location _ C) as [[c [ls [-> U]]] [A L]].
  destruct S as [[c0 [rest0 [-> U0]]] [A0 _]].
  split; [now exists c0, (rest0 ++ ws ++ String c ls)%string|].
  split.
  - rewrite !all_chars_app, A0, A. rewrite andb_true_r. cbn [andb].
    apply (all_chars_impl isspace); [|exact W].
    intros x X. unfold letter_or_space. rewrite X. now rewrite !orb_true_r.
  - rewrite last_char_app; [|destruct ws; discriminate].
    rewrite last_char_app; [exact L | discriminate].
Qed.

Lemma location_match_shape (s loc : string) (n : nat) :
  Re.location s = Some (loc, n) -> location_shape loc.
Proof.
  unfold Re.location. destruct (Re.cap_word s) as [[word rest]|] eqn:C; [|discriminate].
  intros E. inversion E; subst.
  apply more_words_location. eapply cap_word_location; eassumption.
Qed.

Lemma Forall_firstn_of (A : Type) (P : A -> Prop) (n : nat) (l : list A) :
  Forall P l -> Forall P (firstn n l).
Proof.
  intros F. revert n. induction F as [|x l Px F IH]; intros [|n]; cbn;
    constructor; auto.
Qed.

(** X5: every location of a traffic-map result begins with a capital of A-Z,
    ends with a small letter and holds letters and whitespace only (a
    newline between two capitalised words included). *)
Theorem traffic_map_locations_shape
    (w : World) (image_path : string) (k k' : nat) (r : Result)
    (ls : list string) (ss : list Z) (cs : list string) (ts : string) :
  _process_traffic_map w image_path k = (inr r, k') ->
  r_data r = Some (TrafficData ls ss cs ts) ->
  Forall location_shape ls.
Proof.
  intros P D. apply traffic_map_inv in P.
  destruct P as [img [text [ss0 [cs0 [_ [_ [_ ->]]]]]]].
  cbn [r_data] in D.
  assert (ls = firstn 5 (Re.findall Re.location text)) as -> by congruence.
  apply Forall_firstn_of. apply findall_Forall.
  intros s a n M. eapply location_match_shape; exact M.
Qed.

Lemma traffic_map_locations_shape_witness :
  Forall location_shape ["Main Street"; "Oak Road"].
Proof.
  apply (@traffic_map_locations_shape
           (sample_world "Main Street 45 km/h, Oak Road" [[(0, 255, 255)%Z]])
           "map.png" 0 1 _ ["Main Street"; "Oak Road"] [45%Z; 27%Z]
           ["Congested"; "Congested"] "2024-05-01T12:00:00" eq_refl eq_refl).
Defined.

Lemma hsv_conditions_label (hsv : Image) :
  exists label,
    hsv_conditions hsv = repeat label 5 /\
    In label ["Good"; "Moderate"; "Congested"].
Proof.
  unfold hsv_conditions, dominant_condition.
  repeat match goal with
         | |- context [if ?b then _ else _] => destruct b
         end; eexists; (split; [reflexivity | cbn; tauto]).
Qed.

Lemma nth_all_repeat (A : Type) (x d : A) (l : list A) :
  (forall i, (i < length l)%nat -> nth i l d = x) -> l = repeat x (length l).
Proof.
  induction l as [|y l IH]; intros H; [reflexivity|].
  cbn [length repeat]. f_equal.
  - apply (H 0%nat). cbn. lia.
  - apply IH. intros i L. apply (H (S i)). cbn. lia.
Qed.

(** X6: all the conditions of a traffic-map result are one and the same label
    of [Good], [Moderate] and [Congested]: the segmenter hands over five
    copies and five locations at most are used, so the alternative
    "Moderate" of the loop is never taken. *)
Theorem traffic_map_conditions_uniform
    (w : World) (image_path : string) (k k' : nat) (r : Result)
    (ls : list string) (ss : list Z) (cs : list string) (ts : string) :
  _process_traffic_map w image_path k = (inr r, k') ->
  r_data r = Some (TrafficData ls ss cs ts) ->
  exists img label,
    imread w image_path = Some img /\
    hsv_conditions (BGR2HSV w img) = repeat label 5 /\
    In label ["Good"; "Moderate"; "Congested"] /\
    cs = repeat label (length ls).
Proof.
  intros P D. apply traffic_map_inv in P.
  destruct P as [img [text [ss0 [cs0 [I [_ [C ->]]]]]]].
  cbn [r_data] in D.
  assert (ls = firstn 5 (Re.findall Re.location text)) as -> by congruence.
  assert (cs0 = cs) as -> by congruence. clear D.
  destruct (hsv_conditions_label (BGR2HSV w img)) as [label [H L]].
  exists img, label. split; [exact I|]. split; [exact H|]. split; [exact L|].
  match type of C with
  | combine_extracted w ?sp ?cd 0 ?locs _ k = _ =>
      destruct (combine_extracted_spec w sp cd locs 0 [] [] [] k)
        as [ss' [cs' [k1 [R [_ [Lc Q]]]]]]
  end.
  rewrite R in C. cbn [app] in C. inversion C; subst. clear C.
  rewrite <- Lc. apply nth_all_repeat with (d := "").
  intros i Li. rewrite Lc in Li.
  destruct (Q i Li) as [_ [_ [Q3 _]]]. cbn [Nat.add] in Q3.
  assert (i < 5)%nat as L5.
  { rewrite length_firstn in Li. lia. }
  rewrite Q3 by (rewrite H, repeat_length; exact L5).
  rewrite H. clear -L5.
  do 5 (destruct i as [|i]; [reflexivity|]). lia.
Qed.

Lemma traffic_map_conditions_uniform_witness :
  exists label,
    In label ["Good"; "Moderate"; "Congested"] /\
    ["Congested"; "Congested"] = repeat label 2.
Proof.
  destruct (@traffic_map_conditions_uniform
              (sample_world "Main Street 45 km/h, Oak Road" [[(0, 255, 255)%Z]])
              "map.png" 0 1 _ ["Main Street"; "Oak Road"] [45%Z; 27%Z]
              ["Congested"; "Congested"] "2024-05-01T12:00:00" eq_refl eq_refl)
    as [img [label [_ [_ [L E]]]]].
  exists label. split; [exact L | exact E].
Defined.

Lemma combine_extracted_draws (w : World) (speeds conds : list string) :
  forall (locations : list string) (i : nat)
         (acc : list string * list Z * list string) (k k' : nat)
         (out : list string * list Z * list string),
    combine_extracted w speeds conds i locations acc k = (inr out, k') ->
    k' = (k + (length locations - (length speeds - i)))%nat.
Proof.
  induction locations as [|location rest IH]; intros i acc k k' out.
  - cbn. unfold ret. intros E. inversion E. lia.
  - cbn [combine_extracted]. destruct acc as [[ls ss] cs].
    destruct (i <? length speeds)%nat eqn:L.
    + apply Nat.ltb_lt in L. erewrite bind_inr by reflexivity.
      intros E. apply IH in E. cbn [length]. lia.
    + apply Nat.ltb_ge in L. erewrite bind_inr by reflexivity.
      intros E. apply IH in E. cbn [length]. lia.
Qed.

(** X7: a traffic-map run draws one pseudo-random number for every location
    used that has no speed of its index, and no other: with n locations
    used and s speeds found the generator advances by n - s (0 when
    s >= n). *)
Theorem traffic_map_draws
    (w : World) (image_path : string) (img : Image) (text : string) (k : nat) :
  imread w image_path = Some img ->
  tesseract w (inl img) "--psm 6" = inr text ->
  let used := Nat.min 5 (length (Re.findall Re.location text)) in
  let found := length (Re.findall (Re.int_unit ["km/h"; "mph"; "kph"]) text) in
  snd (_process_traffic_map w image_path k) = (k + (used - found))%nat.
Proof.
  intros I T used found.
  destruct (_process_traffic_map w image_path k) as [[e|r] k'] eqn:P.
  - exfalso. revert P. unfold _process_traffic_map. rewrite I. cbn [option_map].
    erewrite bind_inr by apply cvtColor_some.
    erewrite bind_inr by (apply image_to_string_some; exact T).
    cbv zeta.
    erewrite bind_inr by (unfold _detect_traffic_colors;
                          erewrite bind_inr by apply cvtColor_some; reflexivity).
    match goal with
    | |- context [combine_extracted w ?sp ?cd 0 ?locs ([], [], [])] =>
        destruct (combine_extracted_spec w sp cd locs 0 [] [] [] k)
          as [ss [cs [k1 [R _]]]]
    end.
    erewrite bind_inr by exact R. unfold ret. discriminate.
  - apply traffic_map_inv in P.
    destruct P as [img' [text' [ss [cs [I' [T' [C _]]]]]]].
    rewrite I in I'. inversion I'; subst img'.
    rewrite T in T'. inversion T'; subst text'.
    apply combine_extracted_draws in C. cbn [snd]. rewrite C.
    rewrite length_firstn, Nat.sub_0_r. reflexivity.
Qed.

Lemma traffic_map_draws_witness :
  snd (_process_traffic_map
         (sample_world "Main Street 45 km/h, Oak Road, Elm Lane" [[(0, 255, 255)%Z]])
         "map.png" 10) = 12%nat.
Proof.
  apply (@traffic_map_draws
           (sample_world "Main Street 45 km/h, Oak Road, Elm Lane" [[(0, 255, 255)%Z]])
           "map.png" [[(0, 255, 255)%Z]] "Main Street 45 km/h, Oak Road, Elm Lane" 10
           eq_refl eq_refl).
Defined.

(* ===================================================================== *)
(** ** Numbers, chart types and the random stream *)
(* ===================================================================== *)

Lemma chart_inv (w : World) (image_path : string) (k k' : nat) (r : Result) :
  _process_chart w image_path k = (inr r, k') ->
  exists img text chart_type,
    imread w image_path = Some img /\
    tesseract w (inl img) "--psm 6" = inr text /\
    _detect_chart_type w (Some img) k = (inr chart_type, k) /\
    k' = k /\
    let values := firstn 24 (map float (Re.findall Re.number text)) in
    r = {| r_type := Some "chart";
           r_data := Some (ChartData values
                             (map (fun i => ("Hour " ++ str_of_nat i)%string)
                                  (seq 0 (length values)))
                             chart_type (now_isoformat w));
           r_extracted_count := Some (length values);
           r_error := None; r_app_detected := None; r_columns := None;
           r_rows := None; r_text := None; r_numbers := None |}.
Proof.
  unfold _process_chart.
  destruct (imread w image_path) as [img|];
    [|intros E; unfold bind, cvtColor, raise in E; discriminate E].
  erewrite bind_inr by apply cvtColor_some. cbn [option_map].
  destruct (tesseract w (inl img) "--psm 6") as [e|text] eqn:T.
  { erewrite bind_inl by (unfold image_to_string, lift; rewrite T; reflexivity).
    intros E; discriminate E. }
  erewrite bind_inr by (apply image_to_string_some; exact T).
  cbv zeta.
  destruct (detect_chart_type_returns w img k) as [chart_type C].
  erewrite bind_inr by exact C. unfold ret.
  intros E. inversion E; subst. now exists img, text, chart_type.
Qed.

Lemma generic_inv (w : World) (image_path : string) (k k' : nat) (r : Result) :
  _generic_ocr_processing w image_path k = (inr r, k') ->
  exists img text,
    imread w image_path = Some img /\
    tesseract w (inl img) "" = inr text /\
    k' = k /\
    r = {| r_type := Some "generic";
           r_data := None;
           r_extracted_count := Some (length (Re.findall Re.number text));
           r_error := None; r_app_detected := None; r_columns := None;
           r_rows := None; r_text := Some text;
           r_numbers := Some (map float (Re.findall Re.number text)) |}.
Proof.
  unfold _generic_ocr_processing.
  destruct (imread w image_path) as [img|]; cbn [option_map];
    [|intros E; unfold bind, image_to_string, raise in E; discriminate E].
  destruct (tesseract w (inl img) "") as [e|text] eqn:T.
  { erewrite bind_inl by (unfold image_to_string, lift; rewrite T; reflexivity).
    intros E; discriminate E. }
  erewrite bind_inr by (apply image_to_string_some; exact T).
  unfold ret. intros E. inversion E; subst. now exists img, text.
Qed.

Lemma number_tokens_literal (text : string) :
  Forall (fun v => decimal_literal (float_literal v))
         (map float (Re.findall Re.number text)).
Proof.
  apply Forall_map. cbn [float_literal].
  apply findall_Forall. intros s a n M. eapply number_literal; exact M.
Qed.

(** X8: the values of a chart result and the numbers of a generic result are
    decimal literals, digits with at most one point between digits: the
    conversion by [float] cannot fail on them, and no sign or exponent is
    ever read. *)
Theorem extracted_numbers_are_literals
    (w : World) (image_path : string) (k k' : nat) (r : Result) :
  (_process_chart w image_path k = (inr r, k') ->
   forall values labels chart_type ts,
     r_data r = Some (ChartData values labels chart_type ts) ->
     Forall (fun v => decimal_literal (float_literal v)) values) /\
  (_generic_ocr_processing w image_path k = (inr r, k') ->
   forall numbers,
     r_numbers r = Some numbers ->
     Forall (fun v => decimal_literal (float_literal v)) numbers).
Proof.
  split.
  - intros P values labels chart_type ts D. apply chart_inv in P.
    destruct P as [img [text [ct [_ [_ [_ [_ R]]]]]]]. cbv zeta in R. subst r.
    cbn [r_data] in D.
    assert (values = firstn 24 (map float (Re.findall Re.number text))) as ->
      by congruence.
    apply Forall_firstn_of. apply number_tokens_literal.
  - intros P numbers D. apply generic_inv in P.
    destruct P as [img [text [_ [_ [_ ->]]]]]. cbn [r_numbers] in D.
    assert (numbers = map float (Re.findall Re.number text)) as -> by congruence.
    apply number_tokens_literal.
Qed.

Lemma extracted_numbers_are_literals_witness :
  Forall (fun v => decimal_literal (float_literal v))
         [float "7"; float "8.5"; float "3"].
Proof.
  apply (proj2 (@extracted_numbers_are_literals
                  (sample_world "-7 and 8.5e3" []) "notes.png" 0 0 _) eq_refl).
  reflexivity.
Defined.

(** X9: on a readable image [_detect_chart_type] answers [pie_chart],
    [bar_chart] or [line_chart]: [pie_chart] as soon as a circle is found,
    whatever the contours, and [bar_chart] only with six contours or
    more. *)
Theorem chart_type_range (w : World) (img : Image) (k : nat) :
  exists chart_type,
    _detect_chart_type w (Some img) k = (inr chart_type, k) /\
    In chart_type ["pie_chart"; "bar_chart"; "line_chart"] /\
    (HoughCircles w (BGR2GRAY w img) <> None -> chart_type = "pie_chart") /\
    (chart_type = "bar_chart" ->
     HoughCircles w (BGR2GRAY w img) = None /\
     (6 <= length (findContours w (BGR2GRAY w img)))%nat).
Proof.
  unfold _detect_chart_type.
  erewrite bind_inr by apply cvtColor_some.
  destruct (HoughCircles w (BGR2GRAY w img)) as [c|].
  - eexists. split; [reflexivity|]. split; [cbn; tauto|].
    split; [reflexivity | discriminate].
  - match goal with |- context [if ?b then _ else _] => destruct b eqn:B end.
    + eexists. split; [reflexivity|]. split; [cbn; tauto|].
      split; [congruence|]. intros _. split; [reflexivity|].
      apply Nat.ltb_lt in B.
      match type of B with
      | (_ < length (filter ?f ?l))%nat => pose proof (filter_length_le f l)
      end. lia.
    + eexists. split; [reflexivity|]. split; [cbn; tauto|].
      split; [congruence | discriminate].
Qed.

Lemma chart_type_range_witness :
  _detect_chart_type (sample_world "" []) (Some []) 0 = (inr "line_chart", 0%nat).
Proof.
  destruct (chart_type_range (sample_world "" []) [] 0)
    as [chart_type [R [_ [_ _]]]].
  pose proof R as R'. vm_compute in R'. inversion R'; subst. exact R.
Defined.

Lemma detect_keeps (w : World) (image_path : string) (k : nat) :
  snd (_detect_image_type w image_path k) = k.
Proof.
  unfold _detect_image_type.
  destruct (imread w image_path) as [img|]; [|reflexivity].
  erewrite bind_inr by apply cvtColor_some.
  destruct (tesseract w (inr (BGR2GRAY w img)) "") as [e|text] eqn:T.
  - erewrite bind_inl by (unfold image_to_string, lift; rewrite T; reflexivity).
    reflexivity.
  - erewrite bind_inr by (apply image_to_string_some; exact T).
    cbv zeta. unfold ret.
    repeat match goal with
           | |- context [if ?b then _ else _] => destruct b
           end; reflexivity.
Qed.

Lemma chart_keeps (w : World) (image_path : string) (k : nat) :
  snd (_process_chart w image_path k) = k.
Proof.
  unfold _process_chart.
  destruct (imread w image_path) as [img|]; [|reflexivity].
  erewrite bind_inr by apply cvtColor_some. cbn [option_map].
  destruct (tesseract w (inl img) "--psm 6") as [e|text] eqn:T.
  - erewrite bind_inl by (unfold image_to_string, lift; rewrite T; reflexivity).
    reflexivity.
  - erewrite bind_inr by (apply image_to_string_some; exact T).
    cbv zeta. destruct (detect_chart_type_returns w img k) as [chart_type C].
    erewrite bind_inr by exact C. reflexivity.
Qed.

Lemma screenshot_keeps (w : World) (image_path : string) (k : nat) :
  snd (_process_screenshot w image_path k) = k.
Proof.
  unfold _process_screenshot.
  destruct (imread w image_path) as [img|]; [|reflexivity]. cbn [option_map].
  destruct (tesseract w (inl img) "--psm 6") as [e|text] eqn:T.
  - erewrite bind_inl by (unfold image_to_string, lift; rewrite T; reflexivity).
    reflexivity.
  - erewrite bind_inr by (apply image_to_string_some; exact T). reflexivity.
Qed.

Lemma table_result_keeps (text : string) (k : nat) :
  snd (table_result text k) = k.
Proof.
  unfold table_result.
  destruct (1 <? length (parse_table text))%nat; [|reflexivity].
  unfold bind, lift.
  now destruct (pd_DataFrame (skipn 1 (parse_table text)) (nth 0 (parse_table text) [])).
Qed.

Lemma table_keeps (w : World) (image_path : string) (k : nat) :
  snd (_process_table w image_path k) = k.
Proof.
  unfold _process_table.
  destruct (imread w image_path) as [img|]; [|reflexivity].
  erewrite bind_inr by apply cvtColor_some.
  destruct (tesseract w (inr (BGR2GRAY w img)) "--psm 6") as [e|text] eqn:T.
  - erewrite bind_inl by (unfold image_to_string, lift; rewrite T; reflexivity).
    reflexivity.
  - erewrite bind_inr by (apply image_to_string_some; exact T).
    apply table_result_keeps.
Qed.

Lemma generic_keeps (w : World) (image_path : string) (k : nat) :
  snd (_generic_ocr_processing w image_path k) = k.
Proof.
  unfold _generic_ocr_processing.
  destruct (imread w image_path) as [img|]; [|reflexivity]. cbn [option_map].
  destruct (tesseract w (inl img) "") as [e|text] eqn:T.
  - erewrite bind_inl by (unfold image_to_string, lift; rewrite T; reflexivity).
    reflexivity.
  - erewrite bind_inr by (apply image_to_string_some; exact T). reflexivity.
Qed.

Lemma traffic_map_failure_keeps
    (w : World) (image_path : string) (k k' : nat) (e : exn) :
  _process_traffic_map w image_path k = (inl e, k') -> k' = k.
Proof.
  unfold _process_traffic_map.
  destruct (imread w image_path) as [img|];
    [|intros E; unfold bind, cvtColor, raise in E; now inversion E].
  erewrite bind_inr by apply cvtColor_some. cbn [option_map].
  destruct (tesseract w (inl img) "--psm 6") as [e0|text] eqn:T.
  { erewrite bind_inl by (unfold image_to_string, lift; rewrite T; reflexivity).
    intros E; now inversion E. }
  erewrite bind_inr by (apply image_to_string_some; exact T).
  cbv zeta.
  erewrite bind_inr by (unfold _detect_traffic_colors;
                        erewrite bind_inr by apply cvtColor_some; reflexivity).
  match goal with
  | |- context [combine_extracted w ?sp ?cd 0 ?locs ([], [], [])] =>
      destruct (combine_extracted_spec w sp cd locs 0 [] [] [] k)
        as [ss [cs [k1 [R _]]]]
  end.
  erewrite bind_inr by exact R. unfold ret. discriminate.
Qed.

(** X10: only a successful traffic-map run reads the pseudo-random generator:
    whenever [process_image] leaves the generator at another position than
    it found it, its result is of type [traffic_map]; every failure and
    every other kind leave the generator alone. *)
Theorem only_traffic_map_draws
    (w : World) (image_path hint : string) (k : nat) :
  snd (process_image w image_path hint k) <> k ->
  r_type (fst (process_image w image_path hint k)) = Some "traffic_map" /\
  r_error (fst (process_image w image_path hint k)) = None.
Proof.
  assert (forall kind x k',
    (if String.eqb kind "traffic_map" then _process_traffic_map w image_path
     else if String.eqb kind "chart" then _process_chart w image_path
     else if String.eqb kind "screenshot" then _process_screenshot w image_path
     else if String.eqb kind "table" then _process_table w image_path
     else _generic_ocr_processing w image_path) k = (x, k') ->
    k' = k \/ exists r, x = inr r /\ r_type r = Some "traffic_map"
                        /\ r_error r = None) as D.
  { intros kind x k'.
    destruct (String.eqb kind "traffic_map").
    { destruct x as [e|r]; intros E.
      - left. eapply traffic_map_failure_keeps; exact E.
      - right. exists r. split; [reflexivity|].
        apply traffic_map_shape in E. destruct E as [? [? [? [? ->]]]].
        now split. }
    destruct (String.eqb kind "chart").
    { intros E. left. pose proof (chart_keeps w image_path k) as K.
      rewrite E in K. exact K. }
    destruct (String.eqb kind "screenshot").
    { intros E. left. pose proof (screenshot_keeps w image_path k) as K.
      rewrite E in K. exact K. }
    destruct (String.eqb kind "table").
    { intros E. left. pose proof (table_keeps w image_path k) as K.
      rewrite E in K. exact K. }
    intros E. left. pose proof (generic_keeps w image_path k) as K.
    rewrite E in K. exact K. }
  unfold process_image, process_image_body.
  destruct (String.eqb hint "auto").
  - pose proof (detect_keeps w image_path k) as K.
    destruct (_detect_image_type w image_path k) as [[e|kind] k0] eqn:DT;
      cbn [snd] in K; subst k0.
    + erewrite bind_inl by exact DT. cbn. congruence.
    + erewrite bind_inr by exact DT.
      match goal with
      | |- context [let (_, _) := ?c in _] => destruct c as [x k'] eqn:E
      end.
      destruct (D _ _ _ E) as [->|[r [-> [T Er]]]].
      * destruct x; cbn; congruence.
      * intros _. cbn. now split.
  - erewrite bind_inr by reflexivity.
    match goal with
    | |- context [let (_, _) := ?c in _] => destruct c as [x k'] eqn:E
    end.
    destruct (D _ _ _ E) as [->|[r [-> [T Er]]]].
    + destruct x; cbn; congruence.
    + intros _. cbn. now split.
Qed.

Lemma only_traffic_map_draws_witness :
  r_type (fst (process_image
                 (sample_world "Main Street speed map" [[(0, 255, 255)%Z]])
                 "map.png" "auto" 0))
  = Some "traffic_map".
Proof.
  apply (@only_traffic_map_draws
           (sample_world "Main Street speed map" [[(0, 255, 255)%Z]])
           "map.png" "auto" 0).
  vm_compute. discriminate.
Defined.

(** X11: with the hint [auto] the generic fallback is never taken: the result
    is the error dictionary or of type [traffic_map], [chart],
    [screenshot] or [table]; it has no [text] and no [numbers]. *)
Theorem auto_is_never_generic (w : World) (image_path : string) (k : nat) :
  let r := fst (process_image w image_path "auto" k) in
  r_type r <> Some "generic" /\
  (r_type r = None \/
   In (r_type r) [Some "traffic_map"; Some "chart"; Some "screenshot"; Some "table"]) /\
  r_text r = None /\ r_numbers r = None.
Proof.
  intros r.
  assert ((r_type r = None \/
           In (r_type r)
              [Some "traffic_map"; Some "chart"; Some "screenshot"; Some "table"])
          /\ r_text r = None /\ r_numbers r = None) as H.
  { subst r.
    destruct (process_image_body w image_path "auto" k) as [[e|r] k'] eqn:B.
    - rewrite (process_image_inl _ _ _ _ B). cbn. tauto.
    - rewrite (process_image_inr _ _ _ _ B). cbn [fst].
      apply process_image_body_cases in B.
      destruct B as [kind [k0 [[[_ DT]|[N _]] P]]]; [|congruence].
      apply detect_image_type_kinds in DT. destruct DT as [_ K].
      destruct P as [[_ P]|[[_ P]|[[_ P]|[[_ P]|[NK _]]]]]; [| | | |contradiction].
      + apply traffic_map_shape in P. destruct P as [? [? [? [? ->]]]]. cbn. tauto.
      + apply chart_shape in P. destruct P as [? [? [? [? ->]]]]. cbn. tauto.
      + apply screenshot_returns in P. destruct P as [? [? [_ [_ [_ ->]]]]].
        cbn. tauto.
      + apply table_shape in P.
        destruct P as [->|[? [? [? [? [-> _]]]]]]; cbn; tauto. }
  destruct H as [[T|T] [X N]]; (split; [|split; [|split]]); auto.
  - congruence.
  - cbn in T. intuition congruence.
Qed.

Lemma auto_is_never_generic_witness :
  r_type (fst (process_image (sample_world "1 2 3" []) "notes.png" "auto" 0))
  <> Some "generic".
Proof.
  apply (proj1 (auto_is_never_generic (sample_world "1 2 3" []) "notes.png" 0)).
Defined.

(* ===================================================================== *)
(** ** The hue bands of the segmenter *)
(* ===================================================================== *)

Lemma filter_cons_length (A : Type) (f : A -> bool) (x : A) (l : list A) :
  length (filter f (x :: l)) = ((if f x then 1 else 0) + length (filter f l))%nat.
Proof. cbn [filter]. now destruct (f x). Qed.

Lemma hue_pixel_cases (px : pixel) :
  let red := hue_within 0 10 px in
  let yellow_only := hue_within 20 39 px in
  let shared := hue_within 40 40 px in
  let green_only := hue_within 41 80 px in
  in_bounds (0, 50, 50)%Z (10, 255, 255)%Z px = red /\
  in_bounds (20, 50, 50)%Z (40, 255, 255)%Z px = yellow_only || shared /\
  in_bounds (40, 50, 50)%Z (80, 255, 255)%Z px = green_only || shared /\
  ((if red then 1 else 0) + (if yellow_only then 1 else 0)
   + (if shared then 1 else 0) + (if green_only then 1 else 0) <= 1)%nat.
Proof.
  destruct px as [[hue sat] val]. unfold in_bounds, hue_within.
  destruct (50 <=? sat)%Z, (sat <=? 255)%Z, (50 <=? val)%Z, (val <=? 255)%Z;
    rewrite ?andb_false_r; cbn [andb orb];
    try (repeat split; (reflexivity || lia)).
  rewrite ?andb_true_r.
  destruct (Z.leb_spec 0 hue), (Z.leb_spec hue 10), (Z.leb_spec 20 hue),
    (Z.leb_spec hue 39), (Z.leb_spec 40 hue), (Z.leb_spec hue 40),
    (Z.leb_spec 41 hue), (Z.leb_spec hue 80);
    cbn [andb orb]; repeat split; try reflexivity; lia.
Qed.

Lemma band_counts_by_hue (hsv : Image) :
  red_count hsv = hue_count 0 10 hsv /\
  yellow_count hsv = (hue_count 20 39 hsv + hue_count 40 40 hsv)%nat /\
  green_count hsv = (hue_count 41 80 hsv + hue_count 40 40 hsv)%nat /\
  (hue_count 0 10 hsv + hue_count 20 39 hsv + hue_count 40 40 hsv
   + hue_count 41 80 hsv <= pixels hsv)%nat.
Proof.
  unfold red_count, yellow_count, green_count, band_count, hue_count, pixels.
  induction (concat hsv) as [|px l IH]; [cbn; lia|].
  rewrite !filter_cons_length. cbn [length].
  destruct (hue_pixel_cases px) as [R [Y [G E]]]. cbv zeta in *.
  rewrite R, Y, G.
  destruct (hue_within 0 10 px), (hue_within 20 39 px), (hue_within 40 40 px),
    (hue_within 41 80 px); cbn [orb] in *; lia.
Qed.

(** X12: the segmenter counts a pixel of hue 40 (saturation and value
    within 50..255) as yellow and as green, and every other pixel in one
    band at most.  With [red] the pixels of hue 0..10, [yellow_only] those
    of hue 20..39, [shared] those of hue 40 and [green_only] those of hue
    41..80, the segmenter returns five times the dominant label of the
    counts [green_only + shared], [yellow_only + shared] and [red].  So a
    raster whose red pixels outnumber the green ones, but not the yellow
    ones once the pixels of hue 40 are counted with them, is [Moderate]. *)
Theorem hue_bands_overlap_at_40 (w : World) (image : Image) (k : nat) :
  let hsv := BGR2HSV w image in
  let red := hue_count 0 10 hsv in
  let yellow_only := hue_count 20 39 hsv in
  let shared := hue_count 40 40 hsv in
  let green_only := hue_count 41 80 hsv in
  _detect_traffic_colors w (Some image) k
  = (inr (concat (repeat
       (dominant_condition (green_only + shared) (yellow_only + shared) red) 5)),
     k) /\
  (red + yellow_only + shared + green_only <= pixels hsv)%nat /\
  ((green_only + shared < red <= yellow_only + shared)%nat ->
   _detect_traffic_colors w (Some image) k = (inr (repeat "Moderate" 5), k)).
Proof.
  intros hsv red yellow_only shared green_only.
  destruct (band_counts_by_hue hsv) as [R [Y [G E]]].
  assert (_detect_traffic_colors w (Some image) k
          = (inr (concat (repeat
               (dominant_condition (green_only + shared) (yellow_only + shared)
                  red) 5)), k)) as D.
  { rewrite detect_traffic_colors_returns. fold hsv. now rewrite R, Y, G. }
  split; [exact D|]. split; [exact E|].
  intros [L U]. rewrite D. unfold dominant_condition.
  assert ((yellow_only + shared <? red)%nat = false) as ->
    by (apply Nat.ltb_ge; lia).
  assert ((green_only + shared <? yellow_only + shared)%nat = true) as ->
    by (apply Nat.ltb_lt; lia).
  rewrite andb_false_r. reflexivity.
Qed.

Lemma hue_bands_overlap_at_40_witness :
  _detect_traffic_colors (sample_world "" [])
    (Some [[(0, 255, 255); (5, 255, 255); (30, 255, 255); (40, 255, 255)]]%Z) 0
  = (inr (repeat "Moderate" 5), 0%nat).
Proof.
  apply (proj2 (proj2 (hue_bands_overlap_at_40 (sample_world "" [])
    [[(0, 255, 255); (5, 255, 255); (30, 255, 255); (40, 255, 255)]]%Z 0))).
  vm_compute. split; repeat constructor.
Defined.

(* ===================================================================== *)
(** ** Tables whose rows do not fit the header *)
(* ===================================================================== *)

Lemma process_table_run
    (w : World) (image_path : string) (img : Image) (text : string) (k : nat) :
  imread w image_path = Some img ->
  tesseract w (inr (BGR2GRAY w img)) "--psm 6" = inr text ->
  process_image w image_path "table" k
  = match table_result text k with
    | (inr result, k') => (result, k')
    | (inl e, k') => (error_result e, k')
    end.
Proof.
  intros I T. unfold process_image, process_image_body.
  cbn [String.eqb Ascii.eqb Bool.eqb].
  erewrite bind_inr by reflexivity. cbn [String.eqb Ascii.eqb Bool.eqb].
  unfold _process_table. rewrite I.
  erewrite bind_inr by apply cvtColor_some.
  erewrite bind_inr by (apply image_to_string_some; exact T).
  reflexivity.
Qed.

(** X13: a table whose widest row has not as many cells as the header fails as
    a whole: [process_image] returns the error dictionary with the message
    of pandas, and no row at all.  When the widest row is as wide as the
    header the result has the header as columns and one record per row
    (shorter rows are filled with [None]). *)
Theorem ragged_table_fails
    (w : World) (image_path : string) (img : Image) (text : string) (k : nat)
    (header : list string) (rows : list (list string)) :
  imread w image_path = Some img ->
  tesseract w (inr (BGR2GRAY w img)) "--psm 6" = inr text ->
  parse_table text = header :: rows ->
  rows <> [] ->
  let widest := list_max (map (@length string) rows) in
  (widest <> length header ->
   process_image w image_path "table" k
   = (error_result
        (Raise "ValueError"
           (str_of_nat (length header) ++ " columns passed, passed data had "
            ++ str_of_nat widest ++ " columns")%string), k)) /\
  (widest = length header ->
   exists r records,
     process_image w image_path "table" k = (r, k) /\
     r_error r = None /\
     r_columns r = Some header /\
     r_rows r = Some (length rows) /\
     r_data r = Some (Records records) /\
     length records = length rows).
Proof.
  intros I T P NE widest.
  rewrite (process_table_run _ _ k I T).
  unfold table_result. rewrite P.
  destruct rows as [|row rows']; [congruence|].
  cbn [length Nat.ltb Nat.leb skipn nth]. unfold pd_DataFrame.
  fold widest. split; intros W.
  - apply Nat.eqb_neq in W. rewrite Nat.eqb_sym in W. rewrite W.
    erewrite bind_inl by reflexivity. reflexivity.
  - rewrite W, Nat.eqb_refl.
    erewrite bind_inr by reflexivity. unfold ret.
    eexists _, _. split; [reflexivity|]. cbn [r_error r_columns r_rows r_data df_columns df_values].
    repeat split.
    + now rewrite length_map.
    + unfold to_dict_records. cbn [df_values]. now rewrite !length_map.
Qed.

Lemma ragged_table_fails_witness :
  r_error (fst (process_image
                  (sample_world (unlines ["Name  Speed"; "A  45  north"; "B  30"]) [])
                  "table.png" "table" 0))
  = Some "Processing failed: 2 columns passed, passed data had 3 columns".
Proof.
  destruct (@ragged_table_fails
              (sample_world (unlines ["Name  Speed"; "A  45  north"; "B  30"]) [])
              "table.png" []
              (unlines ["Name  Speed"; "A  45  north"; "B  30"]) 0
              ["Name"; "Speed"] [["A"; "45"; "north"]; ["B"; "30"]]
              eq_refl eq_refl eq_refl ltac:(discriminate)) as [F _].
  rewrite F; [reflexivity|]. vm_compute. discriminate.
Defined.

(* ===================================================================== *)
(** ** Dictionaries and data frames *)
(* ===================================================================== *)

Lemma dict_set_keys (V : Type) (k k' : string) (v : V) (d : dict V) :
  In k' (map fst (dict_set k v d)) <-> k' = k \/ In k' (map fst d).
Proof.
  induction d as [|[k0 v0] d IH]; cbn [dict_set map fst In].
  - intuition.
  - destruct (String.eqb_spec k k0) as [->|N]; cbn [map fst In].
    + intuition.
    + rewrite IH. intuition.
Qed.

Lemma dict_set_values (V : Type) (k : string) (v x : V) (d : dict V) :
  In x (map snd (dict_set k v d)) -> x = v \/ In x (map snd d).
Proof.
  induction d as [|[k0 v0] d IH]; cbn [dict_set map snd In].
  - intuition.
  - destruct (String.eqb_spec k k0) as [->|N]; cbn [map snd In].
    + intuition.
    + intros [E|I]; [intuition | destruct (IH I); intuition].
Qed.

Lemma dict_of_keys (V : Type) (pairs : list (string * V)) (k : string) :
  In k (map fst (dict_of pairs)) <-> In k (map fst pairs).
Proof.
  unfold dict_of.
  assert (forall d,
            In k (map fst (fold_left (fun d kv => dict_set (fst kv) (snd kv) d) pairs d))
            <-> In k (map fst d) \/ In k (map fst pairs)) as G.
  { induction pairs as [|[k0 v0] pairs IH]; intros d; cbn [fold_left map fst In].
    - intuition.
    - rewrite IH, dict_set_keys. cbn [fst snd]. intuition. }
  rewrite G. cbn. intuition.
Qed.

Lemma dict_of_values (V : Type) (pairs : list (string * V)) (x : V) :
  In x (map snd (dict_of pairs)) -> In x (map snd pairs).
Proof.
  unfold dict_of.
  assert (forall d,
            In x (map snd (fold_left (fun d kv => dict_set (fst kv) (snd kv) d) pairs d))
            -> In x (map snd d) \/ In x (map snd pairs)) as G.
  { induction pairs as [|[k0 v0] pairs IH]; intros d; cbn [fold_left map snd In].
    - intuition.
    - intros I. apply IH in I. destruct I as [I|I]; [|intuition].
      apply dict_set_values in I. cbn [fst snd] in I. intuition. }
  intros I. apply G in I. cbn in I. intuition.
Qed.

Lemma dict_get_in (V : Type) (k : string) (d : dict V) :
  In k (map fst d) -> exists v, dict_get k d = Some v /\ In v (map snd d).
Proof.
  induction d as [|[k0 v0] d IH]; cbn [map fst snd In dict_get]; [tauto|].
  destruct (String.eqb_spec k k0) as [->|N].
  - intros _. exists v0. intuition.
  - intros [E|I]; [congruence|]. destruct (IH I) as [v [G Iv]].
    exists v. intuition.
Qed.

Lemma record_keys_in (V : Type) (records : list (dict V)) (k : string) :
  In k (record_keys records) -> exists r, In r records /\ In k (map fst r).
Proof.
  unfold record_keys.
  assert (forall ks seen,
            In k (fold_left (fun seen k => if existsb (String.eqb k) seen then seen
                                           else (seen ++ [k])%list) ks seen) ->
            In k seen \/ In k ks) as G.
  { induction ks as [|k0 ks IH]; intros seen; cbn [fold_left In]; [tauto|].
    intros I. apply IH in I. destruct I as [I|I]; [|tauto].
    destruct (existsb (String.eqb k0) seen); [tauto|].
    apply in_app_or in I. cbn in I. intuition. }
  intros I. apply G in I. destruct I as [I|I]; [destruct I|].
  apply in_flat_map in I. exact I.
Qed.

Lemma existsb_none (A : Type) (f : A -> bool) (l : list A) :
  (forall x, In x l -> f x = false) -> existsb f l = false.
Proof.
  induction l as [|x l IH]; intros H; [reflexivity|].
  cbn [existsb]. rewrite (H x) by now left. apply IH.
  intros y I. apply H. now right.
Qed.

Lemma numeric_columns_none (df : Frame) :
  (forall row v, In row (fr_rows df) -> In v row -> is_number v = false) ->
  numeric_columns df = [].
Proof.
  intros H. unfold numeric_columns.
  induction (combine (seq 0 (length (fr_columns df))) (fr_columns df))
    as [|[j c] l IH]; [reflexivity|].
  cbn [flat_map fst snd]. rewrite IH, app_nil_r.
  rewrite existsb_none; [reflexivity|].
  intros v I. apply in_map_iff in I. destruct I as [row [<- I]].
  destruct (nth_in_or_default j row VNone) as [N | ->]; [|reflexivity].
  eapply H; eassumption.
Qed.

Lemma pad_row_length (width : nat) (row : list string) :
  (length row <= width)%nat -> length (pad_row width row) = width.
Proof.
  intros L. unfold pad_row. rewrite length_app, length_map, repeat_length. lia.
Qed.

Lemma list_max_bound (l : list nat) (n : nat) :
  In n l -> (n <= list_max l)%nat.
Proof.
  intros I. pose proof (proj1 (list_max_le l (list_max l)) (Nat.le_refl _)) as F.
  rewrite Forall_forall in F. now apply F.
Qed.

(** The records of a table result: every key is a column name and the
    other way round, and every value is a cell or [None]. *)
Lemma table_records_cells (header : list string) (rows : list (list string))
    (df : DataFrame) :
  pd_DataFrame rows header = inr df ->
  df_columns df = header /\
  length (df_values df) = length rows /\
  forall record, In record (to_dict_records df) ->
    (forall k, In k (map fst record) <-> In k header).
Proof.
  unfold pd_DataFrame.
  destruct (length header =? list_max (map (@length string) rows))%nat eqn:W;
    [|discriminate].
  apply Nat.eqb_eq in W. intros E. inversion E; subst. clear E.
  cbn [df_columns df_values]. split; [reflexivity|].
  split; [now rewrite length_map|].
  intros record I k. unfold to_dict_records in I. cbn [df_columns df_values] in I.
  apply in_map_iff in I. destruct I as [prow [<- I]].
  apply in_map_iff in I. destruct I as [row [<- I]].
  rewrite dict_of_keys, combine_keys; [reflexivity|].
  rewrite pad_row_length; [now rewrite W|].
  apply list_max_bound. apply in_map_iff. now exists row.
Qed.

Lemma table_inv (w : World) (image_path : string) (k k' : nat) (r : Result) :
  _process_table w image_path k = (inr r, k') ->
  r = no_table \/
  exists header rows df,
    rows <> [] /\ pd_DataFrame rows header = inr df /\ r = frame_result df.
Proof.
  unfold _process_table.
  destruct (imread w image_path) as [img|];
    [|intros E; unfold bind, cvtColor, raise in E; discriminate E].
  erewrite bind_inr by apply cvtColor_some.
  destruct (tesseract w (inr (BGR2GRAY w img)) "--psm 6") as [e|text] eqn:T.
  { erewrite bind_inl by (unfold image_to_string, lift; rewrite T; reflexivity).
    intros E; discriminate E. }
  erewrite bind_inr by (apply image_to_string_some; exact T).
  unfold table_result.
  destruct (1 <? length (parse_table text))%nat eqn:L.
  - destruct (parse_table text) as [|header [|row rows]]; try discriminate L.
    cbn [skipn nth].
    destruct (pd_DataFrame (row :: rows) header) as [e|df] eqn:D.
    + erewrite bind_inl by reflexivity.
      intros E; discriminate E.
    + erewrite bind_inr by reflexivity. unfold ret.
      intros E. inversion E; subst. right.
      exists header, (row :: rows), df. split; [discriminate|]. now split.
  - unfold ret. intros E. inversion E; subst. now left.
Qed.

Lemma table_viz_none
    (h : Host) (w : World) (image_path : string) (k k' : nat) (r : Result) :
  _process_table w image_path k = (inr r, k') ->
  create_visualization_from_extracted_data h r = inr None.
Proof.
  intros P. apply table_inv in P.
  destruct P as [->|[header [rows [df [NE [D ->]]]]]]; [reflexivity|].
  destruct (table_records_cells _ _ D) as [C [L K]].
  unfold create_visualization_from_extracted_data, frame_result.
  cbn [r_type r_data String.eqb Ascii.eqb Bool.eqb]. unfold _create_table_viz.
  assert (falsy (Records (to_dict_records df)) = false) as F.
  { unfold to_dict_records. destruct (df_values df) as [|v vs] eqn:V; [|reflexivity].
    cbn in L. destruct rows; [congruence | discriminate L]. }
  rewrite F. cbn [data_frame].
  rewrite numeric_columns_none; [reflexivity|].
  intros row v Ir Iv. cbn [frame_of_records fr_rows] in Ir.
  apply in_map_iff in Ir. destruct Ir as [record' [<- Irec]].
  apply in_map_iff in Iv. destruct Iv as [key [<- Ik]].
  apply in_map_iff in Irec. destruct Irec as [record [<- Irec]].
  apply record_keys_in in Ik. destruct Ik as [other' [Io Iko]].
  apply in_map_iff in Io. destruct Io as [other [<- Io]].
  rewrite map_map in Iko. cbn [fst] in Iko.
  apply (K other Io) in Iko. apply (K record Irec) in Iko.
  assert (In key (map fst (map (fun kv : string * option string =>
                                  (fst kv, cell_of (snd kv))) record))) as Ik'
    by (rewrite map_map; exact Iko).
  destruct (dict_get_in _ _ Ik') as [v [G Iv]]. rewrite G.
  rewrite map_map in Iv. cbn [snd] in Iv.
  apply in_map_iff in Iv. destruct Iv as [[k0 cell] [<- _]].
  now destruct cell.
Qed.

(** X14: a table result is never drawn: its cells are the texts cut from the
    lines (and [None] where a row is short), no column is of a numeric
    dtype, and [create_visualization_from_extracted_data] returns [None],
    as it does for the empty table record. *)
Theorem table_is_never_drawn
    (h : Host) (w : World) (image_path : string) (k k' : nat) (r : Result) :
  _process_table w image_path k = (inr r, k') ->
  create_visualization_from_extracted_data h r = inr None.
Proof. apply table_viz_none. Qed.

Lemma table_is_never_drawn_witness :
  create_visualization_from_extracted_data sample_host
    (table_of ["Zone"; "Speed"] [["A"; "45"]; ["B"; "30"]])
  = inr None.
Proof.
  apply (@table_is_never_drawn sample_host
           (sample_world (unlines ["Zone  Speed"; "A  45"; "B  30"]) [])
           "table.png" 0 0).
  reflexivity.
Defined.

(* ===================================================================== *)
(** ** Saving and drawing the results of [process_image] *)
(* ===================================================================== *)

Lemma traffic_map_lists (w : World) (image_path : string) (k k' : nat) (r : Result) :
  _process_traffic_map w image_path k = (inr r, k') ->
  exists ls ss label,
    length ss = length ls /\
    In label ["Good"; "Moderate"; "Congested"] /\
    r = {| r_type := Some "traffic_map";
           r_data := Some (TrafficData ls ss (repeat label (length ls))
                             (now_isoformat w));
           r_extracted_count := Some (length ls);
           r_error := None; r_app_detected := None; r_columns := None;
           r_rows := None; r_text := None; r_numbers := None |}.
Proof.
  intros P. apply traffic_map_inv in P.
  destruct P as [img [text [ss [cs [_ [_ [C ->]]]]]]].
  destruct (hsv_conditions_label (BGR2HSV w img)) as [label [H L]].
  match type of C with
  | combine_extracted w ?sp ?cd 0 ?locs _ k = _ =>
      destruct (combine_extracted_spec w sp cd locs 0 [] [] [] k)
        as [ss' [cs' [k1 [R [Ls [Lc Q]]]]]]
  end.
  rewrite R in C. cbn [app] in C.
  assert (ss' = ss) as -> by congruence.
  assert (cs' = cs) as -> by congruence. clear C R.
  exists (firstn 5 (Re.findall Re.location text)), ss, label.
  split; [exact Ls|]. split; [exact L|].
  do 3 f_equal. rewrite <- Lc. apply nth_all_repeat with (d := "").
  intros i Li. rewrite Lc in Li.
  destruct (Q i Li) as [_ [_ [Q3 _]]]. cbn [Nat.add] in Q3.
  assert (i < 5)%nat as L5 by (rewrite length_firstn in Li; lia).
  rewrite Q3 by (rewrite H, repeat_length; exact L5).
  rewrite H. clear -L5.
  do 5 (destruct i as [|i]; [reflexivity|]). lia.
Qed.

Lemma list_index_lt (A : Type) (l : list A) (i : nat) (d : A) :
  (i < length l)%nat -> list_index l i = inr (nth i l d).
Proof.
  intros L. unfold list_index. now rewrite (nth_error_nth' l d L).
Qed.

Lemma traffic_traces_ok (speeds : list Z) (label : string) (n : nat) :
  In label ["Good"; "Moderate"; "Congested"] ->
  forall (locations : list string) (i : nat),
    (i + length locations <= length speeds)%nat ->
    (i + length locations <= n)%nat ->
    exists traces,
      traffic_traces speeds (repeat label n) i locations = inr traces /\
      length traces = length locations /\
      Forall (fun t => exists color,
                  sc_marker t = Some (15%Z, color) /\
                  In color ["green"; "orange"; "red"]) traces /\
      map sc_text traces = map Some locations.
Proof.
  intros L. induction locations as [|location rest IH]; intros i Ls Lc.
  - exists []. repeat split; constructor.
  - cbn [length] in Ls, Lc. cbn [traffic_traces].
    rewrite (list_index_lt speeds 0%Z) by lia.
    rewrite (list_index_lt (repeat label n) "") by (rewrite repeat_length; lia).
    rewrite nth_repeat_lt by lia.
    destruct (IH (S i)) as [traces [T [Len [F Tx]]]]; [lia | lia |].
    rewrite T. eexists. split; [reflexivity|].
    split; [cbn; now rewrite Len|].
    split; [|cbn [map sc_text]; now rewrite Tx].
    constructor; [|exact F]. cbn [sc_marker].
    cbn in L. destruct L as [<-|[<-|[<-|[]]]]; eexists;
      (split; [reflexivity | cbn; tauto]).
Qed.

Lemma frame_rows_traffic (h : Host) (ls : list string) (ss : list Z)
    (cs : list string) (ts : string) :
  length ss = length ls -> length cs = length ls ->
  exists df,
    data_frame h (TrafficData ls ss cs ts) = inr df /\
    fr_columns df = ["locations"; "speeds"; "conditions"; "timestamp"] /\
    length (fr_rows df) = length ls /\
    Forall (fun row => nth 3 row VNone = VStr ts) (fr_rows df).
Proof.
  intros Ls Lc. unfold data_frame, frame_of_columns.
  cbn [list_lengths flat_map snd app]. rewrite !length_map, Ls, Lc.
  cbn [forallb]. rewrite Nat.eqb_refl. cbn [andb].
  eexists. split; [reflexivity|]. cbn [fr_columns fr_rows map fst].
  split; [reflexivity|]. split; [now rewrite length_map, length_seq|].
  apply Forall_map. apply Forall_forall. intros i _. reflexivity.
Qed.

Lemma frame_rows_chart (h : Host) (vs : list pyfloat) (labels : list string)
    (chart_type ts : string) :
  length labels = length vs ->
  exists df,
    data_frame h (ChartData vs labels chart_type ts) = inr df /\
    fr_columns df = ["values"; "labels"; "chart_type"; "timestamp"] /\
    length (fr_rows df) = length vs.
Proof.
  intros L. unfold data_frame, frame_of_columns.
  cbn [list_lengths flat_map snd app]. rewrite !length_map, L.
  cbn [forallb]. rewrite Nat.eqb_refl. cbn [andb].
  eexists. split; [reflexivity|]. cbn [fr_columns fr_rows map fst].
  split; [reflexivity|]. now rewrite length_map, length_seq.
Qed.

(** What saving and drawing do with the result of each processor. *)
Lemma traffic_map_saved (h : Host) (w : World) (image_path : string)
    (k k' : nat) (r : Result) :
  _process_traffic_map w image_path k = (inr r, k') ->
  exists df traces n,
    r_type r = Some "traffic_map" /\ r_error r = None /\
    primary_items r = Some n /\
    (forall out,
       save_extracted_data h r out = write_file h out (WriteCsv out df)) /\
    fr_columns df = ["locations"; "speeds"; "conditions"; "timestamp"] /\
    length (fr_rows df) = n /\
    create_visualization_from_extracted_data h r
    = inr (Some (ScatterFigure traces "Extracted Traffic Data" "Location Index"
                   "Speed (km/h)" (Some true))) /\
    length traces = n /\
    Forall (fun t => exists color,
                sc_marker t = Some (15%Z, color) /\
                In color ["green"; "orange"; "red"]) traces.
Proof.
  intros P. apply traffic_map_lists in P.
  destruct P as [ls [ss [label [Ls [L ->]]]]].
  destruct (@frame_rows_traffic h ls ss (repeat label (length ls)) (now_isoformat w) Ls)
    as [df [D [C [R _]]]]; [apply repeat_length|].
  destruct (@traffic_traces_ok ss label (length ls) L ls 0) as [traces [T [Len [F _]]]];
    [lia | lia |].
  exists df, traces, (length ls).
  split; [reflexivity|]. split; [reflexivity|]. split; [reflexivity|].
  split.
  { intros out. unfold save_extracted_data, save_csv.
    cbn [r_type r_data String.eqb Ascii.eqb Bool.eqb]. now rewrite D. }
  split; [exact C|]. split; [exact R|].
  split.
  { unfold create_visualization_from_extracted_data.
    cbn [r_type r_data String.eqb Ascii.eqb Bool.eqb _create_traffic_map_viz some_figure].
    now rewrite T. }
  split; [exact Len | exact F].
Qed.

Lemma chart_saved (h : Host) (w : World) (image_path : string)
    (k k' : nat) (r : Result) :
  _process_chart w image_path k = (inr r, k') ->
  exists df fig n,
    r_type r = Some "chart" /\ r_error r = None /\
    primary_items r = Some n /\
    (forall out,
       save_extracted_data h r out = write_file h out (WriteCsv out df)) /\
    length (fr_rows df) = n /\
    create_visualization_from_extracted_data h r = inr (Some fig).
Proof.
  intros P. apply chart_inv in P.
  destruct P as [img [text [ct [_ [_ [_ [_ R]]]]]]]. cbv zeta in R. subst r.
  set (values := firstn 24 (map float (Re.findall Re.number text))).
  destruct (@frame_rows_chart h values
              (map (fun i => ("Hour " ++ str_of_nat i)%string) (seq 0 (length values)))
              ct (now_isoformat w)) as [df [D [_ Rw]]];
    [now rewrite length_map, length_seq|].
  eexists df, _, (length values).
  split; [reflexivity|]. split; [reflexivity|]. split; [reflexivity|].
  split.
  { intros out. unfold save_extracted_data, save_csv.
    cbn [r_type r_data String.eqb Ascii.eqb Bool.eqb]. now rewrite D. }
  split; [exact Rw|]. reflexivity.
Qed.

Lemma table_saved (h : Host) (w : World) (image_path : string)
    (k k' : nat) (r : Result) :
  _process_table w image_path k = (inr r, k') ->
  r_error r = None ->
  exists df n,
    r_type r = Some "table" /\
    primary_items r = Some n /\
    (forall out,
       save_extracted_data h r out = write_file h out (WriteCsv out df)) /\
    length (fr_rows df) = n.
Proof.
  intros P E. apply table_inv in P.
  destruct P as [->|[header [rows [df [_ [_ ->]]]]]]; [discriminate E|].
  eexists _, _. split; [reflexivity|]. split; [reflexivity|].
  split; [intros out; reflexivity|].
  cbn [frame_of_records fr_rows]. now rewrite !length_map.
Qed.

Lemma json_saved (h : Host) (r : Result) (out kind : string) :
  r_type r = Some kind ->
  ~ In kind ["traffic_map"; "chart"; "table"] ->
  save_extracted_data h r out
  = write_file h (replace ".csv" ".json" out)
      (WriteJson (replace ".csv" ".json" out) r) /\
  create_visualization_from_extracted_data h r = inr None.
Proof.
  intros T N. unfold save_extracted_data, create_visualization_from_extracted_data.
  rewrite T.
  destruct (String.eqb_spec kind "traffic_map") as [->|_]; [exfalso; apply N; cbn; tauto|].
  destruct (String.eqb_spec kind "chart") as [->|_]; [exfalso; apply N; cbn; tauto|].
  destruct (String.eqb_spec kind "table") as [->|_]; [exfalso; apply N; cbn; tauto|].
  now split.
Qed.

Lemma write_file_cases (h : Host) (path : string) (done : effect) :
  (write_error h path = None -> write_file h path done = inr done) /\
  (forall e, write_file h path done = inl e -> write_error h path = Some e) /\
  (forall x, write_file h path done = inr x -> x = done /\ write_error h path = None).
Proof.
  unfold write_file. destruct (write_error h path) as [e0|].
  - split; [discriminate|]. split; [|discriminate].
    intros e E. now inversion E.
  - split; [reflexivity|]. split; [discriminate|].
    intros x E. inversion E. now split.
Qed.

(** How a result of [process_image] without an error field is saved and
    drawn: the file written to, what is written, and the figure. *)
Lemma saved_and_drawn (h : Host) (w : World) (image_path hint : string) (k : nat) :
  let r := fst (process_image w image_path hint k) in
  r_error r = None ->
  exists kind drawn,
    r_type r = Some kind /\
    create_visualization_from_extracted_data h r = inr drawn /\
    (drawn <> None <-> kind = "traffic_map" \/ kind = "chart") /\
    ((In kind ["traffic_map"; "chart"; "table"] /\
      exists df n,
        primary_items r = Some n /\ length (fr_rows df) = n /\
        forall out,
          save_extracted_data h r out = write_file h out (WriteCsv out df))
     \/ (In kind ["screenshot"; "generic"] /\
         forall out,
           save_extracted_data h r out
           = write_file h (replace ".csv" ".json" out)
               (WriteJson (replace ".csv" ".json" out) r))).
Proof.
  intros r E.
  destruct (process_image_cases w image_path hint k)
    as [[e X]|[[k0 [k' P]]|[[k0 [k' P]]|[[k0 [k' P]]|[[k0 [k' P]]|[k0 [k' P]]]]]]];
    fold r in X || fold r in P.
  - rewrite X in E. discriminate E.
  - destruct (@traffic_map_saved h _ _ _ _ _ P)
      as [df [traces [n [T [_ [I [S [_ [R [V _]]]]]]]]]].
    eexists "traffic_map", _. split; [exact T|]. split; [exact V|].
    split; [split; [tauto | discriminate]|].
    left. split; [cbn; tauto|]. now exists df, n.
  - destruct (@chart_saved h _ _ _ _ _ P) as [df [fig [n [T [_ [I [S [R V]]]]]]]].
    eexists "chart", _. split; [exact T|]. split; [exact V|].
    split; [split; [tauto | discriminate]|].
    left. split; [cbn; tauto|]. now exists df, n.
  - apply screenshot_returns in P. destruct P as [img [text [_ [_ [_ R]]]]].
    assert (r_type r = Some "screenshot") as T by now rewrite R.
    assert (~ In "screenshot" ["traffic_map"; "chart"; "table"]) as N
      by (cbn; intuition discriminate).
    exists "screenshot", None. split; [exact T|].
    split; [exact (proj2 (@json_saved h r "" _ T N))|].
    split; [split; [congruence | intros [X|X]; discriminate X]|].
    right. split; [cbn; tauto|].
    intros out. exact (proj1 (@json_saved h r out _ T N)).
  - destruct (@table_saved h _ _ _ _ _ P E) as [df [n [T [I [S R]]]]].
    exists "table", None. split; [exact T|].
    split; [eapply table_viz_none; exact P|].
    split; [split; [congruence | intros [X|X]; discriminate X]|].
    left. split; [cbn; tauto|]. now exists df, n.
  - apply generic_shape in P. destruct P as [text [ns R]].
    assert (r_type r = Some "generic") as T by now rewrite R.
    assert (~ In "generic" ["traffic_map"; "chart"; "table"]) as N
      by (cbn; intuition discriminate).
    exists "generic", None. split; [exact T|].
    split; [exact (proj2 (@json_saved h r "" _ T N))|].
    split; [split; [congruence | intros [X|X]; discriminate X]|].
    right. split; [cbn; tauto|].
    intros out. exact (proj1 (@json_saved h r out _ T N)).
Qed.

(** X15: on a result of [process_image] that has no error field
    [save_extracted_data] fails only when the file system refuses the
    write: no key is missing and the columns are equally long.  A
    [traffic_map], [chart] or [table] result goes to the given path as a
    table with one row per primary item; a [screenshot] or [generic] result
    goes as JSON to the path with every ".csv" replaced by ".json". *)
Theorem save_fails_only_on_write
    (h : Host) (w : World) (image_path hint out : string) (k : nat) :
  let r := fst (process_image w image_path hint k) in
  r_error r = None ->
  exists target done,
    ((target = out /\
      In (r_type r) [Some "traffic_map"; Some "chart"; Some "table"] /\
      exists df n,
        done = WriteCsv out df /\
        primary_items r = Some n /\ length (fr_rows df) = n)
     \/ (target = replace ".csv" ".json" out /\
         In (r_type r) [Some "screenshot"; Some "generic"] /\
         done = WriteJson target r)) /\
    (write_error h target = None -> save_extracted_data h r out = inr done) /\
    (forall e, save_extracted_data h r out = inl e ->
               write_error h target = Some e).
Proof.
  intros r E.
  destruct (saved_and_drawn h w image_path hint k E)
    as [kind [drawn [T [_ [_ [[I [df [n [P [R S]]]]]|[I S]]]]]]]; fold r in T, S.
  - exists out, (WriteCsv out df). split.
    + left. split; [reflexivity|]. split; [|now exists df, n].
      rewrite T. cbn in I. cbn. intuition (subst; auto).
    + rewrite S. destruct (write_file_cases h out (WriteCsv out df)) as [A [B _]].
      now split.
  - exists (replace ".csv" ".json" out), (WriteJson (replace ".csv" ".json" out) r).
    split.
    + right. split; [reflexivity|]. split; [|reflexivity].
      rewrite T. cbn in I. cbn. intuition (subst; auto).
    + rewrite S.
      destruct (write_file_cases h (replace ".csv" ".json" out)
                  (WriteJson (replace ".csv" ".json" out) r)) as [A [B _]].
      now split.
Qed.

Lemma save_fails_only_on_write_witness :
  exists df,
    save_extracted_data sample_host
      (fst (process_image (sample_world "7 8.5 9" []) "c.png" "chart" 0))
      "out/data.csv"
    = inr (WriteCsv "out/data.csv" df)
    /\ length (fr_rows df) = 3%nat.
Proof.
  destruct (@save_fails_only_on_write sample_host (sample_world "7 8.5 9" [])
              "c.png" "chart" "out/data.csv" 0 eq_refl)
    as [target [done [[[-> [_ [df [n [-> [I R]]]]]]|[_ [I _]]] [S _]]]].
  - exists df. split; [apply S; reflexivity|]. rewrite R.
    vm_compute in I. now inversion I.
  - vm_compute in I. intuition discriminate.
Defined.

(** X16: the figure of a traffic-map result: one marker per location used,
    coloured green, orange or red.  The lists are equally long, so no index
    fails, and the fallback colour blue is never used. *)
Theorem traffic_map_figure
    (h : Host) (w : World) (image_path : string) (k k' : nat) (r : Result) :
  _process_traffic_map w image_path k = (inr r, k') ->
  exists traces,
    create_visualization_from_extracted_data h r
    = inr (Some (ScatterFigure traces "Extracted Traffic Data" "Location Index"
                   "Speed (km/h)" (Some true))) /\
    r_extracted_count r = Some (length traces) /\
    Forall (fun t => exists color,
                sc_marker t = Some (15%Z, color) /\
                In color ["green"; "orange"; "red"]) traces.
Proof.
  intros P.
  destruct (@traffic_map_saved h _ _ _ _ _ P)
    as [df [traces [n [_ [_ [I [_ [_ [_ [V [Len F]]]]]]]]]]].
  exists traces. split; [exact V|]. split; [|exact F].
  apply traffic_map_shape in P. destruct P as [ls [ss [cs [ts ->]]]].
  cbn in I. cbn. congruence.
Qed.

Lemma traffic_map_figure_witness :
  exists traces,
    create_visualization_from_extracted_data sample_host
      (fst (process_image
              (sample_world "Main Street 45 km/h, Oak Road" [[(0, 255, 255)%Z]])
              "map.png" "traffic_map" 0))
    = inr (Some (ScatterFigure traces "Extracted Traffic Data" "Location Index"
                   "Speed (km/h)" (Some true)))
    /\ length traces = 2%nat.
Proof.
  destruct (@traffic_map_figure sample_host
              (sample_world "Main Street 45 km/h, Oak Road" [[(0, 255, 255)%Z]])
              "map.png" 0 1 _ eq_refl) as [traces [V [C _]]].
  exists traces. split; [exact V|]. cbn in C. now inversion C.
Defined.

(* ===================================================================== *)
(** ** [process_uploaded_image] *)
(* ===================================================================== *)

Lemma replace_csv_differs (s : string) :
  contains ".csv" s = true -> replace ".csv" ".json" s <> s.
Proof.
  unfold replace. induction s as [|c s IH]; [discriminate|].
  cbn [contains replace_from].
  destruct (String.prefix ".csv" (String c s)) eqn:P.
  - intros _. apply prefix_app in P. destruct P as [post E].
    cbn in E. inversion E; subst. cbn. discriminate.
  - cbn [orb]. intros C E. inversion E as [E']. now apply (IH C).
Qed.

Lemma output_file_has_csv (dir stamp : string) :
  contains ".csv" (dir ++ "extracted_data_" ++ stamp ++ ".csv") = true.
Proof.
  apply contains_app.
  exists (dir ++ "extracted_data_" ++ stamp)%string, EmptyString.
  rewrite !string_app_assoc. reflexivity.
Qed.

(** X17: [process_uploaded_image] raises only what the file system raises
    (making the directory, writing the data, writing the figure).  A
    result with an error field (a failure, or the empty table record)
    comes back as it is and nothing is written.  When the file system
    accepts the calls, any other result gets [output_file], the ".csv"
    path built from the directory and the time stamp, after the directory
    was made and the data saved; it gets [visualization] exactly when it
    is a [traffic_map] or a [chart]. *)
Theorem process_uploaded_image_outcome
    (h : Host) (w : World) (image_path output_dir : string) (k : nat) :
  let r := fst (process_image w image_path "auto" k) in
  let k' := snd (process_image w image_path "auto" k) in
  let output_file :=
    (output_dir ++ "extracted_data_" ++ strftime_now h ++ ".csv")%string in
  let viz_file :=
    (output_dir ++ "extracted_viz_" ++ strftime_now h ++ ".html")%string in
  let targets := [output_file; replace ".csv" ".json" output_file; viz_file] in
  (r_error r <> None ->
   process_uploaded_image h w image_path output_dir k
   = (inr (MkUploaded r None None), [], k')) /\
  (r_error r = None ->
   makedirs_error h output_dir = None ->
   (forall path, In path targets -> write_error h path = None) ->
   exists u effects,
     process_uploaded_image h w image_path output_dir k = (inr u, effects, k') /\
     u_result u = r /\
     u_output_file u = Some output_file /\
     (exists saved rest, effects = MakeDirs output_dir :: saved :: rest) /\
     (u_visualization u <> None <->
      r_type r = Some "traffic_map" \/ r_type r = Some "chart")) /\
  (forall e effects k'',
     process_uploaded_image h w image_path output_dir k = (inl e, effects, k'') ->
     makedirs_error h output_dir = Some e \/
     exists path, In path targets /\ write_error h path = Some e).
Proof.
  intros r k' output_file viz_file targets.
  pose proof (saved_and_drawn h w image_path "auto" k) as C. cbv zeta in C.
  fold r in C. subst k'.
  unfold process_uploaded_image. fold output_file viz_file.
  destruct (process_image w image_path "auto" k) as [r0 k0] eqn:PI.
  cbn [fst snd] in *. subst r.
  destruct (r_error r0) as [msg|] eqn:E.
  { split; [reflexivity|]. split; [discriminate|]. intros e effects k'' X.
    discriminate X. }
  split; [congruence|].
  destruct (C eq_refl) as [kind [drawn [T [V [D S]]]]]. rewrite V.
  assert (exists target done,
            In target targets /\
            save_extracted_data h r0 output_file = write_file h target done) as W.
  { subst targets.
    destruct S as [[_ [df [n [_ [_ S]]]]]|[_ S]]; rewrite S; eexists _, _;
      (split; [|reflexivity]); cbn; tauto. }
  destruct W as [target [done [IT W]]]. rewrite W.
  assert (In viz_file targets) as IV by (subst targets; cbn; tauto).
  destruct (write_file_cases h target done) as [A [B B']].
  split.
  - intros _ M F. rewrite M, (A (F target IT)).
    destruct drawn as [fig|].
    + unfold write_file. rewrite (F _ IV).
      eexists _, _. split; [reflexivity|].
      cbn [u_result u_output_file u_visualization].
      split; [reflexivity|]. split; [reflexivity|]. split; [now eexists _, _|].
      rewrite T. split; [intros _|discriminate].
      destruct (proj1 D) as [->| ->]; [discriminate | now left | now right].
    + eexists _, _. split; [reflexivity|].
      cbn [u_result u_output_file u_visualization].
      split; [reflexivity|]. split; [reflexivity|]. split; [now eexists _, _|].
      rewrite T. split; [congruence|].
      intros X. exfalso. apply (proj2 D); [|reflexivity].
      destruct X as [X|X]; inversion X; tauto.
  - intros e effects k'' X.
    destruct (makedirs_error h output_dir) as [e0|];
      [left; now inversion X|].
    right. destruct (write_file h target done) as [e1|saved] eqn:WF.
    + exists target. split; [exact IT|]. inversion X; subst. now apply B.
    + destruct drawn as [fig|]; [|discriminate X].
      destruct (write_file_cases h viz_file (WriteHtml viz_file fig)) as [_ [Bv _]].
      destruct (write_file h viz_file (WriteHtml viz_file fig)) as [e2|x] eqn:WV;
        [|discriminate X].
      exists viz_file. split; [exact IV|]. inversion X; subst. now apply Bv.
Qed.

Lemma process_uploaded_image_outcome_witness :
  exists u effects k',
    process_uploaded_image sample_host (sample_world "1 2 3" []) "notes.png"
      "../data/extracted/" 0 = (inr u, effects, k')
    /\ u_output_file u = Some "../data/extracted/extracted_data_20240501_120000.csv".
Proof.
  destruct (process_uploaded_image_outcome sample_host (sample_world "1 2 3" [])
              "notes.png" "../data/extracted/" 0)
    as [_ [F _]].
  destruct F as [u [effects [R [_ [O _]]]]].
  - reflexivity.
  - reflexivity.
  - intros path [<-|[<-|[<-|[]]]]; reflexivity.
  - eexists u, effects, _. split; [exact R | exact O].
Defined.

(** X18: for a screenshot [output_file] names a file that is not written:
    when the directory can be made and the JSON file written, the data go
    to the path with ".csv" replaced by ".json", which is another path,
    while the dictionary returned still carries the ".csv" one; no figure
    is written either. *)
Theorem screenshot_output_file_not_written
    (h : Host) (w : World) (image_path output_dir : string) (k : nat) :
  let r := fst (process_image w image_path "auto" k) in
  let output_file :=
    (output_dir ++ "extracted_data_" ++ strftime_now h ++ ".csv")%string in
  r_type r = Some "screenshot" ->
  makedirs_error h output_dir = None ->
  write_error h (replace ".csv" ".json" output_file) = None ->
  exists u written,
    process_uploaded_image h w image_path output_dir k
    = (inr u, [MakeDirs output_dir; WriteJson written r],
       snd (process_image w image_path "auto" k)) /\
    u_output_file u = Some output_file /\
    u_visualization u = None /\
    written = replace ".csv" ".json" output_file /\
    written <> output_file.
Proof.
  intros r output_file T M F.
  pose proof (saved_and_drawn h w image_path "auto" k) as C. cbv zeta in C.
  fold r in C.
  assert (r_error r = None) as E.
  { subst r.
    destruct (process_image_cases w image_path "auto" k)
      as [[e X]|[[k0 [k1 P]]|[[k0 [k1 P]]|[[k0 [k1 P]]|[[k0 [k1 P]]|[k0 [k1 P]]]]]]].
    - rewrite X in T. discriminate T.
    - apply traffic_map_shape in P. destruct P as [? [? [? [? R]]]]. now rewrite R.
    - apply chart_shape in P. destruct P as [? [? [? [? R]]]]. now rewrite R.
    - apply screenshot_returns in P. destruct P as [? [? [_ [_ [_ R]]]]].
      now rewrite R.
    - apply table_shape in P.
      destruct P as [R|[? [? [? [? [R _]]]]]]; rewrite R in *;
        [discriminate T | reflexivity].
    - apply generic_shape in P. destruct P as [? [? R]]. now rewrite R. }
  destruct (C E) as [kind [drawn [T' [V [D S]]]]].
  assert (kind = "screenshot") as -> by congruence.
  destruct S as [[I _]|[_ S]]; [cbn in I; intuition discriminate|].
  assert (drawn = None) as ->.
  { destruct drawn as [fig|]; [|reflexivity].
    destruct (proj1 D) as [X|X]; [discriminate | discriminate X | discriminate X]. }
  unfold process_uploaded_image. fold output_file.
  destruct (process_image w image_path "auto" k) as [r0 k0] eqn:PI.
  cbn [fst snd] in *. subst r.
  rewrite E, M, S, V.
  rewrite (proj1 (write_file_cases h _ _) F).
  eexists _, _. split; [reflexivity|]. cbn [u_output_file u_visualization].
  split; [reflexivity|]. split; [reflexivity|]. split; [reflexivity|].
  apply replace_csv_differs. apply output_file_has_csv.
Qed.

Lemma screenshot_output_file_not_written_witness :
  exists u written k',
    process_uploaded_image sample_host (sample_world "Waze live traffic 12 min" [])
      "shot.png" "../data/extracted/" 0
    = (inr u, [MakeDirs "../data/extracted/";
               WriteJson written
                 (fst (process_image (sample_world "Waze live traffic 12 min" [])
                         "shot.png" "auto" 0))], k')
    /\ u_output_file u = Some "../data/extracted/extracted_data_20240501_120000.csv"
    /\ written = "../data/extracted/extracted_data_20240501_120000.json".
Proof.
  destruct (@screenshot_output_file_not_written sample_host
              (sample_world "Waze live traffic 12 min" []) "shot.png"
              "../data/extracted/" 0 eq_refl eq_refl eq_refl)
    as [u [written [R [O [_ [W _]]]]]].
  eexists u, written, _. split; [exact R|]. split; [exact O|].
  rewrite W. reflexivity.
Defined.

(* ===================================================================== *)
(** ** The cells of a table *)
(* ===================================================================== *)

Lemma last_char_tail (p : ascii -> bool) (c : ascii) (s : string) :
  s <> EmptyString -> last_char p (String c s) = last_char p s.
Proof. destruct s; [congruence | reflexivity]. Qed.

Lemma last_nonspace_tail (c : ascii) (s : string) :
  last_char (fun x => negb (isspace x)) (String c s) = true ->
  s = EmptyString \/ last_char (fun x => negb (isspace x)) s = true.
Proof. destruct s; [now left | right; exact H]. Qed.

Lemma nonspace_after_run (s : string) :
  last_char (fun x => negb (isspace x)) s = true ->
  nonspace_at (String.length (fst (span isspace s))) s = true.
Proof.
  induction s as [|c s IH]; [discriminate|].
  intros L. cbn [span]. destruct (isspace c) eqn:SP.
  - destruct (span isspace s) as [a b] eqn:E. cbn [fst String.length nonspace_at].
    cbn [fst] in IH. apply IH.
    destruct (last_nonspace_tail _ _ L) as [->|L']; [|exact L'].
    cbn in L. rewrite SP in L. discriminate L.
  - cbn. now rewrite SP.
Qed.

Lemma split_cells_from_cons (skip : nat) (s : string) :
  exists cell cells, Re.split_cells_from skip s = cell :: cells.
Proof.
  revert skip. induction s as [|c s IH]; intros skip; [now eexists _, _|].
  cbn [Re.split_cells_from]. destruct skip as [|k]; [|apply IH].
  destruct (2 <=? _)%nat; [now eexists _, _|].
  destruct (Ascii.eqb c "009"); [now eexists _, _|].
  destruct (IH 0%nat) as [cell [cells ->]]. now eexists _, _.
Qed.

Lemma tab_is_space (c : ascii) : Ascii.eqb c "009" = true -> isspace c = true.
Proof. intros E. apply Ascii.eqb_eq in E. now subst. Qed.

Lemma split_cells_nonempty (s : string) :
  (forall skip,
     nonspace_at skip s = true ->
     last_char (fun x => negb (isspace x)) s = true ->
     Forall (fun cell => cell <> EmptyString) (Re.split_cells_from skip s)) /\
  (s = EmptyString \/ last_char (fun x => negb (isspace x)) s = true ->
   Forall (fun cell => cell <> EmptyString) (tl (Re.split_cells_from 0 s))).
Proof.
  induction s as [|c s [IHP IHQ]].
  - split; [discriminate | intros _; constructor].
  - split.
    + intros skip A L. cbn [Re.split_cells_from].
      destruct skip as [|k].
      * cbn [nonspace_at] in A. apply negb_true_iff in A.
        cbn [span]. rewrite A. cbn [fst String.length Nat.leb].
        destruct (Ascii.eqb c "009") eqn:TAB;
          [apply tab_is_space in TAB; congruence|].
        destruct (split_cells_from_cons 0 s) as [cell [cells E]].
        specialize (IHQ (last_nonspace_tail _ _ L)). rewrite E in *.
        cbn [cons_head tl] in *. constructor; [discriminate | exact IHQ].
      * cbn [nonspace_at] in A. apply IHP; [exact A|].
        destruct (last_nonspace_tail _ _ L) as [->|L']; [now destruct k | exact L'].
    + intros [E|L]; [discriminate E|].
      pose proof (nonspace_after_run _ L) as R.
      cbn [Re.split_cells_from].
      destruct (2 <=? String.length (fst (span isspace (String c s))))%nat eqn:W.
      * cbn [tl]. apply IHP.
        -- apply Nat.leb_le in W.
           destruct (String.length (fst (span isspace (String c s)))) as [|n];
             [lia|]. cbn [nonspace_at] in R.
           replace (S n - 1)%nat with n by lia. exact R.
        -- destruct (last_nonspace_tail _ _ L) as [->|L']; [|exact L'].
           cbn [span] in W. destruct (isspace c); discriminate W.
      * destruct (Ascii.eqb c "009") eqn:TAB.
        -- cbn [tl]. apply tab_is_space in TAB.
           cbn [span] in R, W. rewrite TAB in R, W.
           destruct (span isspace s) as [a b]. cbn [fst String.length] in R, W.
           destruct a; [|discriminate W]. cbn [String.length nonspace_at] in R.
           apply IHP; [exact R|].
           destruct (last_nonspace_tail _ _ L) as [->|L']; [discriminate R | exact L'].
        -- destruct (split_cells_from_cons 0 s) as [cell [cells E]].
           specialize (IHQ (last_nonspace_tail _ _ L)). rewrite E in *.
           exact IHQ.
Qed.

Lemma lstrip_head (s : string) :
  lstrip s = EmptyString \/ nonspace_at 0 (lstrip s) = true.
Proof.
  induction s as [|c s IH]; [now left|].
  cbn [lstrip]. destruct (isspace c) eqn:SP; [exact IH|].
  right. cbn. now rewrite SP.
Qed.

Lemma rstrip_last (s : string) :
  rstrip s = EmptyString \/ last_char (fun x => negb (isspace x)) (rstrip s) = true.
Proof.
  induction s as [|c s IH]; [now left|].
  cbn [rstrip]. destruct (rstrip s) as [|d r] eqn:R.
  - cbn [is_empty]. rewrite andb_true_r. destruct (isspace c) eqn:SP; [now left|].
    right. cbn. now rewrite SP.
  - cbn [is_empty]. rewrite andb_false_r. right.
    destruct IH as [IH|IH]; [discriminate IH|].
    rewrite last_char_tail by discriminate. exact IH.
Qed.

Lemma rstrip_head (s : string) :
  nonspace_at 0 s = true -> nonspace_at 0 (rstrip s) = true.
Proof.
  destruct s as [|c s]; [discriminate|]. cbn [nonspace_at rstrip].
  intros A. apply negb_true_iff in A. rewrite A. cbn [andb nonspace_at].
  now rewrite A.
Qed.

(** X19: no cell of the table data is empty: a line is stripped before it is
    cut, two separators never touch, and so neither a column name nor a
    cell of a table result is the empty string. *)
Theorem table_cells_nonempty (text : string) :
  Forall (Forall (fun cell => cell <> EmptyString)) (parse_table text).
Proof.
  rewrite parse_table_filter. apply Forall_forall. intros cells I.
  apply filter_In in I. destruct I as [I _].
  apply in_map_iff in I. destruct I as [line [<- I]].
  apply filter_In in I. destruct I as [_ T].
  unfold truthy in T. apply negb_true_iff in T.
  unfold Re.split_cells. apply (proj1 (split_cells_nonempty (strip line))).
  - unfold strip in *. destruct (lstrip_head line) as [E|A].
    + rewrite E in T. discriminate T.
    + now apply rstrip_head.
  - unfold strip in *. destruct (rstrip_last (lstrip line)) as [E|L]; [|exact L].
    rewrite E in T. discriminate T.
Qed.

Lemma table_cells_nonempty_witness :
  Forall (Forall (fun cell => cell <> EmptyString))
         [["Zone"; "Speed"]; ["A b"; "45"]].
Proof.
  apply (table_cells_nonempty
           (unlines [("  Zone" ++ String "009" "Speed  ")%string; "";
                     "A b     45"; "single"])).
Defined.

Lemma dict_get_set (V : Type) (k k' : string) (v : V) (d : dict V) :
  dict_get k' (dict_set k v d)
  = if String.eqb k' k then Some v else dict_get k' d.
Proof.
  induction d as [|[k0 v0] d IH]; cbn [dict_set dict_get]; [reflexivity|].
  destruct (String.eqb_spec k k0) as [->|N]; cbn [dict_get].
  - now destruct (String.eqb k' k0).
  - rewrite IH. destruct (String.eqb_spec k' k0) as [->|N'];
      [|reflexivity].
    destruct (String.eqb_spec k0 k) as [E|_]; [congruence | reflexivity].
Qed.

Lemma dict_of_last (V : Type) (front back : list (string * V)) (k : string) (v : V) :
  ~ In k (map fst back) ->
  dict_get k (dict_of (front ++ (k, v) :: back)) = Some v.
Proof.
  unfold dict_of. rewrite fold_left_app. cbn [fold_left fst snd].
  set (d := dict_set k v _).
  assert (dict_get k d = Some v) as G
    by (subst d; now rewrite dict_get_set, String.eqb_refl).
  clearbody d. revert d G.
  induction back as [|[k0 v0] back IH]; intros d G N; [exact G|].
  cbn [fold_left fst snd]. apply IH.
  - rewrite dict_get_set. destruct (String.eqb_spec k k0) as [->|_]; [|exact G].
    exfalso. apply N. now left.
  - intros I. apply N. now right.
Qed.

Lemma combine_app_same (A B : Type) (a1 a2 : list A) (b1 b2 : list B) :
  length b1 = length a1 ->
  combine (a1 ++ a2) (b1 ++ b2) = (combine a1 b1 ++ combine a2 b2)%list.
Proof.
  revert b1. induction a1 as [|x a1 IH]; intros [|y b1] L; try discriminate L;
    [reflexivity|].
  cbn. f_equal. apply IH. now inversion L.
Qed.

(** X20: when two columns of a table bear the same name, a record keeps one
    entry for the name, with the cell of the last of these columns: the
    cells of the earlier ones are lost. *)
Theorem duplicate_column_keeps_last
    (df : DataFrame) (row : list (option string))
    (left right : list string) (name : string)
    (cells_left cells_right : list (option string)) (cell : option string) :
  In row (df_values df) ->
  df_columns df = (left ++ name :: right)%list ->
  row = (cells_left ++ cell :: cells_right)%list ->
  length cells_left = length left ->
  ~ In name right ->
  exists record,
    In record (to_dict_records df) /\
    dict_get name record = Some cell.
Proof.
  intros I C R L N.
  exists (dict_of (combine (df_columns df) row)).
  split.
  - unfold to_dict_records. apply in_map_iff. now exists row.
  - rewrite C, R, combine_app_same by exact L.
    cbn [combine]. apply dict_of_last.
    intros H. apply N.
    apply in_map_iff in H. destruct H as [[k0 v0] [E H]].
    cbn [fst] in E. subst k0. eapply in_combine_l; exact H.
Qed.

Lemma duplicate_column_keeps_last_witness :
  exists record,
    In record (to_dict_records
                 (MkDataFrame ["Zone"; "Zone"] [[Some "A"; Some "45"]]))
    /\ dict_get "Zone" record = Some (Some "45").
Proof.
  apply (@duplicate_column_keeps_last
           (MkDataFrame ["Zone"; "Zone"] [[Some "A"; Some "45"]])
           [Some "A"; Some "45"] ["Zone"] [] "Zone" [Some "A"] [] (Some "45")).
  - now left.
  - reflexivity.
  - reflexivity.
  - reflexivity.
  - intros [].
Defined.

(* ===================================================================== *)
(** ** The hint [auto] and the detected kind *)
(* ===================================================================== *)

(** X21: processing with the hint [auto] is processing with the kind the
    classifier detects: when [_detect_image_type] answers [kind],
    [process_image] gives with [auto] what it gives with [kind] as the
    hint; when the classifier raises, the result is the error dictionary
    of that exception. *)
Theorem auto_is_detected_kind
    (w : World) (image_path : string) (k : nat) :
  (forall kind k',
     _detect_image_type w image_path k = (inr kind, k') ->
     process_image w image_path "auto" k = process_image w image_path kind k) /\
  (forall e k',
     _detect_image_type w image_path k = (inl e, k') ->
     process_image w image_path "auto" k = (error_result e, k)).
Proof.
  split.
  - intros kind k' D.
    destruct (detect_image_type_kinds _ _ _ D) as [-> K].
    unfold process_image, process_image_body.
    cbn [String.eqb Ascii.eqb Bool.eqb].
    erewrite bind_inr by exact D.
    assert (String.eqb kind "auto" = false) as ->.
    { cbn in K. destruct K as [<-|[<-|[<-|[<-|[]]]]]; reflexivity. }
    erewrite bind_inr by reflexivity. reflexivity.
  - intros e k' D.
    pose proof (detect_keeps w image_path k) as K. rewrite D in K.
    cbn [snd] in K. subst k'.
    apply process_image_inl. unfold process_image_body.
    cbn [String.eqb Ascii.eqb Bool.eqb].
    erewrite bind_inl by exact D. reflexivity.
Qed.

Lemma auto_is_detected_kind_witness :
  process_image (sample_world "Waze live traffic 12 min" []) "shot.png" "auto" 0
  = process_image (sample_world "Waze live traffic 12 min" []) "shot.png"
      "screenshot" 0.
Proof.
  apply (proj1 (auto_is_detected_kind
                  (sample_world "Waze live traffic 12 min" []) "shot.png" 0)
           "screenshot" 0%nat).
  reflexivity.
Defined.
